(** * add_links.py: Bible-reference linking over extracted PDF text

    A shallow embedding of [src/add_links.py] and the properties of its
    line normaliser, tokenizer, reference resolver, geometry mapper and
    link emitter.

    Conventions of the model:
    - a Python [str] is a list of Unicode code points ([pystr]);
    - Python's unbounded [int] values that the code computes are naturals
      ([N]); indices into strings and lists are [nat];
    - font sizes and page coordinates, Python floats in the source, are
      exact rationals ([Q]): rounding is not modelled;
    - an exception of the source ([IndexError], [TypeError], the
      [ValueError] of [int] on a run of more than 4300 digits) is [None]
      in the error monad (plain [option] with a bind notation);
    - the character tables of Python's Unicode database are concrete on
      ASCII and a parameter ([UnicodeData]) above it. *)

From Stdlib Require Import String Ascii DecimalString.
From Stdlib Require Import List Bool Arith NArith QArith Qminmax Lia Lqa.
Import ListNotations.

Local Open Scope nat_scope.

(** ** Python strings *)

Definition codepoint := N.
Definition pystr := list codepoint.

(** [py "Mt 7:3"] is the Python literal ["Mt 7:3"] (ASCII literals only). *)
Definition py (s : string) : pystr := map N_of_ascii (list_ascii_of_string s).
Arguments py s%_string.

Definition cp_eqb (a b : codepoint) : bool := N.eqb a b.

(** The code point of an ASCII character: [chr ":"] is U+003A. *)
Definition chr (a : ascii) : codepoint := N_of_ascii a.
Arguments chr a%_char.

Fixpoint pystr_eqb (a b : pystr) : bool :=
  match a, b with
  | [], [] => true
  | x :: a', y :: b' => cp_eqb x y && pystr_eqb a' b'
  | _, _ => false
  end.

(** [l[s:e]] for non-negative [s] and [e]. *)
Definition slice {A} (l : list A) (s e : nat) : list A :=
  firstn (e - s) (skipn s l).

(** [str(n)] for a non-negative int.  The ints the program formats come
    from [int], whose limit on digits is the limit of [str] too. *)
Definition py_str_of_int (n : N) : pystr :=
  py (NilZero.string_of_uint (N.to_uint n)).

(** ** The error monad *)

Definition bind {A B} (m : option A) (f : A -> option B) : option B :=
  match m with
  | Some a => f a
  | None => None
  end.

Notation "x <- m ;; k" := (bind m (fun x => k))
  (at level 61, m at next level, right associativity).
Notation "' p <- m ;; k" := (bind m (fun x => match x with p => k end))
  (at level 61, p pattern, m at next level, right associativity).

(** ** Character tables

    [str.isspace], [str.isdigit], the regex classes [\s], [\d], [\w] and
    [int()] consult Python's Unicode database.  On ASCII the tables are
    written out; above ASCII they are the fields of [UnicodeData], so
    every theorem holds whatever the database says there. *)

Class UnicodeData := {
  uni_isspace : codepoint -> bool;
  uni_isdecimal : codepoint -> bool;
  uni_isdigit : codepoint -> bool;
  uni_isalnum : codepoint -> bool;
  uni_decimal_value : codepoint -> N
}.

Section Tables.
Context {U : UnicodeData}.
Local Open Scope N_scope.

Definition is_ascii (c : codepoint) : bool := c <? 128.

Definition in_range (lo hi c : codepoint) : bool := (lo <=? c) && (c <=? hi).

(** TAB, LF, VT, FF, CR, FS, GS, RS, US and SPACE. *)
Definition isspace (c : codepoint) : bool :=
  if is_ascii c then in_range 9 13 c || in_range 28 32 c else uni_isspace c.

(** [\d]: category Nd. *)
Definition isdecimal (c : codepoint) : bool :=
  if is_ascii c then in_range 48 57 c else uni_isdecimal c.

(** [str.isdigit] of one character. *)
Definition isdigit_cp (c : codepoint) : bool :=
  if is_ascii c then in_range 48 57 c else uni_isdigit c.

Definition isalnum (c : codepoint) : bool :=
  if is_ascii c
  then in_range 48 57 c || in_range 65 90 c || in_range 97 122 c
  else uni_isalnum c.

(** [\w]: alphanumeric or underscore. *)
Definition isword (c : codepoint) : bool := isalnum c || (c =? chr "_").

Definition decimal_value (c : codepoint) : N :=
  if is_ascii c then c - 48 else uni_decimal_value c.

(** The value of a run of decimal digits, the only shape the [\d+]
    groups of the patterns hand to [int]. *)
Definition py_int (t : pystr) : N :=
  fold_left (fun acc c => 10 * acc + decimal_value c) t 0.

(** [c.isdigit()]: non-empty and all digits. *)
Definition isdigit (c : pystr) : bool :=
  match c with
  | [] => false
  | _ => forallb isdigit_cp c
  end.

(** Truth value of [c.strip()]: some character is not whitespace. *)
Definition strip_nonempty (c : pystr) : bool := existsb (fun x => negb (isspace x)) c.

End Tables.

(** ** Regular expressions

    The fragment of Python's [re] the patterns of the program use, with the
    matcher as a backtracking search in continuation-passing style: an
    alternation tries its branches left to right, [*], [+] and [?] are
    greedy, and the first complete match found is the one [re] reports. *)

Inductive group := Gbook | Gchap | Gv1 | Gv2.

Definition group_eqb (a b : group) : bool :=
  match a, b with
  | Gbook, Gbook | Gchap, Gchap | Gv1, Gv1 | Gv2, Gv2 => true
  | _, _ => false
  end.

Inductive regex :=
| Eps
| Cls (p : codepoint -> bool)
| Seq (a b : regex)
| Alt (a b : regex)
| Star (a : regex)
| Grp (g : group) (a : regex)
| Bol
| Eol
| WordB.

Definition Plus (a : regex) : regex := Seq a (Star a).
Definition Opt (a : regex) : regex := Alt a Eps.
Definition Chr (c : codepoint) : regex := Cls (cp_eqb c).

Fixpoint Lit (w : pystr) : regex :=
  match w with
  | [] => Eps
  | c :: w' => Seq (Chr c) (Lit w')
  end.

(** [w1|w2|...|wn]; the empty alternation matches the empty string. *)
Fixpoint AltLits (ws : list pystr) : regex :=
  match ws with
  | [] => Eps
  | [w] => Lit w
  | w :: ws' => Alt (Lit w) (AltLits ws')
  end.

(** Spans of the groups that took part in a match, most recent first. *)
Definition captures := list (group * (nat * nat)).

Fixpoint span_of (g : group) (c : captures) : option (nat * nat) :=
  match c with
  | [] => None
  | (g', sp) :: c' => if group_eqb g g' then Some sp else span_of g c'
  end.

Section Matcher.
Context {U : UnicodeData}.
Variable s : pystr.

(** [$] without MULTILINE: at the end, or before a final newline. *)
Definition at_end (i : nat) : bool :=
  (i =? length s) ||
  ((S i =? length s) &&
   match nth_error s i with Some c => cp_eqb c (chr "010") | None => false end).

Definition word_at (i : nat) : bool :=
  match nth_error s i with Some c => isword c | None => false end.

(** [\b]: exactly one side of position [i] is a word character. *)
Definition word_boundary (i : nat) : bool :=
  xorb (match i with O => false | S j => word_at j end) (word_at i).

Fixpoint run {A} (r : regex) (i : nat) (c : captures)
         (k : nat -> captures -> option A) {struct r} : option A :=
  match r with
  | Eps => k i c
  | Cls p =>
      match nth_error s i with
      | Some x => if p x then k (S i) c else None
      | None => None
      end
  | Seq a b => run a i c (fun j c' => run b j c' k)
  | Alt a b =>
      match run a i c k with
      | Some v => Some v
      | None => run b i c k
      end
  | Star a =>
      (fix loop (fuel i : nat) (c : captures) {struct fuel} : option A :=
         match fuel with
         | O => k i c
         | S fuel' =>
             match run a i c (fun j c' => if i <? j then loop fuel' j c' else None) with
             | Some v => Some v
             | None => k i c
             end
         end) (length s - i) i c
  | Grp g a => run a i c (fun j c' => k j ((g, (i, j)) :: c'))
  | Bol => if i =? 0 then k i c else None
  | Eol => if at_end i then k i c else None
  | WordB => if word_boundary i then k i c else None
  end.

(** [pattern.match(s)]: the captures of the match at position 0. *)
Definition re_match (r : regex) : option captures :=
  run r 0 [] (fun _ c => Some c).

(** [m.group(g)]: [None] when the group took no part in the match. *)
Definition group_text (m : captures) (g : group) : option pystr :=
  match span_of g m with
  | Some (a, b) => Some (slice s a b)
  | None => None
  end.

(** The matches of [pattern.finditer(s)] as spans, left to right: the
    search resumes where the previous match ended (one further after an
    empty match, which the token pattern never produces). *)
Fixpoint scan (r : regex) (fuel pos : nat) {struct fuel} : list (nat * nat) :=
  match fuel with
  | O => []
  | S fuel' =>
      if length s <? pos then []
      else match run r pos [] (fun j _ => Some j) with
           | Some e => (pos, e) :: scan r fuel' (if e <=? pos then S pos else e)
           | None => scan r fuel' (S pos)
           end
  end.

Definition finditer (r : regex) : list (nat * nat) := scan r (S (length s)) 0.

End Matcher.

(** ** Tables and patterns of the program *)

(** [abbr_to_code], in the order the dict literal lists its keys. *)
Definition abbr_to_code : list (pystr * pystr) :=
  [ (py "Mt", py "mat"); (py "Mat", py "mat");
    (py "Mk", py "mrk"); (py "Mrk", py "mrk");
    (py "Lk", py "luk"); (py "Luk", py "luk");
    (py "Jn", py "jhn"); (py "Jhn", py "jhn");
    (py "Act", py "act");
    (py "Rom", py "rom");
    (py "1Co", py "1co"); (py "2Co", py "2co");
    (py "Gal", py "gal"); (py "Eph", py "eph"); (py "Php", py "php"); (py "Col", py "col");
    (py "1Th", py "1th"); (py "2Th", py "2th");
    (py "1Ti", py "1ti"); (py "2Ti", py "2ti"); (py "Tit", py "tit"); (py "Phm", py "phm");
    (py "Heb", py "heb"); (py "Jas", py "jas");
    (py "1Pe", py "1pe"); (py "2Pe", py "2pe");
    (py "1Jn", py "1jn"); (py "2Jn", py "2jn"); (py "3Jn", py "3jn");
    (py "Jud", py "jud");
    (py "Rev", py "rev") ].

(** [d.get(key)]; a key of [None] is in no dict of strings. *)
Fixpoint dict_get (d : list (pystr * pystr)) (key : option pystr) : option pystr :=
  match key, d with
  | Some k, (k', v) :: d' => if pystr_eqb k k' then Some v else dict_get d' key
  | _, _ => None
  end.

(** [sorted(ws, key=len, reverse=True)]: longest first, and stable. *)
Fixpoint insert_by_len (w : pystr) (ws : list pystr) : list pystr :=
  match ws with
  | [] => [w]
  | y :: ws' => if length y <=? length w then w :: ws else y :: insert_by_len w ws'
  end.

Definition sorted_by_len_desc (ws : list pystr) : list pystr :=
  fold_right insert_by_len [] ws.

Definition alt : list pystr := sorted_by_len_desc (map fst abbr_to_code).

(** The class of superscript digits: U+00B9, U+00B2, U+00B3, U+2070 and
    U+2074 to U+2079. *)
Definition is_supdig (c : codepoint) : bool :=
  (cp_eqb c 185 || cp_eqb c 178 || cp_eqb c 179 || cp_eqb c 8304
   || (N.leb 8308 c && N.leb c 8313))%N.

(** [SUPDIG_RE.sub("", token)]: every run of the class is deleted. *)
Definition strip_supdig (token : pystr) : pystr :=
  filter (fun c => negb (is_supdig c)) token.

Section Patterns.
Context {U : UnicodeData}.

Definition digits : regex := Plus (Cls isdecimal).
Definition spaces : regex := Star (Cls isspace).
Definition supdigs : regex := Plus (Cls is_supdig).

Definition full_re : regex :=
  Seq Bol
 (Seq (Grp Gbook (AltLits alt))
 (Seq spaces
 (Seq (Grp Gchap digits)
 (Seq (Opt (Seq (Chr (chr ":"))
           (Seq (Grp Gv1 digits)
                (Opt (Seq (Chr (chr "-")) (Grp Gv2 digits))))))
      Eol)))).

Definition chapverse_re : regex :=
  Seq Bol
 (Seq (Grp Gchap digits)
 (Seq (Chr (chr ":"))
 (Seq (Grp Gv1 digits)
 (Seq (Opt (Seq (Chr (chr "-")) (Grp Gv2 digits)))
      Eol)))).

Definition verseonly_re : regex :=
  Seq Bol
 (Seq (Grp Gv1 digits)
 (Seq (Opt (Seq (Chr (chr "-")) (Grp Gv2 digits)))
      Eol)).

Definition token_re : regex :=
  Alt (Seq WordB (Seq (AltLits alt) (Seq WordB (Seq spaces (Seq digits
        (Seq (Opt (Seq (Chr (chr ":")) (Seq digits (Opt (Seq (Chr (chr "-")) digits)))))
             (Opt supdigs)))))))
 (Alt (Seq WordB (Seq digits (Seq (Chr (chr ":")) (Seq digits
        (Seq (Opt (Seq (Chr (chr "-")) digits))
             (Opt supdigs))))))
      (Seq WordB (Seq digits
        (Seq (Opt (Seq (Chr (chr "-")) digits))
        (Seq (Opt supdigs) WordB))))).

End Patterns.

(** ** Link emitter *)

Definition make_url (book_code : pystr) (chap : N) (v1 v2 : option N) : pystr :=
  match v1 with
  | None => py "https://ebible.gr/collate/" ++ book_code ++ py "." ++ py_str_of_int chap
  | Some a =>
      match v2 with
      | Some b =>
          py "https://ebible.gr/collate/" ++ book_code ++ py "." ++ py_str_of_int chap
            ++ py "." ++ py_str_of_int a ++ py "-" ++ py_str_of_int b
      | None =>
          py "https://ebible.gr/collate/" ++ book_code ++ py "." ++ py_str_of_int chap
            ++ py "." ++ py_str_of_int a
      end
  end.

(** ** Geometry *)

(** Modelled from the spec: [fitz.Rect] and its operator [|] belong to
    PyMuPDF, which is not part of the sources.  A rectangle is its four
    coordinates, the union of two rectangles is the componentwise minimum
    of x0/y0 and maximum of x1/y1, and a rectangle that exists counts as
    true where the program tests it. *)
Record Rect := mkRect { x0 : Q; y0 : Q; x1 : Q; y1 : Q }.

Definition rect_or (a b : Rect) : Rect :=
  mkRect (Qmin (x0 a) (x0 b)) (Qmin (y0 a) (y0 b))
         (Qmax (x1 a) (x1 b)) (Qmax (y1 a) (y1 b)).

Definition union_rect (rects : list Rect) : option Rect :=
  fold_left (fun rr r => match rr with
                         | None => Some r
                         | Some a => Some (rect_or a r)
                         end) rects None.

Definition rect_for_span_chars (char_rects : list Rect) (s e : nat) : option Rect :=
  let rects := slice char_rects s e in
  match rects with
  | [] => None
  | _ =>
      match union_rect rects with
      | None => None
      | Some rr =>
          Some (mkRect (x0 rr - (3 # 10)) (y0 rr - (3 # 10))
                       (x1 rr + (3 # 10)) (y1 rr + (3 # 10)))%Q
      end
  end.

(** ** Extraction *)

(** A character record as [line_chars_from_rawdict] builds it. *)
Record CharRec := mkChar {
  c : pystr;
  rect : Rect;
  size : Q;
  block_no : nat;
  line_no : nat
}.

(** The part of PyMuPDF's [rawdict] the program reads; a span without a
    size has size 0, a character without a glyph has the empty string. *)
Record RawChar := mkRawChar { rc_c : pystr; rc_bbox : Rect }.
Record RawSpan := mkRawSpan { sp_size : Q; sp_chars : list RawChar }.
Record RawLine := mkRawLine { ln_spans : list RawSpan }.
Record RawBlock := mkRawBlock { bl_type : nat; bl_lines : list RawLine }.
Definition Page := list RawBlock.

(** [enumerate(l)] *)
Definition enumerate {A} (l : list A) : list (nat * A) := combine (seq 0 (length l)) l.

Definition line_chars_from_rawdict (page : Page) : list (list CharRec) :=
  flat_map (fun '(b_idx, block) =>
    if negb (bl_type block =? 0) then []
    else map (fun '(l_idx, line) =>
           flat_map (fun span =>
             map (fun ch => mkChar (rc_c ch) (rc_bbox ch) (sp_size span) b_idx l_idx)
                 (sp_chars span))
             (ln_spans line))
         (enumerate (bl_lines block)))
    (enumerate page).

(** ** Line normaliser *)

Definition Qlt_bool (a b : Q) : bool := negb (Qle_bool b a).

Fixpoint insert_sorted (x : Q) (l : list Q) : list Q :=
  match l with
  | [] => [x]
  | y :: l' => if Qle_bool x y then x :: l else y :: insert_sorted x l'
  end.

(** [statistics.median] of a non-empty list: the middle element of the
    sorted data, or the mean of the two middle elements. *)
Definition median (data : list Q) : Q :=
  let d := fold_right insert_sorted [] data in
  let n := length d in
  if Nat.odd n then nth (n / 2) d 0%Q
  else ((nth (n / 2 - 1) d 0 + nth (n / 2) d 0) / 2)%Q.

(** [a in b] for strings: [a] occurs in [b] as a substring. *)
Fixpoint starts_with (a b : pystr) : bool :=
  match a, b with
  | [], _ => true
  | x :: a', y :: b' => cp_eqb x y && starts_with a' b'
  | _ :: _, [] => false
  end.

Fixpoint str_in (a b : pystr) : bool :=
  starts_with a b || match b with [] => false | _ :: b' => str_in a b' end.

Record Meta := mkMeta { base_size : Q; removed_sup_chars : nat }.

Section Normaliser.
Context {U : UnicodeData}.

(** [sizes] and [base] of [build_line_text_and_map]. *)
Definition line_sizes (chars : list CharRec) : list Q :=
  map size (filter (fun x => strip_nonempty (c x) && negb (Qeq_bool (size x) 0)) chars).

Definition line_base (chars : list CharRec) : Q :=
  match line_sizes chars with
  | [] => 0%Q
  | sizes => median sizes
  end.

(** One turn of the loop over [chars]: the accumulators are
    [line_text_parts], [char_rects] and [removed_sup]. *)
Definition normalise_step (sup_ratio base : Q)
    (acc : list pystr * list Rect * nat) (x : CharRec) : list pystr * list Rect * nat :=
  let '(line_text_parts, char_rects, removed_sup) := acc in
  if pystr_eqb (c x) [] then acc
  else if str_in (c x) (py "[]") then (line_text_parts, char_rects, S removed_sup)
  else
    let is_digit := isdigit (c x) in
    let is_small := Qlt_bool 0 base && Qlt_bool (size x) (sup_ratio * base) in
    if is_small && is_digit then (line_text_parts, char_rects, S removed_sup)
    else (line_text_parts ++ [c x], char_rects ++ [rect x], removed_sup).

Definition build_line_text_and_map (chars : list CharRec) (sup_ratio : Q)
  : pystr * list Rect * Meta :=
  let base := line_base chars in
  let '(line_text_parts, char_rects, removed_sup) :=
    fold_left (normalise_step sup_ratio base) chars ([], [], 0) in
  (concat line_text_parts, char_rects, mkMeta base removed_sup).

(** ** Inheritance gate *)

(** [j] of the source is [start_idx - 1]; a read past the end of the line
    is an [IndexError]. *)
Fixpoint inherits_context_at (line_text : pystr) (start_idx : nat) : option bool :=
  match start_idx with
  | O => Some true
  | S j =>
      match nth_error line_text j with
      | None => None
      | Some ch =>
          if isspace ch then inherits_context_at line_text j
          else Some (cp_eqb ch (chr ",") || cp_eqb ch (chr ";"))
      end
  end.

End Normaliser.

(** ** Reference resolver *)

(** The pair ([current_book], [current_chap]), and [ctx_book], [ctx_chap]. *)
Record Ctx := mkCtx { ctx_book : option pystr; ctx_chap : option N }.

(** A link handed to [page.insert_link]: its rectangle and its URI (the
    kind and the external flag are constants). *)
Record Link := mkLink { link_from : Rect; link_uri : pystr }.

(** Truth value of a string or [None], and of an int or [None]. *)
Definition truthy_str (o : option pystr) : bool :=
  match o with Some (_ :: _) => true | _ => false end.

Definition truthy_int (o : option N) : bool :=
  match o with Some (Npos _) => true | _ => false end.

Fixpoint foldM {A B} (f : A -> B -> option A) (l : list B) (a : A) : option A :=
  match l with
  | [] => Some a
  | b :: l' => a' <- f a b ;; foldM f l' a'
  end.

Section Resolver.
Context {U : UnicodeData}.

(** The most digits a string may hold for [int()] to convert it
    ([sys.int_info.default_max_str_digits]). *)
Definition int_max_str_digits : N := 4300.

Definition within_digit_limit (t : pystr) : bool :=
  (N.of_nat (length t) <=? int_max_str_digits)%N.

(** [int(t)] for [t] a run of decimal digits: a [ValueError] when the run
    is longer than the limit. *)
Definition int_of_str (t : pystr) : option N :=
  if within_digit_limit t then Some (py_int t) else None.

(** [int(g)]; [int(None)] is a [TypeError]. *)
Definition int_of_group (g : option pystr) : option N :=
  match g with
  | Some t => int_of_str t
  | None => None
  end.

(** [int(g) if g else None]: the inner [None] is Python's, the outer one
    the [ValueError] of [int]. *)
Definition int_if_group (g : option pystr) : option (option N) :=
  match g with
  | Some (d :: t) => v <- int_of_str (d :: t) ;; Some (Some v)
  | _ => Some None
  end.

(** The last of the three cases: [verseonly_re], with book, chapter and
    the positional gate tested in the order of the source's [and]. *)
Definition verse_only (line_text : pystr) (s : nat) (token_clean : pystr) (cur : Ctx)
  : option (Ctx * option pystr) :=
  match re_match token_clean verseonly_re, ctx_book cur, ctx_chap cur with
  | Some vo, Some (b :: ook), Some (Npos chap) =>
      ok <- inherits_context_at line_text s ;;
      if ok : bool then
        v1 <- int_of_group (group_text token_clean vo Gv1) ;;
        v2 <- int_if_group (group_text token_clean vo Gv2) ;;
        Some (cur, Some (make_url (b :: ook) (Npos chap) (Some v1) v2))
      else Some (cur, None)
  | _, _, _ => Some (cur, None)
  end.

(** The classification of one token: the new ([current_book],
    [current_chap]) and the [url], if any. *)
Definition resolve_token (line_text : pystr) (s : nat) (token_clean : pystr) (cur : Ctx)
  : option (Ctx * option pystr) :=
  match re_match token_clean full_re with
  | Some fm =>
      match dict_get abbr_to_code (group_text token_clean fm Gbook) with
      | Some (co :: de) =>
          let code := co :: de in
          chap <- int_of_group (group_text token_clean fm Gchap) ;;
          let v1 := group_text token_clean fm Gv1 in
          let v2 := group_text token_clean fm Gv2 in
          let cur' := mkCtx (Some code) (Some chap) in
          match v1 with
          | None => Some (cur', Some (make_url code chap None None))
          | Some v1s =>
              v1n <- int_of_str v1s ;;
              v2n <- int_if_group v2 ;;
              Some (cur', Some (make_url code chap (Some v1n) v2n))
          end
      | _ => Some (cur, None)
      end
  | None =>
      match re_match token_clean chapverse_re, ctx_book cur with
      | Some cv, Some (b :: ook) =>
          chap <- int_of_group (group_text token_clean cv Gchap) ;;
          v1 <- int_of_group (group_text token_clean cv Gv1) ;;
          v2 <- int_if_group (group_text token_clean cv Gv2) ;;
          Some (mkCtx (ctx_book cur) (Some chap), Some (make_url (b :: ook) chap (Some v1) v2))
      | _, _ => verse_only line_text s token_clean cur
      end
  end.

(** ** Traversal *)

(** Links inserted so far, each with its page number, and [total_added]. *)
Definition Emitted := (list (nat * Link) * nat)%type.

(** One turn of the loop over [token_re.finditer(line_text)]. *)
Definition token_step (pno : nat) (line_text : pystr) (char_rects : list Rect)
    (acc : Ctx * Emitted) (m : nat * nat) : option (Ctx * Emitted) :=
  let '(cur, (links, total_added)) := acc in
  let '(s, e) := m in
  let token := slice line_text s e in
  let token_clean := strip_supdig token in
  ' (cur', url) <- resolve_token line_text s token_clean cur ;;
  match url with
  | Some (u :: rl) =>
      match rect_for_span_chars char_rects s e with
      | Some rr => Some (cur', (links ++ [(pno, mkLink rr (u :: rl))], S total_added))
      | None => Some (cur', (links, total_added))
      end
  | _ => Some (cur', (links, total_added))
  end.

(** The tokens of one normalised line, from the local state [cur]. *)
Definition line_tokens (pno : nat) (line_text : pystr) (char_rects : list Rect)
    (acc : Ctx * Emitted) : option (Ctx * Emitted) :=
  foldM (token_step pno line_text char_rects) (finditer line_text token_re) acc.

(** The body of the loop over the lines of a page. *)
Definition line_step (pno : nat) (acc : Ctx * Emitted) (chars : list CharRec)
  : option (Ctx * Emitted) :=
  match chars with
  | [] => Some acc
  | _ =>
      let '(ctx, out) := acc in
      let '(line_text, char_rects, meta) := build_line_text_and_map chars (85 # 100) in
      ' (current, out') <- line_tokens pno line_text char_rects (ctx, out) ;;
      let ctx_book' := match ctx_book current with
                       | Some b => Some b
                       | None => ctx_book ctx
                       end in
      let ctx_chap' := match ctx_chap current with
                       | Some n => Some n
                       | None => ctx_chap ctx
                       end in
      Some (mkCtx ctx_book' ctx_chap', out')
  end.

Definition page_step (acc : Ctx * Emitted) (p : nat * Page) : option (Ctx * Emitted) :=
  let '(pno, page) := p in
  foldM (line_step pno) (line_chars_from_rawdict page) acc.

(** The traversal from a given context and output; [add_links] starts it
    with no context and no link. *)
Definition traverse (doc : list Page) (acc : Ctx * Emitted) : option (Ctx * Emitted) :=
  foldM page_step (enumerate doc) acc.

Definition run_links (doc : list Page) : option (Ctx * Emitted) :=
  traverse doc (mkCtx None None, ([], 0)).

(** [add_links(doc)] returns [total_added]; the links it inserted into the
    pages are [inserted_links]. *)
Definition add_links (doc : list Page) : option nat :=
  ' (_, (_, total_added)) <- run_links doc ;; Some total_added.

Definition inserted_links (doc : list Page) : option (list (nat * Link)) :=
  ' (_, (links, _)) <- run_links doc ;; Some links.

End Resolver.

(** A database that classifies nothing above ASCII, for running the
    program on ASCII lines (where no table above ASCII is consulted). *)
Definition ascii_only : UnicodeData :=
  {| uni_isspace := fun _ => false;
     uni_isdecimal := fun _ => false;
     uni_isdigit := fun _ => false;
     uni_isalnum := fun _ => false;
     uni_decimal_value := fun _ => 0%N |}.

(** ** Declarative reading of the patterns

    [lang s r i c j c'] says that [r] can match [s] from position [i] to
    position [j], taking the captures from [c] to [c']. *)

Section Language.
Context {U : UnicodeData}.
Variable s : pystr.

Inductive lang : regex -> nat -> captures -> nat -> captures -> Prop :=
| L_eps i c : lang Eps i c i c
| L_cls p i c x :
    nth_error s i = Some x -> p x = true -> lang (Cls p) i c (S i) c
| L_seq a b i c j c' k c'' :
    lang a i c j c' -> lang b j c' k c'' -> lang (Seq a b) i c k c''
| L_alt_l a b i c j c' : lang a i c j c' -> lang (Alt a b) i c j c'
| L_alt_r a b i c j c' : lang b i c j c' -> lang (Alt a b) i c j c'
| L_star_0 a i c : lang (Star a) i c i c
| L_star_S a i c j c' k c'' :
    lang a i c j c' -> i < j -> lang (Star a) j c' k c'' -> lang (Star a) i c k c''
| L_grp g a i c j c' :
    lang a i c j c' -> lang (Grp g a) i c j ((g, (i, j)) :: c')
| L_bol c : lang Bol 0 c 0 c
| L_eol i c : at_end s i = true -> lang Eol i c i c
| L_wordb i c : word_boundary s i = true -> lang WordB i c i c.

(** Every class of [r] is included in [P]. *)
Fixpoint classes_within (P : codepoint -> bool) (r : regex) : Prop :=
  match r with
  | Cls p => forall x, p x = true -> P x = true
  | Seq a b | Alt a b => classes_within P a /\ classes_within P b
  | Star a | Grp _ a => classes_within P a
  | Eps | Bol | Eol | WordB => True
  end.

Fixpoint no_group (r : regex) : Prop :=
  match r with
  | Grp _ _ => False
  | Seq a b | Alt a b => no_group a /\ no_group b
  | Star a => no_group a
  | Eps | Cls _ | Bol | Eol | WordB => True
  end.

End Language.

(** ** Predicates of the statements

    [spec_line_base], [spec_drops] and [spec_line_text] follow the
    specification's wording of the normaliser, for comparison with
    [build_line_text_and_map]. *)

Section StatementPredicates.
Context {U : UnicodeData}.

(** A record whose glyph is one of the two bracket characters. *)
Definition is_bracket (x : CharRec) : bool :=
  pystr_eqb (c x) (py "[") || pystr_eqb (c x) (py "]").

(** The baseline as the specification words it: the median over all
    characters that are not whitespace, 0 if there are none. *)
Definition spec_line_base (chars : list CharRec) : Q :=
  match map size (filter (fun x => strip_nonempty (c x)) chars) with
  | [] => 0%Q
  | sizes => median sizes
  end.

(** The specification's rule for dropping a character. *)
Definition spec_drops (base : Q) (x : CharRec) : bool :=
  (isdigit (c x) && negb (Qeq_bool base 0) && Qlt_bool (size x) ((85 # 100) * base))
  || is_bracket x.

Definition spec_line_text (chars : list CharRec) : pystr :=
  concat (map c (filter (fun x => negb (spec_drops (spec_line_base chars) x)) chars)).

(** What [build_line_text_and_map] keeps of a line. *)
Definition keeps (sup_ratio base : Q) (x : CharRec) : bool :=
  negb (pystr_eqb (c x) []
        || str_in (c x) (py "[]")
        || (isdigit (c x) && Qlt_bool 0 base && Qlt_bool (size x) (sup_ratio * base))).

(** All characters of the line before position [n] down to position [m]
    are whitespace. *)
Definition blank_between (line_text : pystr) (m n : nat) : Prop :=
  forall j ch, m <= j < n -> nth_error line_text j = Some ch -> isspace ch = true.

(** The positional gate: nothing but whitespace precedes the token on its
    line, or the nearest character before it that is not whitespace is a
    comma or a semicolon. *)
Definition gate_open (line_text : pystr) (start_idx : nat) : Prop :=
  start_idx <= length line_text /\
  (blank_between line_text 0 start_idx \/
   exists j ch, j < start_idx /\ nth_error line_text j = Some ch /\
     isspace ch = false /\ (ch = chr "," \/ ch = chr ";") /\
     blank_between line_text (S j) start_idx).

(** The characters a bare [verse[-verse2]] token can hold: decimal digits,
    the hyphen, and the newline [$] tolerates at the end. *)
Definition versechar (x : codepoint) : bool :=
  isdecimal x || cp_eqb (chr "-") x || cp_eqb x (chr "010").

(** No field that is set in [a] is unset in [b]. *)
Definition fields_kept (a b : Ctx) : Prop :=
  (ctx_book a <> None -> ctx_book b <> None) /\
  (ctx_chap a <> None -> ctx_chap b <> None).

End StatementPredicates.

(** The componentwise bounding box of a non-empty list of rectangles. *)
Definition bounding_box (r : Rect) (rs : list Rect) : Rect :=
  mkRect (fold_left Qmin (map x0 rs) (x0 r)) (fold_left Qmin (map y0 rs) (y0 r))
         (fold_left Qmax (map x1 rs) (x1 r)) (fold_left Qmax (map y1 rs) (y1 r)).

(** [out] is [box] grown by 0.3 on each of its four sides. *)
Definition expanded_by_margin (box out : Rect) : Prop :=
  x0 out = (x0 box - (3 # 10))%Q /\ y0 out = (y0 box - (3 # 10))%Q /\
  x1 out = (x1 box + (3 # 10))%Q /\ y1 out = (y1 box + (3 # 10))%Q.

(** [b] is the least rectangle containing every rectangle of [l]: each
    side bounds the list and is attained in it. *)
Definition least_enclosing (b : Rect) (l : list Rect) : Prop :=
  ((forall q, In q l -> (x0 b <= x0 q)%Q) /\ (exists q, In q l /\ x0 b = x0 q)) /\
  ((forall q, In q l -> (y0 b <= y0 q)%Q) /\ (exists q, In q l /\ y0 b = y0 q)) /\
  ((forall q, In q l -> (x1 q <= x1 b)%Q) /\ (exists q, In q l /\ x1 b = x1 q)) /\
  ((forall q, In q l -> (y1 q <= y1 b)%Q) /\ (exists q, In q l /\ y1 b = y1 q)).

(** ** Sample lines *)

(** A glyph of font size [sz] in column [k] of a line of text. *)
Definition glyph (sz : Q) (k : nat) (a : ascii) : CharRec :=
  mkChar [chr a]
         (mkRect (inject_Z (Z.of_nat (6 * k))) 100 (inject_Z (Z.of_nat (6 * k + 5))) 110)
         sz 0 0.

(** The records of a line of ASCII text set in one font size. *)
Definition line_of (sz : Q) (text : string) : list CharRec :=
  map (fun '(k, a) => glyph sz k a) (enumerate (list_ascii_of_string text)).

(** A page of one text block, every line a single span of size 10. *)
Definition page_of (lines : list string) : Page :=
  [ mkRawBlock 0
      (map (fun text =>
              mkRawLine [ mkRawSpan 10
                (map (fun x => mkRawChar (c x) (rect x)) (line_of 10 text)) ])
           lines) ].

(** The two links of the page [["Mt 1:8,"; "11,"]]. *)
Definition two_line_links : list (nat * Link) :=
  [ (0, mkLink (mkRect (-3 # 10) (997 # 10) (353 # 10) (1103 # 10))
               (py "https://ebible.gr/collate/mat.1.8"));
    (0, mkLink (mkRect (-3 # 10) (997 # 10) (113 # 10) (1103 # 10))
               (py "https://ebible.gr/collate/mat.1.11")) ].

(** A line whose first glyph comes from a span without a size. *)
Definition unsized_glyph_line : list CharRec :=
  [ glyph 0 0 "a"; glyph 10 1 "x"; glyph 10 2 "y"; glyph 8 3 "1" ].

(** The three canonical forms of the specification's link emitter. *)
Definition chapter_uri (book : pystr) (chap : N) : pystr :=
  py "https://ebible.gr/collate/" ++ book ++ py "." ++ py_str_of_int chap.

Definition verse_uri (book : pystr) (chap v1 : N) : pystr :=
  chapter_uri book chap ++ py "." ++ py_str_of_int v1.

Definition range_uri (book : pystr) (chap v1 v2 : N) : pystr :=
  verse_uri book chap v1 ++ py "-" ++ py_str_of_int v2.

(** The output of a run that started with [l0] already inserted and the
    counter at [n0]. *)
Definition prepend (l0 : list (nat * Link)) (n0 : nat) (acc : Ctx * Emitted)
  : Ctx * Emitted :=
  let '(ctx, (links, total_added)) := acc in (ctx, (l0 ++ links, n0 + total_added)).

(** [total_added] counts the links inserted so far. *)
Definition counted (acc : Ctx * Emitted) : Prop :=
  snd (snd acc) = length (fst (snd acc)).

(** Every match of [r] consumes at least one character of class [P]. *)
Fixpoint must_hit (P : codepoint -> bool) (r : regex) : Prop :=
  match r with
  | Cls p => forall x, p x = true -> P x = true
  | Seq a b => must_hit P a \/ must_hit P b
  | Alt a b => must_hit P a /\ must_hit P b
  | Grp _ a => must_hit P a
  | Eps | Star _ | Bol | Eol | WordB => False
  end.

(** Spans that are not empty, lie between [lo] and [len], and follow one
    another without overlap. *)
Fixpoint spans_ok (len lo : nat) (l : list (nat * nat)) : Prop :=
  match l with
  | [] => True
  | (s, e) :: l' => lo <= s /\ s < e /\ e <= len /\ spans_ok len e l'
  end.

(** The characters a [chapter:verse[-verse2]] token can hold. *)
Definition chapversechar {U : UnicodeData} (x : codepoint) : bool :=
  isdecimal x || cp_eqb (chr ":") x || cp_eqb (chr "-") x || cp_eqb x (chr "010").

(** A book code of the table, and a URI of one of the three forms for
    such a code. *)
Definition known_code (b : pystr) : Prop := In b (map snd abbr_to_code).

Definition known_uri (u : pystr) : Prop :=
  exists b chap v1 v2, known_code b /\ u = make_url b chap v1 v2.

(** The book of the context, when set, is a code of the table, and every
    link inserted so far has a URI for such a code. *)
Definition known_books (acc : Ctx * Emitted) : Prop :=
  (forall b, ctx_book (fst acc) = Some b -> known_code b) /\
  Forall (fun l => known_uri (link_uri (snd l))) (fst (snd acc)).

(** The records of line [l_idx] of block [b_idx], as
    [line_chars_from_rawdict] builds them from the line's spans. *)
Definition records_of (b_idx l_idx : nat) (line : RawLine) : list CharRec :=
  flat_map (fun span =>
              map (fun ch => mkChar (rc_c ch) (rc_bbox ch) (sp_size span) b_idx l_idx)
                  (sp_chars span))
           (ln_spans line).

(** A chapter is set only in a state whose book is a non-empty string. *)
Definition chapter_has_book (ctx : Ctx) : Prop :=
  ctx_chap ctx <> None -> truthy_str (ctx_book ctx) = true.

(** The verse numbers of a bare [verse[-verse2]] token, when [int]
    converts them. *)
Definition verse_numbers {U : UnicodeData} (t : pystr) : option (N * option N) :=
  vo <- re_match t verseonly_re ;;
  v1 <- int_of_group (group_text t vo Gv1) ;;
  v2 <- int_if_group (group_text t vo Gv2) ;;
  Some (v1, v2).

(** No line of the document normalises to more characters than [int]
    converts, so that no digit run of it is too long. *)
Definition short_lines {U : UnicodeData} (doc : list Page) : Prop :=
  forall page chars,
    In page doc -> In chars (line_chars_from_rawdict page) ->
    within_digit_limit (fst (fst (build_line_text_and_map chars (85 # 100)))) = true.

(** * Properties *)

Ltac inv H := inversion H; subst; clear H.

(** Inversion of the matches of patterns whose shape is known: every
    constructor but the star. *)
Ltac inv_lang :=
  repeat match goal with
  | H : lang _ (Seq _ _) _ _ _ _ |- _ => inv H
  | H : lang _ (Grp _ _) _ _ _ _ |- _ => inv H
  | H : lang _ (Cls _) _ _ _ _ |- _ => inv H
  | H : lang _ (Alt _ _) _ _ _ _ |- _ => inv H
  | H : lang _ Eps _ _ _ _ |- _ => inv H
  | H : lang _ Bol _ _ _ _ |- _ => inv H
  | H : lang _ Eol _ _ _ _ |- _ => inv H
  | H : lang _ WordB _ _ _ _ |- _ => inv H
  end.

(** ** The matcher against the declarative reading *)

Section MatcherFacts.
Context {U : UnicodeData}.
Variable s : pystr.

(** A successful run of the matcher passed its continuation a match of
    the pattern. *)
Lemma run_sound : forall (A : Type) (r : regex) (i : nat) (c : captures)
    (k : nat -> captures -> option A) (v : A),
  run s r i c k = Some v ->
  exists j c', lang s r i c j c' /\ k j c' = Some v.
Proof.
  intros A r; induction r; intros i c0 k v H; simpl in H.
  - exists i, c0; split; [constructor | assumption].
  - destruct (nth_error s i) as [x|] eqn:Hx; [|discriminate].
    destruct (p x) eqn:Hp; [|discriminate].
    exists (S i), c0; split; [econstructor; eassumption | assumption].
  - apply IHr1 in H. destruct H as (j & c' & Ha & H).
    apply IHr2 in H. destruct H as (j' & c'' & Hb & H).
    exists j', c''; split; [econstructor; eassumption | assumption].
  - destruct (run s r1 i c0 k) as [v'|] eqn:H1.
    + inv H. apply IHr1 in H1. destruct H1 as (j & c' & Ha & Hk).
      exists j, c'; split; [apply L_alt_l; assumption | assumption].
    + apply IHr2 in H. destruct H as (j & c' & Hb & Hk).
      exists j, c'; split; [apply L_alt_r; assumption | assumption].
  - revert H. generalize (length s - i) as fuel. intros fuel; revert i c0.
    induction fuel as [|fuel IH]; intros i c0 H.
    + exists i, c0; split; [constructor | assumption].
    + match type of H with
      | match ?e with _ => _ end = _ => destruct e as [v'|] eqn:H1
      end.
      * inv H. apply IHr in H1. destruct H1 as (j & c' & Ha & Hk).
        destruct (i <? j) eqn:Hij; [|discriminate].
        apply Nat.ltb_lt in Hij.
        apply IH in Hk. destruct Hk as (j' & c'' & Hs & Hk).
        exists j', c''; split; [eapply L_star_S; eassumption | assumption].
      * exists i, c0; split; [constructor | assumption].
  - apply IHr in H. destruct H as (j & c' & Ha & Hk).
    exists j, ((g, (i, j)) :: c'); split; [constructor; assumption | assumption].
  - destruct (i =? 0) eqn:Hi; [|discriminate]. apply Nat.eqb_eq in Hi; subst.
    exists 0, c0; split; [constructor | assumption].
  - destruct (at_end s i) eqn:Hi; [|discriminate].
    exists i, c0; split; [constructor; assumption | assumption].
  - destruct (word_boundary s i) eqn:Hi; [|discriminate].
    exists i, c0; split; [constructor; assumption | assumption].
Qed.

Lemma re_match_lang : forall r m,
  re_match s r = Some m -> exists j, lang s r 0 [] j m.
Proof.
  unfold re_match. intros r m H. apply run_sound in H.
  destruct H as (j & c' & Hl & Hk). inv Hk. exists j; assumption.
Qed.

(** Every character a match consumes belongs to a class of the pattern. *)
Lemma lang_consumes : forall (P : codepoint -> bool) r i c j c',
  lang s r i c j c' -> classes_within P r ->
  forall n, i <= n < j -> exists x, nth_error s n = Some x /\ P x = true.
Proof.
  intros P r i c0 j c' H.
  induction H; simpl; intros HP n Hn; try lia.
  - assert (n = i) by lia; subst. exists x; split; [assumption | apply HP; assumption].
  - destruct HP as [Ha Hb].
    destruct (Nat.lt_ge_cases n j) as [Hlt|Hge].
    + apply IHlang1; [assumption | lia].
    + apply IHlang2; [assumption | lia].
  - apply IHlang; [tauto | assumption].
  - apply IHlang; [tauto | assumption].
  - destruct (Nat.lt_ge_cases n j) as [Hlt|Hge].
    + apply IHlang1; [assumption | lia].
    + apply IHlang2; [assumption | lia].
  - apply IHlang; assumption.
Qed.

(** A pattern without groups leaves the captures as they were. *)
Lemma lang_no_group : forall r i c j c',
  lang s r i c j c' -> no_group r -> c' = c.
Proof.
  intros r i c0 j c' H.
  induction H; simpl; intros Hg; try reflexivity; try tauto.
  - destruct Hg as [Ha Hb]. rewrite (IHlang2 Hb). apply IHlang1; assumption.
  - rewrite (IHlang2 Hg). apply IHlang1; assumption.
Qed.

Lemma no_group_Lit : forall w, no_group (Lit w).
Proof. induction w; simpl; auto. Qed.

Lemma no_group_AltLits : forall ws, no_group (AltLits ws).
Proof.
  induction ws as [|w ws IH]; simpl; auto.
  destruct ws; [apply no_group_Lit | split; [apply no_group_Lit | exact IH]].
Qed.

(** A literal matches a copy of itself. *)
Lemma lang_Lit : forall w i c j c',
  lang s (Lit w) i c j c' ->
  forall n x, nth_error w n = Some x -> nth_error s (i + n) = Some x.
Proof.
  induction w as [|a w IH]; intros i c0 j c' H n x Hn.
  - destruct n; discriminate.
  - simpl in H. unfold Chr in H. inv_lang.
    destruct n as [|n]; simpl in Hn.
    + inv Hn.
      match goal with E : cp_eqb _ _ = true |- _ => apply N.eqb_eq in E; subst end.
      rewrite Nat.add_0_r. assumption.
    + replace (i + S n) with (S i + n) by lia. eapply IH; eassumption.
Qed.

Lemma lang_AltLits : forall ws i c j c',
  lang s (AltLits ws) i c j c' -> ws <> [] ->
  exists w, In w ws /\ lang s (Lit w) i c j c'.
Proof.
  induction ws as [|w ws IH]; intros i c0 j c' H Hne; [congruence|].
  destruct ws as [|w' ws].
  - exists w; split; [left; reflexivity | exact H].
  - change (AltLits (w :: w' :: ws)) with (Alt (Lit w) (AltLits (w' :: ws))) in H.
    inv H.
    + exists w; split; [left; reflexivity | assumption].
    + match goal with E : lang _ _ _ _ _ _ |- _ =>
        apply IH in E; [|discriminate]; destruct E as (w0 & Hin & Hl) end.
      exists w0; split; [right; assumption | assumption].
Qed.

End MatcherFacts.

(** ** The three token shapes *)

Section ShapeFacts.
Context {U : UnicodeData}.

Lemma no_group_digits : no_group digits.
Proof. simpl; auto. Qed.

Lemma no_group_spaces : no_group spaces.
Proof. simpl; auto. Qed.

Lemma at_end_cases : forall (t : pystr) j n x,
  at_end t j = true -> nth_error t n = Some x -> j <= n -> x = chr "010".
Proof.
  intros t j n x H Hn Hj. unfold at_end in H.
  assert (n < length t) by (apply nth_error_Some; congruence).
  apply orb_true_iff in H. destruct H as [H|H].
  - apply Nat.eqb_eq in H. lia.
  - apply andb_true_iff in H. destruct H as [H1 H2]. apply Nat.eqb_eq in H1.
    assert (n = j) by lia; subst. rewrite Hn in H2.
    apply N.eqb_eq in H2. exact H2.
Qed.

Lemma verseonly_shape : forall t vo,
  re_match t verseonly_re = Some vo ->
  (exists sp, span_of Gv1 vo = Some sp) /\
  (forall n x, nth_error t n = Some x -> versechar x = true).
Proof.
  intros t vo H. apply re_match_lang in H. destruct H as [j H].
  assert (Hcls : classes_within versechar verseonly_re).
  { unfold versechar; simpl. repeat split; intros x Hx; rewrite Hx;
      rewrite ?orb_true_r; reflexivity. }
  pose proof (lang_consumes t versechar _ _ _ _ _ H Hcls) as Hall.
  split.
  - unfold verseonly_re, Opt, Chr in H. inv_lang;
      repeat match goal with
             | E : lang _ digits _ _ _ _ |- _ =>
                 apply lang_no_group in E; [subst | exact no_group_digits]
             end; simpl; eexists; reflexivity.
  - intros n x Hn. destruct (Nat.lt_ge_cases n j) as [Hlt|Hge].
    + destruct (Hall n (conj (Nat.le_0_l n) Hlt)) as (y & Hy & HP). congruence.
    + assert (Hend : at_end t j = true).
      { clear Hall Hcls. unfold verseonly_re, Opt, Chr in H. inv_lang; assumption. }
      rewrite (at_end_cases t j n x Hend Hn Hge). unfold versechar.
      rewrite N.eqb_refl. apply orb_true_r.
Qed.

(** The shape of [full_re], for any pattern [B] of book names. *)
Lemma full_shape_of : forall (B : regex) t j fm,
  lang t
    (Seq Bol (Seq (Grp Gbook B) (Seq spaces (Seq (Grp Gchap digits)
      (Seq (Opt (Seq (Chr (chr ":")) (Seq (Grp Gv1 digits)
                  (Opt (Seq (Chr (chr "-")) (Grp Gv2 digits))))))
           Eol))))) 0 [] j fm ->
  no_group B ->
  (exists sp, span_of Gchap fm = Some sp) /\
  (exists j1, lang t B 0 [] j1 []).
Proof.
  intros B t j fm H HB. unfold Opt, Chr in H.
  inv_lang;
    repeat match goal with
           | E : lang _ digits _ _ _ _ |- _ =>
               apply lang_no_group in E; [subst | exact no_group_digits]
           | E : lang _ spaces _ _ _ _ |- _ =>
               apply lang_no_group in E; [subst | exact no_group_spaces]
           end;
    match goal with
    | E : lang _ B _ _ _ _ |- _ =>
        pose proof (lang_no_group t _ _ _ _ _ E HB); subst
    end;
    (split; [simpl; eexists; reflexivity | eexists; eassumption]).
Qed.

Lemma full_shape : forall t fm,
  re_match t full_re = Some fm ->
  (exists sp, span_of Gchap fm = Some sp) /\
  (exists w, In w alt /\ forall n x, nth_error w n = Some x -> nth_error t n = Some x).
Proof.
  intros t fm H. apply re_match_lang in H. destruct H as [j H].
  apply full_shape_of in H; [|apply no_group_AltLits].
  destruct H as [Hc [j1 Hb]]. split; [exact Hc|].
  apply lang_AltLits in Hb; [|vm_compute; discriminate].
  destruct Hb as (w & Hin & Hl). exists w; split; [exact Hin|].
  intros n x Hn. apply (lang_Lit t w _ _ _ _ Hl n x Hn).
Qed.

Lemma chapverse_shape : forall t cv,
  re_match t chapverse_re = Some cv ->
  (exists sp, span_of Gchap cv = Some sp) /\
  (exists sp, span_of Gv1 cv = Some sp) /\
  (exists n, nth_error t n = Some (chr ":")).
Proof.
  intros t cv H. apply re_match_lang in H. destruct H as [j H].
  unfold chapverse_re, Opt, Chr in H.
  inv_lang;
    repeat match goal with
           | E : lang _ digits _ _ _ _ |- _ =>
               apply lang_no_group in E; [subst | exact no_group_digits]
           | E : cp_eqb _ _ = true |- _ => apply N.eqb_eq in E; subst
           end;
    (split; [simpl; eexists; reflexivity
            | split; [simpl; eexists; reflexivity | eexists; eassumption]]).
Qed.

(** Every book abbreviation holds a character no bare verse token has. *)
Lemma alt_not_verse :
  forallb (fun w => existsb (fun x => negb (versechar x)) w) alt = true.
Proof. vm_compute. reflexivity. Qed.

(** A token of the bare-number shape has neither of the other shapes. *)
Lemma verseonly_excludes : forall t vo,
  re_match t verseonly_re = Some vo ->
  re_match t full_re = None /\ re_match t chapverse_re = None.
Proof.
  intros t vo H. apply verseonly_shape in H. destruct H as [_ Hall]. split.
  - destruct (re_match t full_re) as [fm|] eqn:Hf; [|reflexivity]. exfalso.
    apply full_shape in Hf. destruct Hf as (_ & w & Hin & Hpre).
    pose proof alt_not_verse as Hnv. rewrite forallb_forall in Hnv.
    specialize (Hnv w Hin). apply existsb_exists in Hnv.
    destruct Hnv as (x & Hx & Hneg). apply In_nth_error in Hx. destruct Hx as [n Hn].
    rewrite (Hall n x (Hpre n x Hn)) in Hneg. discriminate.
  - destruct (re_match t chapverse_re) as [cv|] eqn:Hc; [|reflexivity]. exfalso.
    apply chapverse_shape in Hc. destruct Hc as (_ & _ & n & Hn).
    apply Hall in Hn. vm_compute in Hn. discriminate.
Qed.

End ShapeFacts.

(** ** The inheritance gate *)

Section GateFacts.
Context {U : UnicodeData}.

(** Inside the line the gate never raises. *)
Lemma inherits_context_at_total : forall line_text start_idx,
  start_idx <= length line_text ->
  exists b, inherits_context_at line_text start_idx = Some b.
Proof.
  intros line_text start_idx; induction start_idx as [|j IH]; intros Hle; simpl.
  - exists true; reflexivity.
  - destruct (nth_error line_text j) as [ch|] eqn:Hj.
    + destruct (isspace ch); [apply IH; lia | eexists; reflexivity].
    + apply nth_error_None in Hj. lia.
Qed.

Lemma blank_between_extend : forall line_text m j ch,
  nth_error line_text j = Some ch -> isspace ch = true ->
  blank_between line_text m j -> blank_between line_text m (S j).
Proof.
  intros line_text m j ch Hj Hsp Hb k ch' Hk Hk'.
  destruct (Nat.eq_dec k j) as [->|Hne].
  - congruence.
  - apply (Hb k ch'); [lia | assumption].
Qed.

(** The gate lets a token through exactly when [gate_open] holds. *)
Lemma inherits_context_at_gate : forall line_text start_idx,
  inherits_context_at line_text start_idx = Some true <-> gate_open line_text start_idx.
Proof.
  intros line_text start_idx; induction start_idx as [|j IH]; simpl.
  - split; [intros _ | reflexivity]. split; [lia | left; intros k ch Hk; lia].
  - destruct (nth_error line_text j) as [ch|] eqn:Hj.
    + assert (Hlt : j < length line_text) by (apply nth_error_Some; congruence).
      destruct (isspace ch) eqn:Hsp.
      * rewrite IH. split; intros [Hle Hg]; (split; [lia|]).
        -- destruct Hg as [Hb | (j0 & ch0 & Hj0 & Hn0 & Hs0 & Hc0 & Hb)].
           ++ left. eapply blank_between_extend; eassumption.
           ++ right. exists j0, ch0. repeat split; try assumption; try lia.
              eapply blank_between_extend; eassumption.
        -- destruct Hg as [Hb | (j0 & ch0 & Hj0 & Hn0 & Hs0 & Hc0 & Hb)].
           ++ left. intros k ch' Hk. apply Hb; lia.
           ++ right. destruct (Nat.eq_dec j0 j) as [->|Hne]; [congruence|].
              exists j0, ch0. repeat split; try assumption; try lia.
              intros k ch' Hk. apply Hb; lia.
      * split.
        -- intros H. inv H. split; [lia|]. right. exists j, ch.
           repeat split; try assumption; try lia.
           ++ match goal with E : _ || _ = true |- _ =>
                apply orb_true_iff in E; destruct E as [E|E];
                apply N.eqb_eq in E; [left | right]; exact E end.
           ++ intros k ch' Hk; lia.
        -- intros [Hle Hg]. f_equal.
           destruct Hg as [Hb | (j0 & ch0 & Hj0 & Hn0 & Hs0 & Hc0 & Hb)].
           ++ rewrite (Hb j ch) in Hsp; [discriminate | lia | assumption].
           ++ destruct (Nat.eq_dec j0 j) as [->|Hne].
              ** assert (ch0 = ch) by congruence; subst.
                 destruct Hc0 as [->| ->]; reflexivity.
              ** rewrite (Hb j ch) in Hsp; [discriminate | lia | assumption].
    + split; [discriminate|]. intros [Hle _]. apply nth_error_None in Hj. lia.
Qed.

End GateFacts.

(** ** The resolver *)

Section ResolverFacts.
Context {U : UnicodeData}.

Lemma group_text_captured : forall t m g sp,
  span_of g m = Some sp -> exists w, group_text t m g = Some w.
Proof.
  intros t m g [a b] H. unfold group_text. rewrite H. eexists; reflexivity.
Qed.

Lemma slice_length_le : forall (A : Type) (l : list A) a b,
  length (slice l a b) <= length l.
Proof. intros A l a b. unfold slice. rewrite length_firstn, length_skipn. lia. Qed.

Lemma strip_supdig_length_le : forall t, length (strip_supdig t) <= length t.
Proof. intros t. apply filter_length_le. Qed.

(** A string no longer than one within the limit is within the limit. *)
Lemma within_digit_limit_le : forall t t' : pystr,
  length t' <= length t -> within_digit_limit t = true -> within_digit_limit t' = true.
Proof.
  unfold within_digit_limit. intros t t' Hle H.
  apply N.leb_le in H. apply N.leb_le. lia.
Qed.

Lemma int_of_str_within : forall t,
  within_digit_limit t = true -> int_of_str t = Some (py_int t).
Proof. intros t H. unfold int_of_str. rewrite H. reflexivity. Qed.

Lemma group_text_within : forall t m g w,
  within_digit_limit t = true -> group_text t m g = Some w ->
  within_digit_limit w = true.
Proof.
  intros t m g w Hl. unfold group_text.
  destruct (span_of g m) as [[a b]|]; [|discriminate].
  intros E; injection E as <-.
  apply (within_digit_limit_le t); [apply slice_length_le | exact Hl].
Qed.

(** [int] converts every group that a token within the limit captured. *)
Lemma int_of_group_within : forall t m g sp,
  within_digit_limit t = true -> span_of g m = Some sp ->
  exists n, int_of_group (group_text t m g) = Some n.
Proof.
  intros t m g sp Hl H. destruct (group_text_captured t m g sp H) as [w Hw].
  rewrite Hw. cbn [int_of_group].
  rewrite (int_of_str_within w (group_text_within t m g w Hl Hw)).
  eexists; reflexivity.
Qed.

Lemma int_if_group_within : forall t m g,
  within_digit_limit t = true -> exists v, int_if_group (group_text t m g) = Some v.
Proof.
  intros t m g Hl. destruct (group_text t m g) as [[|d w]|] eqn:Hw;
    try (eexists; reflexivity).
  cbn [int_if_group].
  rewrite (int_of_str_within (d :: w) (group_text_within t m g _ Hl Hw)).
  eexists; reflexivity.
Qed.

(** A token of the bare-number shape goes to the third case. *)
Lemma resolve_token_verse : forall line_text s t cur vo,
  re_match t verseonly_re = Some vo ->
  resolve_token line_text s t cur = verse_only line_text s t cur.
Proof.
  intros line_text s t cur vo H. apply verseonly_excludes in H. destruct H as [Hf Hc].
  unfold resolve_token. rewrite Hf, Hc. reflexivity.
Qed.

(** Inside the line the third case returns for a token within the limit. *)
Lemma verse_only_returns : forall line_text s t cur,
  s <= length line_text -> within_digit_limit t = true ->
  exists url, verse_only line_text s t cur = Some (cur, url).
Proof.
  intros line_text s t cur Hs Hl. unfold verse_only.
  destruct (re_match t verseonly_re) as [vo|] eqn:Hvo; [|eexists; reflexivity].
  destruct (ctx_book cur) as [[|b ook]|]; try (eexists; reflexivity).
  destruct (ctx_chap cur) as [[|chap]|]; try (eexists; reflexivity).
  destruct (inherits_context_at_total line_text s Hs) as [ok Hok]. rewrite Hok. cbn [bind].
  destruct ok; [|eexists; reflexivity].
  apply verseonly_shape in Hvo. destruct Hvo as [[sp Hsp] _].
  destruct (int_of_group_within t vo Gv1 sp Hl Hsp) as [n Hn]. rewrite Hn. cbn [bind].
  destruct (int_if_group_within t vo Gv2 Hl) as [v Hv]. rewrite Hv. cbn [bind].
  eexists; reflexivity.
Qed.

Lemma verse_only_state : forall line_text s t cur cur' url,
  verse_only line_text s t cur = Some (cur', url) -> cur' = cur.
Proof.
  intros line_text s t cur cur' url. unfold verse_only.
  destruct (re_match t verseonly_re) as [vo|]; [|intros H; inv H; reflexivity].
  destruct (ctx_book cur) as [[|b ook]|]; try (intros H; inv H; reflexivity).
  destruct (ctx_chap cur) as [[|chap]|]; try (intros H; inv H; reflexivity).
  destruct (inherits_context_at line_text s) as [[|]|]; cbn [bind]; try discriminate.
  - destruct (int_of_group (group_text t vo Gv1)); cbn [bind]; [|discriminate].
    destruct (int_if_group (group_text t vo Gv2)); cbn [bind]; [|discriminate].
    intros H; inv H; reflexivity.
  - intros H; inv H; reflexivity.
Qed.

(** Inside the line the resolver returns for every token within the
    limit. *)
Lemma resolve_token_returns : forall line_text s t cur,
  s <= length line_text -> within_digit_limit t = true ->
  exists r, resolve_token line_text s t cur = Some r.
Proof.
  intros line_text s t cur Hs Hl. unfold resolve_token.
  destruct (re_match t full_re) as [fm|] eqn:Hf.
  - apply full_shape in Hf. destruct Hf as [[sp Hsp] _].
    destruct (int_of_group_within t fm Gchap sp Hl Hsp) as [n Hn].
    destruct (dict_get abbr_to_code (group_text t fm Gbook)) as [[|co de]|];
      try (eexists; reflexivity).
    rewrite Hn. cbn [bind].
    destruct (group_text t fm Gv1) as [v1s|] eqn:Hv1; [|eexists; reflexivity].
    rewrite (int_of_str_within v1s (group_text_within t fm Gv1 v1s Hl Hv1)). cbn [bind].
    destruct (int_if_group_within t fm Gv2 Hl) as [v Hv]. rewrite Hv. cbn [bind].
    eexists; reflexivity.
  - destruct (re_match t chapverse_re) as [cv|] eqn:Hc.
    + destruct (ctx_book cur) as [[|b ook]|] eqn:Hb;
        try (destruct (verse_only_returns line_text s t cur Hs Hl) as [url Hu];
             rewrite Hu; eexists; reflexivity).
      apply chapverse_shape in Hc. destruct Hc as ([sp1 H1] & [sp2 H2] & _).
      destruct (int_of_group_within t cv Gchap sp1 Hl H1) as [n1 Hn1].
      destruct (int_of_group_within t cv Gv1 sp2 Hl H2) as [n2 Hn2].
      destruct (int_if_group_within t cv Gv2 Hl) as [v Hv].
      rewrite Hn1, Hn2, Hv. cbn [bind]. eexists; reflexivity.
    + destruct (verse_only_returns line_text s t cur Hs Hl) as [url Hu].
      rewrite Hu. eexists; reflexivity.
Qed.

(** No token clears a field of the local state. *)
Lemma resolve_token_keeps : forall line_text s t cur cur' url,
  resolve_token line_text s t cur = Some (cur', url) -> fields_kept cur cur'.
Proof.
  intros line_text s t cur cur' url. unfold resolve_token, fields_kept.
  destruct (re_match t full_re) as [fm|].
  - destruct (dict_get abbr_to_code (group_text t fm Gbook)) as [[|co de]|];
      try (intros H; inv H; tauto).
    destruct (int_of_group (group_text t fm Gchap)); cbn [bind]; [|discriminate].
    destruct (group_text t fm Gv1) as [v1s|].
    + destruct (int_of_str v1s); cbn [bind]; [|discriminate].
      destruct (int_if_group (group_text t fm Gv2)); cbn [bind]; [|discriminate].
      intros H; inv H; simpl; split; discriminate.
    + intros H; inv H; simpl; split; discriminate.
  - destruct (re_match t chapverse_re) as [cv|].
    + destruct (ctx_book cur) as [[|b ook]|] eqn:Hb;
        try (intros H; apply verse_only_state in H; subst; rewrite Hb;
             intuition congruence).
      destruct (int_of_group (group_text t cv Gchap)); cbn [bind]; [|discriminate].
      destruct (int_of_group (group_text t cv Gv1)); cbn [bind]; [|discriminate].
      destruct (int_if_group (group_text t cv Gv2)); cbn [bind]; [|discriminate].
      intros H; inv H; simpl. split; intros; discriminate.
    + intros H; apply verse_only_state in H; subst; tauto.
Qed.

End ResolverFacts.

(** ** Folds in the error monad *)

Section FoldFacts.
Variables A B : Type.
Variable f : A -> B -> option A.

Lemma foldM_app : forall l1 l2 a,
  foldM f (l1 ++ l2) a = a' <- foldM f l1 a ;; foldM f l2 a'.
Proof.
  induction l1 as [|b l1 IH]; intros l2 a; simpl; [reflexivity|].
  destruct (f a b) as [a1|]; simpl; [apply IH | reflexivity].
Qed.

(** A fold whose steps all succeed succeeds. *)
Lemma foldM_total : forall l,
  (forall a b, In b l -> exists a', f a b = Some a') ->
  forall a, exists a', foldM f l a = Some a'.
Proof.
  induction l as [|b l IH]; intros Hf a; simpl.
  - eexists; reflexivity.
  - destruct (Hf a b (or_introl eq_refl)) as [a1 H1]. rewrite H1. simpl.
    apply IH. intros a0 b0 Hin. apply Hf. right; assumption.
Qed.

(** A reflexive and transitive relation that every step respects holds
    between the ends of a fold. *)
Lemma foldM_rel : forall (R : A -> A -> Prop),
  (forall a, R a a) ->
  (forall a b c, R a b -> R b c -> R a c) ->
  (forall a b a', f a b = Some a' -> R a a') ->
  forall l a a', foldM f l a = Some a' -> R a a'.
Proof.
  intros R Hrefl Htrans Hstep. induction l as [|b l IH]; intros a a' H; simpl in H.
  - inv H. apply Hrefl.
  - destruct (f a b) as [a1|] eqn:H1; simpl in H; [|discriminate].
    eapply Htrans; [eapply Hstep; eassumption | apply IH; assumption].
Qed.

(** A change of the accumulator that commutes with every step commutes
    with the fold. *)
Lemma foldM_commute : forall (g : A -> A),
  (forall a b, f (g a) b = option_map g (f a b)) ->
  forall l a, foldM f l (g a) = option_map g (foldM f l a).
Proof.
  intros g Hg. induction l as [|b l IH]; intros a; simpl; [reflexivity|].
  rewrite Hg. destruct (f a b) as [a1|]; simpl; [apply IH | reflexivity].
Qed.

End FoldFacts.

(** ** The traversal *)

Section TraversalFacts.
Context {U : UnicodeData}.

(** [finditer] reports matches that start inside the string. *)
Lemma scan_bounds : forall (s : pystr) r fuel pos a b,
  In (a, b) (scan s r fuel pos) -> a <= length s.
Proof.
  intros s r fuel; induction fuel as [|fuel IH]; intros pos a b H; simpl in H.
  - contradiction.
  - destruct (length s <? pos) eqn:Hp; [contradiction|].
    apply Nat.ltb_ge in Hp.
    destruct (run s r pos [] (fun j _ => Some j)) as [e|].
    + destruct H as [H|H]; [inv H; assumption | eapply IH; eassumption].
    + eapply IH; eassumption.
Qed.

Lemma finditer_bounds : forall (s : pystr) r a b,
  In (a, b) (finditer s r) -> a <= length s.
Proof. intros s r a b. apply scan_bounds. Qed.

(** The stripped token is no longer than its line. *)
Lemma token_within : forall (line_text : pystr) s e,
  within_digit_limit line_text = true ->
  within_digit_limit (strip_supdig (slice line_text s e)) = true.
Proof.
  intros line_text s e. apply within_digit_limit_le.
  pose proof (strip_supdig_length_le (slice line_text s e)).
  pose proof (slice_length_le _ line_text s e). lia.
Qed.

Lemma token_step_returns : forall pno line_text char_rects acc s e,
  s <= length line_text -> within_digit_limit line_text = true ->
  exists acc', token_step pno line_text char_rects acc (s, e) = Some acc'.
Proof.
  intros pno line_text char_rects [cur [links total]] s e Hs Hl. unfold token_step.
  destruct (resolve_token_returns line_text s (strip_supdig (slice line_text s e)) cur Hs
              (token_within line_text s e Hl)) as [[cur' url] Hr].
  rewrite Hr. cbn [bind].
  destruct url as [[|u rl]|]; try (eexists; reflexivity).
  destruct (rect_for_span_chars char_rects s e); eexists; reflexivity.
Qed.

Lemma line_tokens_returns : forall pno line_text char_rects acc,
  within_digit_limit line_text = true ->
  exists acc', line_tokens pno line_text char_rects acc = Some acc'.
Proof.
  intros pno line_text char_rects acc Hl. unfold line_tokens.
  apply foldM_total. intros a [s e] Hin.
  apply token_step_returns; [eapply finditer_bounds; eassumption | exact Hl].
Qed.

Lemma line_step_returns : forall pno acc chars,
  within_digit_limit (fst (fst (build_line_text_and_map chars (85 # 100)))) = true ->
  exists acc', line_step pno acc chars = Some acc'.
Proof.
  intros pno [ctx out] chars. unfold line_step.
  destruct chars as [|x chars]; [eexists; reflexivity|].
  destruct (build_line_text_and_map (x :: chars) (85 # 100)) as [[line_text char_rects] meta].
  cbn [fst]. intros Hl.
  destruct (line_tokens_returns pno line_text char_rects (ctx, out) Hl) as [[current out'] H].
  rewrite H. cbn [bind]. eexists; reflexivity.
Qed.

(** The traversal returns on a document whose lines are all within the
    limit. *)
Lemma traverse_returns : forall doc acc,
  short_lines doc -> exists acc', traverse doc acc = Some acc'.
Proof.
  intros doc acc Hd. unfold traverse.
  apply foldM_total. intros a [pno page] Hp. unfold page_step.
  apply foldM_total. intros a' chars Hc. apply line_step_returns.
  apply (Hd page chars); [|exact Hc].
  unfold enumerate in Hp. eapply in_combine_r; eassumption.
Qed.

(** *** The context only grows *)

Lemma fields_kept_refl : forall a, fields_kept a a.
Proof. intros a; split; auto. Qed.

Lemma fields_kept_trans : forall a b d,
  fields_kept a b -> fields_kept b d -> fields_kept a d.
Proof. intros a b d [H1 H2] [H3 H4]; split; auto. Qed.

Lemma token_step_keeps : forall pno line_text char_rects acc m acc',
  token_step pno line_text char_rects acc m = Some acc' ->
  fields_kept (fst acc) (fst acc').
Proof.
  intros pno line_text char_rects [cur [links total]] [s e] acc'. unfold token_step.
  destruct (resolve_token line_text s (strip_supdig (slice line_text s e)) cur)
    as [[cur' url]|] eqn:Hr; cbn [bind]; [|discriminate].
  apply resolve_token_keeps in Hr.
  destruct url as [[|u rl]|]; try (intros H; inv H; exact Hr).
  destruct (rect_for_span_chars char_rects s e); intros H; inv H; exact Hr.
Qed.

Lemma line_tokens_keeps : forall pno line_text char_rects acc acc',
  line_tokens pno line_text char_rects acc = Some acc' ->
  fields_kept (fst acc) (fst acc').
Proof.
  intros pno line_text char_rects. unfold line_tokens.
  apply (foldM_rel _ _ _ (fun a b => fields_kept (fst a) (fst b))).
  - intros a; apply fields_kept_refl.
  - intros a b d; apply fields_kept_trans.
  - intros a m a'. apply token_step_keeps.
Qed.

(** On a line with characters the [is not None] guards change nothing:
    the line's outcome is that of its tokens. *)
Lemma line_step_written_back : forall pno ctx out x chars,
  line_step pno (ctx, out) (x :: chars) =
  line_tokens pno (fst (fst (build_line_text_and_map (x :: chars) (85 # 100))))
                  (snd (fst (build_line_text_and_map (x :: chars) (85 # 100)))) (ctx, out).
Proof.
  intros pno ctx out x chars. unfold line_step.
  destruct (build_line_text_and_map (x :: chars) (85 # 100)) as [[line_text char_rects] meta].
  cbn [fst snd].
  destruct (line_tokens pno line_text char_rects (ctx, out)) as [[current out']|] eqn:H;
    cbn [bind]; [|reflexivity].
  pose proof (line_tokens_keeps _ _ _ _ _ H) as [Hb Hc]. simpl in Hb, Hc.
  destruct current as [cb cc]; simpl in *.
  destruct cb as [b|], cc as [n|]; try reflexivity.
  - destruct (ctx_chap ctx); [exfalso; apply Hc; [discriminate | reflexivity] | reflexivity].
  - destruct (ctx_book ctx); [exfalso; apply Hb; [discriminate | reflexivity] | reflexivity].
  - destruct (ctx_book ctx); [exfalso; apply Hb; [discriminate | reflexivity]|].
    destruct (ctx_chap ctx); [exfalso; apply Hc; [discriminate | reflexivity] | reflexivity].
Qed.

Lemma line_step_keeps : forall pno acc chars acc',
  line_step pno acc chars = Some acc' -> fields_kept (fst acc) (fst acc').
Proof.
  intros pno [ctx out] chars acc' H. destruct chars as [|x chars].
  - inv H. apply fields_kept_refl.
  - rewrite line_step_written_back in H.
    apply line_tokens_keeps in H. exact H.
Qed.

Lemma page_step_keeps : forall acc p acc',
  page_step acc p = Some acc' -> fields_kept (fst acc) (fst acc').
Proof.
  intros acc [pno page] acc'. unfold page_step.
  apply (foldM_rel _ _ _ (fun a b => fields_kept (fst a) (fst b))).
  - intros a; apply fields_kept_refl.
  - intros a b d; apply fields_kept_trans.
  - intros a chars a'. apply line_step_keeps.
Qed.

Lemma traverse_keeps : forall doc acc acc',
  traverse doc acc = Some acc' -> fields_kept (fst acc) (fst acc').
Proof.
  intros doc. unfold traverse.
  apply (foldM_rel _ _ _ (fun a b => fields_kept (fst a) (fst b))).
  - intros a; apply fields_kept_refl.
  - intros a b d; apply fields_kept_trans.
  - intros a p a'. apply page_step_keeps.
Qed.

End TraversalFacts.

(** ** The line normaliser *)

Section NormaliserFacts.
Context {U : UnicodeData}.

Lemma Qlt_bool_iff : forall a b, Qlt_bool a b = true <-> (a < b)%Q.
Proof.
  intros a b. unfold Qlt_bool. rewrite negb_true_iff. split.
  - intros H. apply Qnot_le_lt. intros Hle. apply Qle_bool_iff in Hle. congruence.
  - intros H. destruct (Qle_bool b a) eqn:E; [|reflexivity].
    apply Qle_bool_iff in E. exfalso. exact (Qlt_not_le _ _ H E).
Qed.

(** [c in "[]"] holds of four strings. *)
Lemma str_in_brackets : forall w,
  str_in w (py "[]") = true <-> w = [] \/ w = py "[" \/ w = py "]" \/ w = py "[]".
Proof.
  intros w. split.
  - destruct w as [|a [|b [|d w]]]; cbn; intros H.
    + left; reflexivity.
    + rewrite !andb_true_r, orb_false_r in H. apply orb_true_iff in H.
      destruct H as [H|H]; apply N.eqb_eq in H; subst; auto.
    + rewrite !andb_true_r, !andb_false_r, !orb_false_r in H.
      apply andb_true_iff in H. destruct H as [H1 H2].
      apply N.eqb_eq in H1, H2. subst. auto.
    + rewrite !andb_false_r in H. discriminate.
  - intros [->|[->|[->| ->]]]; reflexivity.
Qed.

Lemma normalise_step_keeps : forall sup_ratio base parts rects removed x,
  normalise_step sup_ratio base (parts, rects, removed) x =
  if keeps sup_ratio base x
  then (parts ++ [c x], rects ++ [rect x], removed)
  else (parts, rects, if pystr_eqb (c x) [] then removed else S removed).
Proof.
  intros. unfold normalise_step, keeps.
  destruct (pystr_eqb (c x) []); [reflexivity|].
  destruct (str_in (c x) (py "[]")); [reflexivity|].
  destruct (isdigit (c x)), (Qlt_bool 0 base), (Qlt_bool (size x) (sup_ratio * base));
    reflexivity.
Qed.

(** The loop of the normaliser is a filter: the text and the rectangles
    of the records [keeps] accepts, in order. *)
Lemma normalise_loop : forall sup_ratio base chars parts rects removed,
  fold_left (normalise_step sup_ratio base) chars (parts, rects, removed) =
  (parts ++ map c (filter (keeps sup_ratio base) chars),
   rects ++ map rect (filter (keeps sup_ratio base) chars),
   removed + length (filter (fun x => negb (keeps sup_ratio base x)
                                      && negb (pystr_eqb (c x) [])) chars)).
Proof.
  intros sup_ratio base chars; induction chars as [|x chars IH]; intros.
  - simpl. rewrite !app_nil_r, Nat.add_0_r. reflexivity.
  - cbn [fold_left filter]. rewrite normalise_step_keeps.
    destruct (keeps sup_ratio base x); cbn [negb andb map].
    + rewrite IH, <- !app_assoc. reflexivity.
    + rewrite IH. destruct (pystr_eqb (c x) []); cbn [negb length]; f_equal; lia.
Qed.

Lemma build_line_text_and_map_filter : forall chars sup_ratio,
  build_line_text_and_map chars sup_ratio =
  (concat (map c (filter (keeps sup_ratio (line_base chars)) chars)),
   map rect (filter (keeps sup_ratio (line_base chars)) chars),
   mkMeta (line_base chars)
          (length (filter (fun x => negb (keeps sup_ratio (line_base chars) x)
                                    && negb (pystr_eqb (c x) [])) chars))).
Proof.
  intros. unfold build_line_text_and_map. rewrite normalise_loop. reflexivity.
Qed.

Lemma pystr_eqb_eq : forall a b, pystr_eqb a b = true <-> a = b.
Proof.
  induction a as [|x a IH]; destruct b as [|y b]; simpl; split; try congruence.
  - intros H. apply andb_true_iff in H. destruct H as [H1 H2].
    apply N.eqb_eq in H1. apply IH in H2. congruence.
  - intros H. inv H. unfold cp_eqb. rewrite N.eqb_refl. apply IH. reflexivity.
Qed.

(** What [keeps] rejects, in words. *)
Lemma keeps_false_iff : forall sup_ratio base x,
  keeps sup_ratio base x = false <->
  c x = [] \/ c x = py "[" \/ c x = py "]" \/ c x = py "[]" \/
  (isdigit (c x) = true /\ (0 < base)%Q /\ (size x < sup_ratio * base)%Q).
Proof.
  intros. unfold keeps. rewrite negb_false_iff, !orb_true_iff, !andb_true_iff.
  rewrite str_in_brackets, pystr_eqb_eq, !Qlt_bool_iff. tauto.
Qed.

(** A line with text has rectangles. *)
Lemma build_text_has_rects : forall chars sup_ratio,
  fst (fst (build_line_text_and_map chars sup_ratio)) <> [] ->
  snd (fst (build_line_text_and_map chars sup_ratio)) <> [].
Proof.
  intros chars sup_ratio. rewrite build_line_text_and_map_filter. simpl.
  destruct (filter (keeps sup_ratio (line_base chars)) chars); simpl; congruence.
Qed.

End NormaliserFacts.

Section NormaliserClaims.
Context {U : UnicodeData}.

Lemma bracket_not_kept : forall sup_ratio base x,
  is_bracket x = true -> keeps sup_ratio base x = false.
Proof.
  intros sup_ratio base x H. apply keeps_false_iff.
  unfold is_bracket in H. apply orb_true_iff in H.
  destruct H as [H|H]; apply pystr_eqb_eq in H; auto.
Qed.

Lemma kept_glyph_text : forall l : list CharRec,
  (forall x, In x l -> length (c x) = 1) -> length (concat (map c l)) = length l.
Proof.
  induction l as [|x l IH]; intros H; simpl; [reflexivity|].
  rewrite length_app, (H x (or_introl eq_refl)), IH; [reflexivity|].
  intros y Hy. apply H. right; assumption.
Qed.

(** C4 (amended): the baseline of a line is the median font size over its
    characters that are not whitespace and whose size is not zero (0 if
    there are none); the normaliser keeps, in order and unchanged, the
    glyph and the rectangle of every record except those with an empty
    glyph, those whose glyph is a square bracket, and the digits whose size
    is strictly below [sup_ratio] times a positive baseline. *)
Theorem C4_normaliser_rule : forall (chars : list CharRec) (sup_ratio : Q),
  let base := line_base chars in
  let out := build_line_text_and_map chars sup_ratio in
  line_sizes chars =
    map size (filter (fun x => strip_nonempty (c x) && negb (Qeq_bool (size x) 0)) chars) /\
  base = match line_sizes chars with [] => 0%Q | sizes => median sizes end /\
  base_size (snd out) = base /\
  fst (fst out) = concat (map c (filter (keeps sup_ratio base) chars)) /\
  snd (fst out) = map rect (filter (keeps sup_ratio base) chars) /\
  (forall x, keeps sup_ratio base x = false <->
     c x = [] \/ c x = py "[" \/ c x = py "]" \/ c x = py "[]" \/
     (isdigit (c x) = true /\ (0 < base)%Q /\ (size x < sup_ratio * base)%Q)).
Proof.
  intros chars sup_ratio base out. subst out.
  rewrite build_line_text_and_map_filter. simpl.
  repeat split; try reflexivity; apply keeps_false_iff.
Qed.

(** C9 (amended): on a line of single glyphs, no square bracket appears in
    the normalised text, text and rectangles stay index-aligned, and a
    bracket record is dropped whatever its font size and the baseline, so
    it adds nothing to the text or to the rectangles; the digits between
    brackets are dropped only when they are small: ["[05]"] set at the
    baseline size leaves the two characters ["05"], and leaves nothing when
    its digits are set at size 6 in a line of baseline 10. *)
Theorem C9_brackets_dropped : forall (chars : list CharRec) (sup_ratio : Q),
  Forall (fun x => length (c x) <= 1) chars ->
  let base := line_base chars in
  let out := build_line_text_and_map chars sup_ratio in
  ~ In (chr "[") (fst (fst out)) /\
  ~ In (chr "]") (fst (fst out)) /\
  length (fst (fst out)) = length (snd (fst out)) /\
  (forall x sz b, is_bracket x = true ->
     keeps sup_ratio b (mkChar (c x) (rect x) sz (block_no x) (line_no x)) = false) /\
  fst (fst out) =
    concat (map c (filter (fun x => negb (is_bracket x) && keeps sup_ratio base x) chars)) /\
  snd (fst out) =
    map rect (filter (fun x => negb (is_bracket x) && keeps sup_ratio base x) chars) /\
  fst (fst (build_line_text_and_map (line_of 10 "[05]") (85 # 100))) = py "05" /\
  fst (fst (build_line_text_and_map
              (line_of 10 "ab" ++ [glyph 10 2 "["; glyph 6 3 "0"; glyph 6 4 "5"; glyph 10 5 "]"])
              (85 # 100))) = py "ab".
Proof.
  intros chars sup_ratio Hwf base out. subst out base.
  rewrite build_line_text_and_map_filter. cbn [fst snd].
  set (base := line_base chars).
  assert (Hno : forall ch, In ch (concat (map c (filter (keeps sup_ratio base) chars))) ->
                  exists x, keeps sup_ratio base x = true /\ c x = [ch]).
  { intros ch Hin. apply in_concat in Hin. destruct Hin as (w & Hw & Hch).
    apply in_map_iff in Hw. destruct Hw as (x & Hx & Hin). subst w.
    apply filter_In in Hin. destruct Hin as [Hin Hk].
    rewrite Forall_forall in Hwf. specialize (Hwf x Hin).
    exists x; split; [exact Hk|].
    destruct (c x) as [|a [|b w]]; simpl in *; try contradiction; try lia.
    destruct Hch as [->|[]]. reflexivity. }
  assert (Hext : filter (fun x => negb (is_bracket x) && keeps sup_ratio base x) chars
                 = filter (keeps sup_ratio base) chars).
  { apply filter_ext. intros x. destruct (is_bracket x) eqn:Hb; simpl; [|reflexivity].
    symmetry. apply bracket_not_kept. exact Hb. }
  split; [|split; [|split; [|split; [|split; [|split; [|split]]]]]].
  - intros Hin. apply Hno in Hin. destruct Hin as (x & Hk & Hc).
    rewrite (proj2 (keeps_false_iff sup_ratio base x)) in Hk; [discriminate|].
    right; left. exact Hc.
  - intros Hin. apply Hno in Hin. destruct Hin as (x & Hk & Hc).
    rewrite (proj2 (keeps_false_iff sup_ratio base x)) in Hk; [discriminate|].
    right; right; left. exact Hc.
  - rewrite length_map. apply kept_glyph_text.
    intros x Hin. apply filter_In in Hin. destruct Hin as [Hin Hk].
    rewrite Forall_forall in Hwf. specialize (Hwf x Hin).
    destruct (c x) as [|a [|b w]] eqn:Hc; simpl in *; try lia.
    rewrite (proj2 (keeps_false_iff sup_ratio base x)) in Hk; [discriminate|].
    left. exact Hc.
  - intros x sz b Hb. apply bracket_not_kept. exact Hb.
  - rewrite Hext. reflexivity.
  - rewrite Hext. reflexivity.
  - vm_compute. reflexivity.
  - vm_compute. reflexivity.
Qed.

End NormaliserClaims.

(** C4, counterexample: with a first glyph from a span without a size the
    program's baseline is 10, over the three sized characters, and the
    digit of size 8 is dropped; the median over all four characters that
    are not whitespace is 9, under which the digit would stay. *)
Lemma C4_counterexample :
  Qeq_bool (line_base (U := ascii_only) unsized_glyph_line) 10 = true /\
  Qeq_bool (spec_line_base (U := ascii_only) unsized_glyph_line) 9 = true /\
  fst (fst (build_line_text_and_map (U := ascii_only) unsized_glyph_line (85 # 100)))
    = py "axy" /\
  spec_line_text (U := ascii_only) unsized_glyph_line = py "axy1".
Proof. vm_compute. repeat split. Qed.

(** C9, counterexample: ["[05]"] with all four characters at the baseline
    size leaves two characters in the normalised line, not none. *)
Lemma C9_counterexample :
  Qeq_bool (line_base (U := ascii_only) (line_of 10 "[05]")) 10 = true /\
  fst (fst (build_line_text_and_map (U := ascii_only) (line_of 10 "[05]") (85 # 100)))
    = py "05" /\
  length (fst (fst (build_line_text_and_map (U := ascii_only) (line_of 10 "[05]") (85 # 100))))
    = 2.
Proof. vm_compute. repeat split. Qed.

Lemma C9_witness :
  Forall (fun x => length (c x) <= 1) (line_of 10 "a[05]b") /\
  ~ In (chr "[") (fst (fst (build_line_text_and_map (U := ascii_only)
                              (line_of 10 "a[05]b") (85 # 100)))) /\
  fst (fst (build_line_text_and_map (U := ascii_only) (line_of 10 "a[05]b") (85 # 100)))
    = py "a05b".
Proof.
  assert (H : Forall (fun x => length (c x) <= 1) (line_of 10 "a[05]b")).
  { repeat constructor. }
  split; [exact H|]. split.
  - exact (proj1 (C9_brackets_dropped (U := ascii_only) (line_of 10 "a[05]b") (85 # 100) H)).
  - vm_compute. reflexivity.
Defined.

(** ** Geometry *)

Section GeometryFacts.

Lemma Qmin_cases : forall a b, Qmin a b = a \/ Qmin a b = b.
Proof. intros a b. unfold Qmin, GenericMinMax.gmin. destruct (a ?= b)%Q; auto. Qed.

Lemma Qmax_cases : forall a b, Qmax a b = a \/ Qmax a b = b.
Proof. intros a b. unfold Qmax, GenericMinMax.gmax. destruct (a ?= b)%Q; auto. Qed.

(** A running minimum bounds its start and every element, and is one of
    them. *)
Lemma fold_min_spec : forall l a,
  (fold_left Qmin l a <= a)%Q /\
  (forall q, In q l -> (fold_left Qmin l a <= q)%Q) /\
  (fold_left Qmin l a = a \/ In (fold_left Qmin l a) l).
Proof.
  induction l as [|y l IH]; intros a; simpl.
  - split; [apply Qle_refl | split; [contradiction | left; reflexivity]].
  - destruct (IH (Qmin a y)) as (H1 & H2 & H3). split; [|split].
    + eapply Qle_trans; [exact H1 | apply Q.le_min_l].
    + intros q [->|Hq]; [eapply Qle_trans; [exact H1 | apply Q.le_min_r] | apply H2; exact Hq].
    + destruct H3 as [H3|H3]; [|right; right; exact H3].
      rewrite H3. destruct (Qmin_cases a y) as [-> | ->]; [left | right; left]; reflexivity.
Qed.

Lemma fold_max_spec : forall l a,
  (a <= fold_left Qmax l a)%Q /\
  (forall q, In q l -> (q <= fold_left Qmax l a)%Q) /\
  (fold_left Qmax l a = a \/ In (fold_left Qmax l a) l).
Proof.
  induction l as [|y l IH]; intros a; simpl.
  - split; [apply Qle_refl | split; [contradiction | left; reflexivity]].
  - destruct (IH (Qmax a y)) as (H1 & H2 & H3). split; [|split].
    + eapply Qle_trans; [apply Q.le_max_l | exact H1].
    + intros q [->|Hq]; [eapply Qle_trans; [apply Q.le_max_r | exact H1] | apply H2; exact Hq].
    + destruct H3 as [H3|H3]; [|right; right; exact H3].
      rewrite H3. destruct (Qmax_cases a y) as [-> | ->]; [left | right; left]; reflexivity.
Qed.

(** The loop of [union_rect] computes the four running extremes. *)
Lemma union_rect_from : forall rs a,
  fold_left (fun rr r => match rr with
                         | None => Some r
                         | Some a => Some (rect_or a r)
                         end) rs (Some a)
  = Some (bounding_box a rs).
Proof.
  induction rs as [|r rs IH]; intros a; simpl.
  - destruct a; reflexivity.
  - rewrite IH. reflexivity.
Qed.

Lemma union_rect_cons : forall r rs, union_rect (r :: rs) = Some (bounding_box r rs).
Proof. intros. unfold union_rect. simpl. apply union_rect_from. Qed.

Lemma side_attained : forall (side : Rect -> Q) (v : Q) r rs,
  v = side r \/ In v (map side rs) -> exists q, In q (r :: rs) /\ v = side q.
Proof.
  intros side v r rs [H|H].
  - exists r; split; [left; reflexivity | exact H].
  - apply in_map_iff in H. destruct H as (q & Hq & Hin).
    exists q; split; [right; exact Hin | symmetry; exact Hq].
Qed.

Lemma bounding_box_least : forall r rs, least_enclosing (bounding_box r rs) (r :: rs).
Proof.
  intros r rs. unfold least_enclosing, bounding_box; simpl.
  destruct (fold_min_spec (map x0 rs) (x0 r)) as (A1 & A2 & A3).
  destruct (fold_min_spec (map y0 rs) (y0 r)) as (B1 & B2 & B3).
  destruct (fold_max_spec (map x1 rs) (x1 r)) as (C1 & C2 & C3).
  destruct (fold_max_spec (map y1 rs) (y1 r)) as (D1 & D2 & D3).
  repeat split.
  - intros q [<-|Hq]; [exact A1 | apply A2, in_map, Hq].
  - apply side_attained. exact A3.
  - intros q [<-|Hq]; [exact B1 | apply B2, in_map, Hq].
  - apply side_attained. exact B3.
  - intros q [<-|Hq]; [exact C1 | apply C2, in_map, Hq].
  - apply side_attained. exact C3.
  - intros q [<-|Hq]; [exact D1 | apply D2, in_map, Hq].
  - apply side_attained. exact D3.
Qed.

(** The slice [l[s:e]] holds the elements at the indices from [s] to
    [e - 1]. *)
Lemma in_slice : forall (A : Type) (l : list A) s e q,
  In q (slice l s e) <-> exists i, s <= i < e /\ nth_error l i = Some q.
Proof.
  intros A l s e q. unfold slice. rewrite In_iff_nth_error. split.
  - intros [n Hn]. rewrite nth_error_firstn in Hn.
    destruct (n <? e - s) eqn:Hlt; [|discriminate].
    apply Nat.ltb_lt in Hlt. rewrite nth_error_skipn in Hn.
    exists (s + n); split; [lia | exact Hn].
  - intros (i & Hi & Hq). exists (i - s). rewrite nth_error_firstn.
    replace (i - s <? e - s) with true by (symmetry; apply Nat.ltb_lt; lia).
    rewrite nth_error_skipn. replace (s + (i - s)) with i by lia. exact Hq.
Qed.

End GeometryFacts.

Section GeometryClaims.
Context {U : UnicodeData}.

(** C5: the rectangle of a token span is the componentwise bounding box
    of the rectangles at the indices [s] to [e - 1], grown by 0.3 on each
    of its four sides; an empty slice gives no rectangle, and the token
    then inserts no link: its outcome is the state the resolver leaves
    with the output as it was, or the resolver's error, and inside the line
    a token within the limit of [int] does return. *)
Theorem C5_span_rectangle : forall (char_rects : list Rect) (s e : nat),
  (forall q, In q (slice char_rects s e) <->
             exists i, s <= i < e /\ nth_error char_rects i = Some q) /\
  match slice char_rects s e with
  | [] => rect_for_span_chars char_rects s e = None
  | r :: rs =>
      exists out, rect_for_span_chars char_rects s e = Some out /\
        expanded_by_margin (bounding_box r rs) out /\
        least_enclosing (bounding_box r rs) (r :: rs)
  end /\
  (forall pno line_text cur out,
     slice char_rects s e = [] ->
     token_step pno line_text char_rects (cur, out) (s, e) =
       (r <- resolve_token line_text s (strip_supdig (slice line_text s e)) cur ;;
        Some (fst r, out)) /\
     (s <= length line_text ->
      within_digit_limit (strip_supdig (slice line_text s e)) = true ->
      exists cur', token_step pno line_text char_rects (cur, out) (s, e) = Some (cur', out))).
Proof.
  intros char_rects s e. split; [intros q; apply in_slice|]. split.
  - unfold rect_for_span_chars.
    destruct (slice char_rects s e) as [|r rs] eqn:Hs; [reflexivity|].
    rewrite union_rect_cons. eexists; split; [reflexivity|].
    split; [repeat split | apply bounding_box_least].
  - intros pno line_text cur [links total] Hnil.
    assert (He : token_step pno line_text char_rects (cur, (links, total)) (s, e) =
                 (r <- resolve_token line_text s (strip_supdig (slice line_text s e)) cur ;;
                  Some (fst r, (links, total)))).
    { unfold token_step.
      destruct (resolve_token line_text s (strip_supdig (slice line_text s e)) cur)
        as [[cur' url]|]; cbn [bind fst]; [|reflexivity].
      unfold rect_for_span_chars. rewrite Hnil.
      destruct url as [[|u rl]|]; reflexivity. }
    split; [exact He|]. intros Hs Hl.
    destruct (resolve_token_returns line_text s (strip_supdig (slice line_text s e)) cur
                Hs Hl) as [[cur' url] Hr].
    exists cur'. etransitivity; [exact He|]. rewrite Hr. reflexivity.
Qed.

End GeometryClaims.

Lemma C5_witness :
  rect_for_span_chars (map rect (line_of 10 "Mt 7:3")) 3 6
    = Some (mkRect (177 # 10) (997 # 10) (353 # 10) (1103 # 10)) /\
  0 <= length (py "Mt 7:3") /\
  slice (@nil Rect) 0 6 = [] /\
  exists cur',
    token_step (U := ascii_only) 0 (py "Mt 7:3") [] (mkCtx None None, ([], 0)) (0, 6)
      = Some (cur', ([], 0)).
Proof.
  split; [vm_compute; reflexivity|].
  split; [apply Nat.le_0_l|]. split; [reflexivity|].
  apply (proj2 (proj2 (C5_span_rectangle (U := ascii_only) [] 0 6))).
  - reflexivity.
  - apply Nat.le_0_l.
  - reflexivity.
Defined.

(** ** The link emitter and the resolver's three cases *)

Section ResolverClaims.
Context {U : UnicodeData}.

Lemma make_url_forms : forall book chap v1 v2,
  make_url book chap v1 v2 =
  match v1, v2 with
  | None, _ => chapter_uri book chap
  | Some a, None => verse_uri book chap a
  | Some a, Some b => range_uri book chap a b
  end.
Proof.
  intros book chap [a|] [b|]; unfold make_url, range_uri, verse_uri, chapter_uri;
    rewrite <- ?app_assoc; reflexivity.
Qed.

(** The URI of a resolved token is built from the book and the chapter
    the token leaves in the local state. *)
Lemma resolve_token_url : forall line_text s t cur cur' url,
  resolve_token line_text s t cur = Some (cur', Some url) ->
  exists book chap v1 v2,
    ctx_book cur' = Some book /\ ctx_chap cur' = Some chap /\
    url = make_url book chap v1 v2.
Proof.
  intros line_text s t cur cur' url. unfold resolve_token.
  assert (Hv : verse_only line_text s t cur = Some (cur', Some url) ->
               exists book chap v1 v2,
                 ctx_book cur' = Some book /\ ctx_chap cur' = Some chap /\
                 url = make_url book chap v1 v2).
  { unfold verse_only.
    destruct (re_match t verseonly_re) as [vo|]; [|discriminate].
    destruct (ctx_book cur) as [[|b ook]|] eqn:Hb; try discriminate.
    destruct (ctx_chap cur) as [[|chap]|] eqn:Hc; try discriminate.
    destruct (inherits_context_at line_text s) as [[|]|]; cbn [bind]; try discriminate.
    destruct (int_of_group (group_text t vo Gv1)) as [v1|]; cbn [bind]; [|discriminate].
    destruct (int_if_group (group_text t vo Gv2)) as [v2|]; cbn [bind]; [|discriminate].
    intros H; injection H as <- <-. rewrite Hb, Hc.
    exists (b :: ook), (N.pos chap), (Some v1), v2.
    split; [reflexivity | split; reflexivity]. }
  destruct (re_match t full_re) as [fm|].
  - destruct (dict_get abbr_to_code (group_text t fm Gbook)) as [[|co de]|];
      try discriminate.
    destruct (int_of_group (group_text t fm Gchap)) as [chap|]; cbn [bind]; [|discriminate].
    destruct (group_text t fm Gv1) as [v1s|].
    + destruct (int_of_str v1s) as [v1|]; cbn [bind]; [|discriminate].
      destruct (int_if_group (group_text t fm Gv2)) as [v2|]; cbn [bind]; [|discriminate].
      intros H; injection H as <- <-; cbn [ctx_book ctx_chap].
      exists (co :: de), chap, (Some v1), v2.
      split; [reflexivity | split; reflexivity].
    + intros H; injection H as <- <-; cbn [ctx_book ctx_chap].
      exists (co :: de), chap, None, None.
      split; [reflexivity | split; reflexivity].
  - destruct (re_match t chapverse_re) as [cv|]; [|exact Hv].
    destruct (ctx_book cur) as [[|b ook]|] eqn:Hb; try exact Hv.
    destruct (int_of_group (group_text t cv Gchap)) as [chap|]; cbn [bind]; [|discriminate].
    destruct (int_of_group (group_text t cv Gv1)) as [v1|]; cbn [bind]; [|discriminate].
    destruct (int_if_group (group_text t cv Gv2)) as [v2|]; cbn [bind]; [|discriminate].
    intros H; injection H as <- <-; cbn [ctx_book ctx_chap].
    exists (b :: ook), chap, (Some v1), v2.
    split; [reflexivity | split; reflexivity].
Qed.

(** C6: the URI is one of three canonical forms: book and chapter when
    there is no verse, with the verse appended after a dot for a single
    verse, and with the second verse after a hyphen for a range; every URI
    the resolver emits is [make_url] of the book and chapter it resolved,
    and the token ["Jn 1"] emits the chapter form for [jhn], chapter 1. *)
Theorem C6_canonical_uri : forall (book : pystr) (chap v1 v2 : N) (w : option N),
  make_url book chap None w = chapter_uri book chap /\
  make_url book chap (Some v1) None = verse_uri book chap v1 /\
  make_url book chap (Some v1) (Some v2) = range_uri book chap v1 v2 /\
  make_url (py "jhn") 21 (Some 6%N) (Some 8%N) = py "https://ebible.gr/collate/jhn.21.6-8" /\
  (forall line_text s cur,
     resolve_token line_text s (py "Jn 1") cur =
     Some (mkCtx (Some (py "jhn")) (Some 1%N), Some (py "https://ebible.gr/collate/jhn.1"))) /\
  (forall line_text s t cur cur' url,
     resolve_token line_text s t cur = Some (cur', Some url) ->
     exists b n, ctx_book cur' = Some b /\ ctx_chap cur' = Some n /\
       (url = chapter_uri b n \/
        (exists a, url = verse_uri b n a) \/
        (exists a a', url = range_uri b n a a'))).
Proof.
  intros book chap v1 v2 w.
  split; [apply make_url_forms|]. split; [apply make_url_forms|].
  split; [apply make_url_forms|]. split; [vm_compute; reflexivity|].
  split; [intros; vm_compute; reflexivity|].
  intros line_text s t cur cur' url H. apply resolve_token_url in H.
  destruct H as (b & n & a & a' & Hb & Hn & Hu). exists b, n.
  split; [exact Hb|]. split; [exact Hn|]. rewrite make_url_forms in Hu.
  destruct a as [a|]; [destruct a' as [a'|]|]; eauto.
Qed.

Lemma resolve_token_Mt_7_3 : forall line_text s cur,
  resolve_token line_text s (py "Mt 7:3") cur =
  Some (mkCtx (Some (py "mat")) (Some 7%N), Some (py "https://ebible.gr/collate/mat.7.3")).
Proof. intros; vm_compute; reflexivity. Qed.

(** C1: whatever the state, a token whose stripped text is ["Mt 7:3"] has
    the FULL shape and leaves book [mat] and chapter 7 with the URI of
    Matthew 7:3, which is inserted over the token's rectangle; a line whose
    text is that token writes book [mat] and chapter 7 back to the context
    and inserts exactly that link. *)
Theorem C1_full_token : forall (pno : nat) (line_text : pystr) (char_rects : list Rect)
    (cur : Ctx) (links : list (nat * Link)) (total : nat) (s e : nat),
  strip_supdig (slice line_text s e) = py "Mt 7:3" ->
  (exists fm, re_match (py "Mt 7:3") full_re = Some fm) /\
  resolve_token line_text s (py "Mt 7:3") cur =
    Some (mkCtx (Some (py "mat")) (Some 7%N), Some (py "https://ebible.gr/collate/mat.7.3")) /\
  token_step pno line_text char_rects (cur, (links, total)) (s, e) =
    Some (mkCtx (Some (py "mat")) (Some 7%N),
          match rect_for_span_chars char_rects s e with
          | Some rr =>
              (links ++ [(pno, mkLink rr (py "https://ebible.gr/collate/mat.7.3"))], S total)
          | None => (links, total)
          end) /\
  (forall chars,
     fst (fst (build_line_text_and_map chars (85 # 100))) = py "Mt 7:3" ->
     exists rr,
       rect_for_span_chars (snd (fst (build_line_text_and_map chars (85 # 100)))) 0 6 = Some rr /\
       line_step pno (cur, (links, total)) chars =
         Some (mkCtx (Some (py "mat")) (Some 7%N),
               (links ++ [(pno, mkLink rr (py "https://ebible.gr/collate/mat.7.3"))], S total))).
Proof.
  intros pno line_text char_rects cur links total s e Ht.
  split; [vm_compute; eexists; reflexivity|].
  split; [apply resolve_token_Mt_7_3|]. split.
  - unfold token_step. rewrite Ht, resolve_token_Mt_7_3. cbn [bind].
    change (py "https://ebible.gr/collate/mat.7.3")
      with (104%N :: tl (py "https://ebible.gr/collate/mat.7.3")).
    destruct (rect_for_span_chars char_rects s e); reflexivity.
  - intros chars Htext.
    pose proof (build_text_has_rects chars (85 # 100)) as Hrects.
    rewrite Htext in Hrects. specialize (Hrects ltac:(discriminate)).
    unfold line_step. destruct chars as [|x chars]; [vm_compute in Htext; discriminate|].
    destruct (build_line_text_and_map (x :: chars) (85 # 100)) as [[text rects] meta].
    cbn [fst snd] in *. subst text.
    destruct rects as [|r rects]; [congruence|].
    unfold line_tokens.
    replace (finditer (py "Mt 7:3") token_re) with [(0, 6)] by (vm_compute; reflexivity).
    cbn [foldM]. unfold token_step.
    replace (strip_supdig (slice (py "Mt 7:3") 0 6)) with (py "Mt 7:3")
      by (vm_compute; reflexivity).
    rewrite resolve_token_Mt_7_3. cbn [bind].
    change (py "https://ebible.gr/collate/mat.7.3")
      with (104%N :: tl (py "https://ebible.gr/collate/mat.7.3")).
    unfold rect_for_span_chars. cbn [slice Nat.sub skipn firstn].
    rewrite union_rect_cons. cbn [bind ctx_book ctx_chap]. eexists; split; reflexivity.
Qed.

End ResolverClaims.

Lemma C1_witness :
  strip_supdig (slice (py "see Mt 7:3.") 4 10) = py "Mt 7:3" /\
  token_step (U := ascii_only) 0 (py "see Mt 7:3.") (map rect (line_of 10 "see Mt 7:3."))
    (mkCtx (Some (py "jhn")) (Some 2%N), ([], 0)) (4, 10) =
  Some (mkCtx (Some (py "mat")) (Some 7%N),
        ([(0, mkLink (mkRect (237 # 10) (997 # 10) (593 # 10) (1103 # 10))
                     (py "https://ebible.gr/collate/mat.7.3"))], 1)).
Proof.
  split; [reflexivity|].
  exact (proj1 (proj2 (proj2
    (C1_full_token (U := ascii_only) 0 (py "see Mt 7:3.")
       (map rect (line_of 10 "see Mt 7:3."))
       (mkCtx (Some (py "jhn")) (Some 2%N)) [] 0 4 10 eq_refl)))).
Defined.

Lemma C6_witness :
  resolve_token (U := ascii_only) (py "Jn 1") 0 (py "Jn 1") (mkCtx None None) =
    Some (mkCtx (Some (py "jhn")) (Some 1%N), Some (py "https://ebible.gr/collate/jhn.1")) /\
  exists b n, Some (py "jhn") = Some b /\ Some 1%N = Some n /\
    (py "https://ebible.gr/collate/jhn.1" = chapter_uri b n \/
     (exists a, py "https://ebible.gr/collate/jhn.1" = verse_uri b n a) \/
     (exists a a', py "https://ebible.gr/collate/jhn.1" = range_uri b n a a')).
Proof.
  pose proof (C6_canonical_uri (U := ascii_only) (py "jhn") 1 0 0 None) as H.
  destruct H as (_ & _ & _ & _ & Hjn & Hall).
  split; [apply Hjn|].
  exact (Hall (py "Jn 1") 0 (py "Jn 1") (mkCtx None None) _ _ (Hjn (py "Jn 1") 0 (mkCtx None None))).
Defined.

(** ** Bare verse tokens *)

Section VerseOnlyClaims.
Context {U : UnicodeData}.

Lemma make_url_nonempty : forall book chap v1 v2,
  exists rl, make_url book chap v1 v2 = chr "h" :: rl.
Proof. intros book chap [a|] [b|]; eexists; reflexivity. Qed.

Lemma rect_for_span_chars_none : forall char_rects s e,
  rect_for_span_chars char_rects s e = None <-> slice char_rects s e = [].
Proof.
  intros. unfold rect_for_span_chars.
  destruct (slice char_rects s e) as [|r rs]; [tauto|].
  rewrite union_rect_cons. split; discriminate.
Qed.

(** [int] converts the verse numbers of a bare token within the limit. *)
Lemma verse_numbers_within : forall t vo,
  re_match t verseonly_re = Some vo -> within_digit_limit t = true ->
  exists v, verse_numbers t = Some v.
Proof.
  intros t vo Hvo Hl. unfold verse_numbers. rewrite Hvo. cbn [bind].
  apply verseonly_shape in Hvo. destruct Hvo as [[sp Hsp] _].
  destruct (int_of_group_within t vo Gv1 sp Hl Hsp) as [n Hn]. rewrite Hn. cbn [bind].
  destruct (int_if_group_within t vo Gv2 Hl) as [v Hv]. rewrite Hv. cbn [bind].
  eexists; reflexivity.
Qed.

(** [int] converts the verse numbers exactly when neither digit run is
    longer than its limit. *)
Lemma verse_numbers_limit : forall t vo,
  re_match t verseonly_re = Some vo ->
  (verse_numbers t <> None <->
   (forall w, group_text t vo Gv1 = Some w -> within_digit_limit w = true) /\
   (forall w, group_text t vo Gv2 = Some w -> within_digit_limit w = true)).
Proof.
  intros t vo Hvo. unfold verse_numbers. rewrite Hvo. cbn [bind].
  destruct (verseonly_shape _ _ Hvo) as [[sp Hsp] _].
  destruct (group_text_captured t vo Gv1 sp Hsp) as [w1 Hw1].
  rewrite Hw1. cbn [int_of_group]. unfold int_of_str.
  destruct (within_digit_limit w1) eqn:E1; cbn [bind].
  - destruct (group_text t vo Gv2) as [[|d w2]|] eqn:Hw2; cbn [int_if_group bind].
    + split; [intros _ | discriminate].
      split; intros w E; injection E as <-; [exact E1 | reflexivity].
    + unfold int_of_str. destruct (within_digit_limit (d :: w2)) eqn:E2; cbn [bind].
      * split; [intros _ | discriminate].
        split; intros w E; injection E as <-; assumption.
      * split; [intros H; exfalso; apply H; reflexivity|].
        intros [_ H]. rewrite (H _ eq_refl) in E2. discriminate.
    + split; [intros _ | discriminate].
      split; intros w E; [injection E as <-; exact E1 | discriminate].
  - split; [intros H; exfalso; apply H; reflexivity|].
    intros [H _]. rewrite (H _ eq_refl) in E1. discriminate.
Qed.

(** The outcomes of a token of the bare-number shape: with a book, a
    chapter and the gate open it raises when [int] does and otherwise
    keeps the state and inserts a link if its span has a rectangle;
    without one of them it does nothing. *)
Lemma verse_token_step : forall (pno : nat) (line_text : pystr)
    (char_rects : list Rect) (cur : Ctx) (links : list (nat * Link)) (total : nat)
    (s e : nat) vo,
  re_match (strip_supdig (slice line_text s e)) verseonly_re = Some vo ->
  s <= length line_text ->
  (truthy_str (ctx_book cur) = true /\ truthy_int (ctx_chap cur) = true /\
   inherits_context_at line_text s = Some true /\
   exists b n, ctx_book cur = Some b /\ ctx_chap cur = Some n /\
     token_step pno line_text char_rects (cur, (links, total)) (s, e) =
     match verse_numbers (strip_supdig (slice line_text s e)) with
     | Some (v1, v2) =>
         match rect_for_span_chars char_rects s e with
         | Some rr =>
             Some (cur, (links ++ [(pno, mkLink rr (make_url b n (Some v1) v2))], S total))
         | None => Some (cur, (links, total))
         end
     | None => None
     end)
  \/
  ((truthy_str (ctx_book cur) = false \/ truthy_int (ctx_chap cur) = false \/
    inherits_context_at line_text s = Some false) /\
   token_step pno line_text char_rects (cur, (links, total)) (s, e)
   = Some (cur, (links, total))).
Proof.
  intros pno line_text char_rects cur links total s e vo Hvo Hs.
  unfold token_step. rewrite (resolve_token_verse line_text s _ cur vo Hvo).
  unfold verse_only, verse_numbers. rewrite Hvo. cbn [bind].
  destruct (ctx_book cur) as [[|b ook]|]; try (right; split; [left|]; reflexivity).
  destruct (ctx_chap cur) as [[|chap]|]; try (right; split; [right; left|]; reflexivity).
  destruct (inherits_context_at_total line_text s Hs) as [ok Hok]. rewrite Hok. cbn [bind].
  destruct ok; [|right; split; [right; right|]; reflexivity].
  left. split; [reflexivity|]. split; [reflexivity|]. split; [reflexivity|].
  exists (b :: ook), (Npos chap). split; [reflexivity|]. split; [reflexivity|].
  destruct (int_of_group (group_text (strip_supdig (slice line_text s e)) vo Gv1))
    as [v1|]; cbn [bind]; [|reflexivity].
  destruct (int_if_group (group_text (strip_supdig (slice line_text s e)) vo Gv2))
    as [v2|]; cbn [bind]; [|reflexivity].
  destruct (make_url_nonempty (b :: ook) (Npos chap) (Some v1) v2) as [rl Hrl].
  rewrite Hrl, <- Hrl.
  destruct (rect_for_span_chars char_rects s e); reflexivity.
Qed.

(** C2 (amended): a token of the bare-number shape that returns never
    changes the state and inserts at most one link; it inserts one exactly
    when the current book is a non-empty string, the current chapter is a
    non-zero number, the gate is open (only whitespace precedes the token
    on its line, or the nearest character before it that is not whitespace
    is a comma or a semicolon), the token's span has a rectangle and [int]
    converts the verse numbers, that is, neither is longer than its limit;
    it raises exactly when book, chapter and gate let it through and [int]
    does not convert them, which cannot happen to a token within the
    limit. *)
Theorem C2_verse_only_gate : forall (pno : nat) (line_text : pystr) (char_rects : list Rect)
    (cur : Ctx) (links : list (nat * Link)) (total : nat) (s e : nat),
  re_match (strip_supdig (slice line_text s e)) verseonly_re <> None ->
  s <= length line_text ->
  (forall cur' out',
     token_step pno line_text char_rects (cur, (links, total)) (s, e) = Some (cur', out') ->
     cur' = cur /\
     (out' = (links, total) \/
      exists rr b n v1 v2,
        rect_for_span_chars char_rects s e = Some rr /\
        ctx_book cur = Some b /\ ctx_chap cur = Some n /\
        verse_numbers (strip_supdig (slice line_text s e)) = Some (v1, v2) /\
        out' = (links ++ [(pno, mkLink rr (make_url b n (Some v1) v2))], S total))) /\
  ((exists l, token_step pno line_text char_rects (cur, (links, total)) (s, e)
              = Some (cur, (links ++ [(pno, l)], S total)))
   <-> truthy_str (ctx_book cur) = true /\ truthy_int (ctx_chap cur) = true /\
       gate_open line_text s /\ slice char_rects s e <> [] /\
       verse_numbers (strip_supdig (slice line_text s e)) <> None) /\
  (token_step pno line_text char_rects (cur, (links, total)) (s, e) = None
   <-> truthy_str (ctx_book cur) = true /\ truthy_int (ctx_chap cur) = true /\
       gate_open line_text s /\
       verse_numbers (strip_supdig (slice line_text s e)) = None) /\
  (within_digit_limit (strip_supdig (slice line_text s e)) = true ->
   verse_numbers (strip_supdig (slice line_text s e)) <> None /\
   exists out',
     token_step pno line_text char_rects (cur, (links, total)) (s, e) = Some (cur, out')) /\
  (forall vo,
     re_match (strip_supdig (slice line_text s e)) verseonly_re = Some vo ->
     (verse_numbers (strip_supdig (slice line_text s e)) <> None <->
      (forall w, group_text (strip_supdig (slice line_text s e)) vo Gv1 = Some w ->
                 within_digit_limit w = true) /\
      (forall w, group_text (strip_supdig (slice line_text s e)) vo Gv2 = Some w ->
                 within_digit_limit w = true))).
Proof.
  intros pno line_text char_rects cur links total s e Hm Hs.
  assert (Hlim : forall vo,
            re_match (strip_supdig (slice line_text s e)) verseonly_re = Some vo ->
            (verse_numbers (strip_supdig (slice line_text s e)) <> None <->
             (forall w, group_text (strip_supdig (slice line_text s e)) vo Gv1 = Some w ->
                        within_digit_limit w = true) /\
             (forall w, group_text (strip_supdig (slice line_text s e)) vo Gv2 = Some w ->
                        within_digit_limit w = true)))
    by (intros vo; apply verse_numbers_limit).
  cut ((forall cur' out',
     token_step pno line_text char_rects (cur, (links, total)) (s, e) = Some (cur', out') ->
     cur' = cur /\
     (out' = (links, total) \/
      exists rr b n v1 v2,
        rect_for_span_chars char_rects s e = Some rr /\
        ctx_book cur = Some b /\ ctx_chap cur = Some n /\
        verse_numbers (strip_supdig (slice line_text s e)) = Some (v1, v2) /\
        out' = (links ++ [(pno, mkLink rr (make_url b n (Some v1) v2))], S total))) /\
  ((exists l, token_step pno line_text char_rects (cur, (links, total)) (s, e)
              = Some (cur, (links ++ [(pno, l)], S total)))
   <-> truthy_str (ctx_book cur) = true /\ truthy_int (ctx_chap cur) = true /\
       gate_open line_text s /\ slice char_rects s e <> [] /\
       verse_numbers (strip_supdig (slice line_text s e)) <> None) /\
  (token_step pno line_text char_rects (cur, (links, total)) (s, e) = None
   <-> truthy_str (ctx_book cur) = true /\ truthy_int (ctx_chap cur) = true /\
       gate_open line_text s /\
       verse_numbers (strip_supdig (slice line_text s e)) = None) /\
  (within_digit_limit (strip_supdig (slice line_text s e)) = true ->
   verse_numbers (strip_supdig (slice line_text s e)) <> None /\
   exists out',
     token_step pno line_text char_rects (cur, (links, total)) (s, e) = Some (cur, out'))).
  { intros (H1 & H2 & H3 & H4). repeat (split; [assumption|]). exact Hlim. }
  clear Hlim.
  destruct (re_match (strip_supdig (slice line_text s e)) verseonly_re) as [vo|] eqn:Hvo;
    [clear Hm | congruence].
  pose proof (verse_numbers_within _ vo Hvo) as Hw.
  destruct (verse_token_step pno line_text char_rects cur links total s e vo Hvo Hs)
    as [(Hb & Hc & Hg & b & n & Eb & En & Hv) | [Hno Hv]]; rewrite Hv; clear Hv.
  - apply inherits_context_at_gate in Hg.
    destruct (verse_numbers (strip_supdig (slice line_text s e))) as [[v1 v2]|] eqn:Hn.
    + destruct (rect_for_span_chars char_rects s e) as [rr|] eqn:Hr.
      * split; [|split; [|split]].
        -- intros cur' out' H. injection H as <- <-. split; [reflexivity|].
           right. exists rr, b, n, v1, v2.
           split; [reflexivity|]. split; [exact Eb|]. split; [exact En|].
           split; reflexivity.
        -- split; [intros _ | intros _; eexists; reflexivity].
           split; [exact Hb|]. split; [exact Hc|]. split; [exact Hg|].
           split; [|discriminate].
           intros Hnil. apply rect_for_span_chars_none in Hnil. congruence.
        -- split; [discriminate | intros (_ & _ & _ & H); discriminate].
        -- intros _. split; [discriminate | eexists; reflexivity].
      * split; [|split; [|split]].
        -- intros cur' out' H. injection H as <- <-. split; [reflexivity | left; reflexivity].
        -- split.
           ++ intros [l H]. inv H. lia.
           ++ intros (_ & _ & _ & Hne & _). apply rect_for_span_chars_none in Hr.
              contradiction.
        -- split; [discriminate | intros (_ & _ & _ & H); discriminate].
        -- intros _. split; [discriminate | eexists; reflexivity].
    + split; [|split; [|split]].
      * intros cur' out' H. discriminate.
      * split; [intros [l H]; discriminate | intros (_ & _ & _ & _ & H); congruence].
      * split; [intros _ | reflexivity].
        split; [exact Hb|]. split; [exact Hc|]. split; [exact Hg | reflexivity].
      * intros Hl. destruct (Hw Hl) as [v H]. discriminate.
  - assert (Hclosed : ~ (truthy_str (ctx_book cur) = true /\
                         truthy_int (ctx_chap cur) = true /\ gate_open line_text s)).
    { intros (Hb & Hc & Hg). apply inherits_context_at_gate in Hg.
      destruct Hno as [H|[H|H]]; congruence. }
    split; [|split; [|split]].
    + intros cur' out' H. injection H as <- <-. split; [reflexivity | left; reflexivity].
    + split.
      * intros [l H]. inv H. lia.
      * intros (Hb & Hc & Hg & _). exfalso. apply Hclosed. tauto.
    + split; [discriminate|]. intros (Hb & Hc & Hg & _). exfalso. apply Hclosed. tauto.
    + intros Hl. split; [|eexists; reflexivity].
      destruct (Hw Hl) as [v H]. congruence.
Qed.

(** C8: a token of the bare-number shape leaves the current book and the
    current chapter as they were, whether or not it inserts a link: every
    outcome of the resolver and of the step has the state it started from,
    and inside the line a token within the limit of [int] has one. *)
Theorem C8_verse_only_frame : forall (pno : nat) (line_text : pystr) (char_rects : list Rect)
    (cur : Ctx) (out : Emitted) (s e : nat),
  re_match (strip_supdig (slice line_text s e)) verseonly_re <> None ->
  (forall cur' url,
     resolve_token line_text s (strip_supdig (slice line_text s e)) cur = Some (cur', url) ->
     cur' = cur) /\
  (forall cur' out',
     token_step pno line_text char_rects (cur, out) (s, e) = Some (cur', out') ->
     cur' = cur) /\
  (s <= length line_text ->
   within_digit_limit (strip_supdig (slice line_text s e)) = true ->
   exists url out',
     resolve_token line_text s (strip_supdig (slice line_text s e)) cur = Some (cur, url) /\
     token_step pno line_text char_rects (cur, out) (s, e) = Some (cur, out')).
Proof.
  intros pno line_text char_rects cur [links total] s e Hm.
  destruct (re_match (strip_supdig (slice line_text s e)) verseonly_re) as [vo|] eqn:Hvo;
    [clear Hm | congruence].
  assert (Hstate : forall cur' url,
            resolve_token line_text s (strip_supdig (slice line_text s e)) cur
            = Some (cur', url) -> cur' = cur).
  { intros cur' url. rewrite (resolve_token_verse line_text s _ cur vo Hvo).
    apply verse_only_state. }
  split; [exact Hstate|]. split.
  - intros cur' out'. unfold token_step.
    destruct (resolve_token line_text s (strip_supdig (slice line_text s e)) cur)
      as [[cur1 url]|] eqn:Hr; cbn [bind]; [|discriminate].
    pose proof (Hstate cur1 url eq_refl). subst cur1.
    destruct url as [[|u rl]|]; try (intros H; injection H as <- _; reflexivity).
    destruct (rect_for_span_chars char_rects s e); intros H; injection H as <- _;
      reflexivity.
  - intros Hs Hl.
    destruct (verse_only_returns line_text s (strip_supdig (slice line_text s e)) cur Hs Hl)
      as [url Hu].
    rewrite <- (resolve_token_verse line_text s _ cur vo Hvo) in Hu.
    exists url. unfold token_step. rewrite Hu. cbn [bind].
    destruct url as [[|u rl]|]; try (eexists; split; reflexivity).
    destruct (rect_for_span_chars char_rects s e); eexists; split; reflexivity.
Qed.

End VerseOnlyClaims.

Section ChapterZero.
Context {U : UnicodeData}.

(** C10: the token ["Mt 0"] sets the chapter to 0, a line made of it
    writes that chapter to the context, and while the chapter is 0 a token
    of the bare-number shape inserts no link and changes nothing, wherever
    it stands on its line and whatever the book. *)
Theorem C10_chapter_zero : forall (pno : nat) (line_text : pystr) (char_rects : list Rect)
    (book : option pystr) (out : Emitted) (s e : nat),
  re_match (strip_supdig (slice line_text s e)) verseonly_re <> None ->
  (forall line s' cur,
     resolve_token line s' (py "Mt 0") cur =
     Some (mkCtx (Some (py "mat")) (Some 0%N), Some (py "https://ebible.gr/collate/mat.0"))) /\
  (forall ctx, exists out',
     line_step pno (ctx, out) (line_of 10 "Mt 0")
       = Some (mkCtx (Some (py "mat")) (Some 0%N), out')) /\
  truthy_int (Some 0%N) = false /\
  resolve_token line_text s (strip_supdig (slice line_text s e)) (mkCtx book (Some 0%N))
    = Some (mkCtx book (Some 0%N), None) /\
  token_step pno line_text char_rects (mkCtx book (Some 0%N), out) (s, e)
    = Some (mkCtx book (Some 0%N), out).
Proof.
  intros pno line_text char_rects book [links total] s e Hm.
  destruct (re_match (strip_supdig (slice line_text s e)) verseonly_re) as [vo|] eqn:Hvo;
    [clear Hm | congruence].
  assert (Hr : resolve_token line_text s (strip_supdig (slice line_text s e))
                 (mkCtx book (Some 0%N)) = Some (mkCtx book (Some 0%N), None)).
  { rewrite (resolve_token_verse line_text s _ _ vo Hvo).
    unfold verse_only. rewrite Hvo. cbn [ctx_book ctx_chap].
    destruct book as [[|b ook]|]; reflexivity. }
  split; [intros; vm_compute; reflexivity|].
  split; [intros [cb cc]; vm_compute; eexists; reflexivity|].
  split; [reflexivity|]. split; [exact Hr|].
  unfold token_step. rewrite Hr. reflexivity.
Qed.

End ChapterZero.

Lemma C10_witness :
  re_match (U := ascii_only) (strip_supdig (slice (py "11, 12") 0 2)) (verseonly_re (U := ascii_only)) <> None /\
  token_step (U := ascii_only) 0 (py "11, 12") (map rect (line_of 10 "11, 12"))
    (mkCtx (Some (py "mat")) (Some 0%N), ([], 0)) (0, 2)
  = Some (mkCtx (Some (py "mat")) (Some 0%N), ([], 0)) /\
  inserted_links (U := ascii_only) [page_of ["Mt 0"%string; "11, 12"%string]]
  = Some [(0, mkLink (mkRect (-3 # 10) (997 # 10) (233 # 10) (1103 # 10))
                     (py "https://ebible.gr/collate/mat.0"))].
Proof.
  assert (H : re_match (U := ascii_only) (strip_supdig (slice (py "11, 12") 0 2)) (verseonly_re (U := ascii_only))
              <> None) by (vm_compute; discriminate).
  split; [exact H|]. split.
  - exact (proj2 (proj2 (proj2 (proj2
      (C10_chapter_zero (U := ascii_only) 0 (py "11, 12") (map rect (line_of 10 "11, 12"))
         (Some (py "mat")) ([], 0) 0 2 H))))).
  - vm_compute. reflexivity.
Defined.

(** C2, counterexample: with book [mat] and chapter 0 both set, the token
    ["11"] at the very beginning of its line inserts no link; and with
    chapter 1 the token ["11"] after two blanks, neither at the very
    beginning nor after any character that is not whitespace, inserts
    one. *)
Lemma C2_counterexample :
  finditer (U := ascii_only) (py "11") (token_re (U := ascii_only)) = [(0, 2)] /\
  re_match (U := ascii_only) (strip_supdig (slice (py "11") 0 2)) (verseonly_re (U := ascii_only))
    = Some [(Gv1, (0, 2))] /\
  token_step (U := ascii_only) 0 (py "11") (map rect (line_of 10 "11"))
    (mkCtx (Some (py "mat")) (Some 0%N), ([], 0)) (0, 2)
  = Some (mkCtx (Some (py "mat")) (Some 0%N), ([], 0)) /\
  finditer (U := ascii_only) (py "  11") (token_re (U := ascii_only)) = [(2, 4)] /\
  token_step (U := ascii_only) 0 (py "  11") (map rect (line_of 10 "  11"))
    (mkCtx (Some (py "mat")) (Some 1%N), ([], 0)) (2, 4)
  = Some (mkCtx (Some (py "mat")) (Some 1%N),
          ([(0, mkLink (mkRect (117 # 10) (997 # 10) (233 # 10) (1103 # 10))
                       (py "https://ebible.gr/collate/mat.1.11"))], 1)).
Proof. vm_compute. repeat split. Qed.

Lemma C2_witness :
  re_match (U := ascii_only) (strip_supdig (slice (py "see page 11 for details") 9 11))
    (verseonly_re (U := ascii_only)) <> None /\
  9 <= length (py "see page 11 for details") /\
  ((exists l,
      token_step (U := ascii_only) 0 (py "see page 11 for details")
        (map rect (line_of 10 "see page 11 for details"))
        (mkCtx (Some (py "mat")) (Some 1%N), ([], 0)) (9, 11)
      = Some (mkCtx (Some (py "mat")) (Some 1%N), ([] ++ [(0, l)], 1)))
   <-> truthy_str (Some (py "mat")) = true /\ truthy_int (Some 1%N) = true /\
       gate_open (U := ascii_only) (py "see page 11 for details") 9 /\
       slice (map rect (line_of 10 "see page 11 for details")) 9 11 <> [] /\
       verse_numbers (U := ascii_only)
         (strip_supdig (slice (py "see page 11 for details") 9 11)) <> None) /\
  verse_numbers (U := ascii_only) (strip_supdig (slice (py "see page 11 for details") 9 11))
  = Some (11%N, None) /\
  token_step (U := ascii_only) 0 (py "see page 11 for details")
    (map rect (line_of 10 "see page 11 for details"))
    (mkCtx (Some (py "mat")) (Some 1%N), ([], 0)) (9, 11)
  = Some (mkCtx (Some (py "mat")) (Some 1%N), ([], 0)).
Proof.
  assert (H1 : re_match (U := ascii_only)
                 (strip_supdig (slice (py "see page 11 for details") 9 11)) (verseonly_re (U := ascii_only))
               <> None) by (vm_compute; discriminate).
  assert (H2 : 9 <= length (py "see page 11 for details")) by (vm_compute; lia).
  split; [exact H1|]. split; [exact H2|]. split.
  - exact (proj1 (proj2 (C2_verse_only_gate (U := ascii_only) 0 (py "see page 11 for details")
                    (map rect (line_of 10 "see page 11 for details"))
                    (mkCtx (Some (py "mat")) (Some 1%N)) [] 0 9 11 H1 H2))).
  - split; vm_compute; reflexivity.
Defined.

Lemma C8_witness :
  re_match (U := ascii_only) (strip_supdig (slice (py "Mt 1:8, 11") 8 10)) (verseonly_re (U := ascii_only))
    <> None /\
  8 <= length (py "Mt 1:8, 11") /\
  within_digit_limit (strip_supdig (slice (py "Mt 1:8, 11") 8 10)) = true /\
  exists url out',
    resolve_token (U := ascii_only) (py "Mt 1:8, 11") 8
      (strip_supdig (slice (py "Mt 1:8, 11") 8 10)) (mkCtx (Some (py "mat")) (Some 1%N))
    = Some (mkCtx (Some (py "mat")) (Some 1%N), url) /\
    token_step (U := ascii_only) 0 (py "Mt 1:8, 11") (map rect (line_of 10 "Mt 1:8, 11"))
      (mkCtx (Some (py "mat")) (Some 1%N), ([], 0)) (8, 10)
    = Some (mkCtx (Some (py "mat")) (Some 1%N), out').
Proof.
  assert (H1 : re_match (U := ascii_only) (strip_supdig (slice (py "Mt 1:8, 11") 8 10))
                 (verseonly_re (U := ascii_only)) <> None) by (vm_compute; discriminate).
  assert (H2 : 8 <= length (py "Mt 1:8, 11")) by (vm_compute; lia).
  assert (H3 : within_digit_limit (strip_supdig (slice (py "Mt 1:8, 11") 8 10)) = true)
    by (vm_compute; reflexivity).
  split; [exact H1|]. split; [exact H2|]. split; [exact H3|].
  exact (proj2 (proj2 (C8_verse_only_frame (U := ascii_only) 0 (py "Mt 1:8, 11")
                  (map rect (line_of 10 "Mt 1:8, 11"))
                  (mkCtx (Some (py "mat")) (Some 1%N)) ([], 0) 8 10 H1)) H2 H3).
Defined.

(** ** The context across lines, and the output *)

Section ContextClaims.
Context {U : UnicodeData}.

(** The links already inserted and the counter do not influence what a
    step does: it appends to the former and adds to the latter. *)
Lemma token_step_prepend : forall pno line_text char_rects l0 n0 acc m,
  token_step pno line_text char_rects (prepend l0 n0 acc) m =
  option_map (prepend l0 n0) (token_step pno line_text char_rects acc m).
Proof.
  intros pno line_text char_rects l0 n0 [cur [links total]] [s e].
  unfold token_step, prepend.
  destruct (resolve_token line_text s (strip_supdig (slice line_text s e)) cur)
    as [[cur' url]|]; cbn [bind option_map]; [|reflexivity].
  destruct url as [[|u rl]|]; try reflexivity.
  destruct (rect_for_span_chars char_rects s e); cbn [option_map]; [|reflexivity].
  rewrite app_assoc, Nat.add_succ_r. reflexivity.
Qed.

Lemma line_step_prepend : forall pno l0 n0 acc chars,
  line_step pno (prepend l0 n0 acc) chars = option_map (prepend l0 n0) (line_step pno acc chars).
Proof.
  intros pno l0 n0 [ctx [links total]] chars. unfold line_step.
  destruct chars as [|x chars]; [reflexivity|].
  cbn [prepend].
  destruct (build_line_text_and_map (x :: chars) (85 # 100)) as [[line_text char_rects] meta].
  unfold line_tokens.
  change (ctx, (l0 ++ links, n0 + total)) with (prepend l0 n0 (ctx, (links, total))).
  rewrite (foldM_commute _ _ _ (prepend l0 n0) (token_step_prepend pno line_text char_rects l0 n0)).
  unfold Emitted.
  match goal with
  | |- context [@foldM ?A ?B ?f ?l ?a] =>
      destruct (@foldM A B f l a) as [[current [links' total']]|]
  end; reflexivity.
Qed.

Lemma traverse_prepend : forall doc l0 n0 acc,
  traverse doc (prepend l0 n0 acc) = option_map (prepend l0 n0) (traverse doc acc).
Proof.
  intros doc l0 n0. unfold traverse. apply foldM_commute.
  intros a [pno page]. unfold page_step. apply foldM_commute.
  intros a' chars. apply line_step_prepend.
Qed.

Lemma token_step_counted : forall pno line_text char_rects acc m acc',
  token_step pno line_text char_rects acc m = Some acc' -> counted acc -> counted acc'.
Proof.
  intros pno line_text char_rects [cur [links total]] [s e] acc'.
  unfold token_step, counted.
  destruct (resolve_token line_text s (strip_supdig (slice line_text s e)) cur)
    as [[cur' url]|]; cbn [bind]; [|discriminate].
  destruct url as [[|u rl]|]; try (intros E; injection E as <-; simpl; auto).
  destruct (rect_for_span_chars char_rects s e); intros E; injection E as <-; simpl; auto.
  intros ->. rewrite length_app. simpl. lia.
Qed.

Lemma line_step_counted : forall pno acc chars acc',
  line_step pno acc chars = Some acc' -> counted acc -> counted acc'.
Proof.
  intros pno [ctx out] chars acc'. unfold line_step.
  destruct chars as [|x chars]; [intros E; injection E as <-; auto|].
  destruct (build_line_text_and_map (x :: chars) (85 # 100)) as [[line_text char_rects] meta].
  destruct (line_tokens pno line_text char_rects (ctx, out)) as [[current out']|] eqn:Ht;
    cbn [bind]; [|discriminate].
  intros E; injection E as <-. intros Hc.
  assert (Hc' : counted (current, out')).
  { revert Ht Hc. unfold line_tokens.
    apply (foldM_rel _ _ _ (fun a b => counted a -> counted b)); auto.
    intros a m a'. apply token_step_counted. }
  exact Hc'.
Qed.

Lemma traverse_counted : forall doc acc acc',
  traverse doc acc = Some acc' -> counted acc -> counted acc'.
Proof.
  intros doc. unfold traverse.
  apply (foldM_rel _ _ _ (fun a b => counted a -> counted b)); auto.
  intros a [pno page] a'. unfold page_step.
  apply (foldM_rel _ _ _ (fun a b => counted a -> counted b)); auto.
  intros a0 chars a0'. apply line_step_counted.
Qed.

(** The outcome of a traversal from any output is that of the traversal
    from the empty one, with the links appended and the counter added. *)
Lemma traverse_from : forall doc ctx l0 n0,
  traverse doc (ctx, (l0, n0)) = option_map (prepend l0 n0) (traverse doc (ctx, ([], 0))).
Proof.
  intros doc ctx l0 n0.
  pose proof (traverse_prepend doc l0 n0 (ctx, ([], 0))) as Hp.
  cbn [prepend] in Hp. rewrite app_nil_r, Nat.add_0_r in Hp. exact Hp.
Qed.

(** C3: a line starts from the context and writes back the local state
    its tokens leave: its outcome is that of its tokens, and in every state
    it returns no field that was set is unset; the lines of a page are a
    fold that hands the context of one line to the next, and a field of the
    context, once set, stays set through the rest of the page and of the
    traversal, which returns on a document whose lines are within the limit
    of [int].  After a line ["Mt 1:8,"] the token ["11"] at the start of
    the next line links to Matthew 1:11. *)
Theorem C3_context_fold : forall (pno : nat) (ctx : Ctx) (out : Emitted)
    (chars : list CharRec) (lines rest_of_page : list (list CharRec)) (doc : list Page),
  match chars with
  | [] => line_step pno (ctx, out) chars = Some (ctx, out)
  | _ =>
      line_step pno (ctx, out) chars =
      line_tokens pno (fst (fst (build_line_text_and_map chars (85 # 100))))
                      (snd (fst (build_line_text_and_map chars (85 # 100)))) (ctx, out)
  end /\
  (forall ctx' out',
     line_step pno (ctx, out) chars = Some (ctx', out') -> fields_kept ctx ctx') /\
  foldM (line_step pno) (lines ++ rest_of_page) (ctx, out) =
    (acc' <- foldM (line_step pno) lines (ctx, out) ;;
     foldM (line_step pno) rest_of_page acc') /\
  (forall acc' acc'',
     foldM (line_step pno) lines (ctx, out) = Some acc' ->
     foldM (line_step pno) rest_of_page acc' = Some acc'' ->
     fields_kept ctx (fst acc') /\ fields_kept (fst acc') (fst acc'')) /\
  (forall acc', traverse doc (ctx, out) = Some acc' -> fields_kept ctx (fst acc')) /\
  (short_lines doc -> exists acc', traverse doc (ctx, out) = Some acc') /\
  (forall rest,
     resolve_token (py "11" ++ rest) 0 (py "11") (mkCtx (Some (py "mat")) (Some 1%N)) =
     Some (mkCtx (Some (py "mat")) (Some 1%N), Some (py "https://ebible.gr/collate/mat.1.11"))) /\
  inserted_links [page_of ["Mt 1:8,"%string; "11,"%string]] =
    Some [ (0, mkLink (mkRect (-3 # 10) (997 # 10) (353 # 10) (1103 # 10))
                      (py "https://ebible.gr/collate/mat.1.8"));
           (0, mkLink (mkRect (-3 # 10) (997 # 10) (113 # 10) (1103 # 10))
                      (py "https://ebible.gr/collate/mat.1.11")) ].
Proof.
  intros pno ctx out chars lines rest_of_page doc.
  assert (Hk : forall l a a', foldM (line_step pno) l a = Some a' ->
                 fields_kept (fst a) (fst a')).
  { intros l. apply (foldM_rel _ _ _ (fun a b => fields_kept (fst a) (fst b))).
    - intros a; apply fields_kept_refl.
    - intros a b d; apply fields_kept_trans.
    - intros a l0 a'. apply line_step_keeps. }
  split; [|split; [|split; [|split; [|split; [|split; [|split]]]]]].
  - destruct chars as [|x chars]; [reflexivity | apply line_step_written_back].
  - intros ctx' out' H. exact (line_step_keeps _ _ _ _ H).
  - apply foldM_app.
  - intros acc' acc'' H H'. split; [exact (Hk _ _ _ H) | exact (Hk _ _ _ H')].
  - intros acc' H. exact (traverse_keeps _ _ _ H).
  - intros Hd. apply traverse_returns. exact Hd.
  - intros rest. vm_compute. reflexivity.
  - vm_compute. reflexivity.
Qed.

(** C7: two runs of the traversal over the same document, whatever links
    its pages already hold and wherever the counter stands, either both
    raise or both return, and then in the same context and having inserted
    the same links in the same order, which are the links [add_links]
    counts; both return on a document whose lines are within the limit of
    [int]. *)
Theorem C7_deterministic : forall (doc : list Page)
    (l1 l2 : list (nat * Link)) (n1 n2 : nat),
  match traverse doc (mkCtx None None, (l1, n1)),
        traverse doc (mkCtx None None, (l2, n2)) with
  | Some (ctx1, (out1, t1)), Some (ctx2, (out2, t2)) =>
      ctx1 = ctx2 /\
      exists links,
        inserted_links doc = Some links /\ add_links doc = Some (length links) /\
        out1 = l1 ++ links /\ out2 = l2 ++ links /\
        t1 = n1 + length links /\ t2 = n2 + length links
  | None, None => inserted_links doc = None /\ add_links doc = None
  | _, _ => False
  end /\
  (short_lines doc -> exists links, inserted_links doc = Some links).
Proof.
  intros doc l1 l2 n1 n2.
  rewrite (traverse_from doc _ l1 n1), (traverse_from doc _ l2 n2).
  unfold inserted_links, add_links, run_links. split.
  - destruct (traverse doc (mkCtx None None, ([], 0))) as [[ctx [links total]]|] eqn:H;
      cbn [option_map prepend bind]; [|split; reflexivity].
    pose proof (traverse_counted _ _ _ H eq_refl) as Hc. unfold counted in Hc. simpl in Hc.
    subst total. split; [reflexivity|]. exists links. repeat split.
  - intros Hd.
    destruct (traverse_returns doc (mkCtx None None, ([], 0)) Hd) as [[ctx [links total]] H].
    rewrite H. exists links. reflexivity.
Qed.

End ContextClaims.

(** The lines of the two-line sample are within the limit of [int]. *)
Lemma sample_short_lines :
  short_lines (U := ascii_only) [page_of ["Mt 1:8,"%string; "11,"%string]].
Proof.
  intros page chars [<-|[]] Hc. vm_compute in Hc.
  destruct Hc as [<-|[<-|[]]]; vm_compute; reflexivity.
Qed.

Lemma C3_witness :
  within_digit_limit (py "Mt 1:8,") = true /\
  exists acc',
    traverse (U := ascii_only) [page_of ["Mt 1:8,"%string; "11,"%string]]
      (mkCtx None None, ([], 0)) = Some acc'.
Proof.
  split; [reflexivity|].
  exact (proj1 (proj2 (proj2 (proj2 (proj2 (proj2
    (C3_context_fold (U := ascii_only) 0 (mkCtx None None) ([], 0) [] [] []
       [page_of ["Mt 1:8,"%string; "11,"%string]]))))))
    sample_short_lines).
Defined.

Lemma C7_witness :
  within_digit_limit (py "Mt 1:8,") = true /\
  (exists links,
     inserted_links (U := ascii_only) [page_of ["Mt 1:8,"%string; "11,"%string]]
     = Some links) /\
  exists ctx,
    traverse (U := ascii_only) [page_of ["Mt 1:8,"%string; "11,"%string]]
      (mkCtx None None, ([], 0)) = Some (ctx, (two_line_links, 2)) /\
    traverse (U := ascii_only) [page_of ["Mt 1:8,"%string; "11,"%string]]
      (mkCtx None None, (two_line_links, 2))
    = Some (ctx, (two_line_links ++ two_line_links, 4)).
Proof.
  split; [reflexivity|]. split.
  - exact (proj2 (C7_deterministic (U := ascii_only)
                    [page_of ["Mt 1:8,"%string; "11,"%string]] [] [] 0 0)
             sample_short_lines).
  - destruct (C7_deterministic (U := ascii_only)
                [page_of ["Mt 1:8,"%string; "11,"%string]] [] two_line_links 0 2)
      as [H _].
    assert (E1 : traverse (U := ascii_only) [page_of ["Mt 1:8,"%string; "11,"%string]]
                   (mkCtx None None, ([], 0))
                 = Some (mkCtx (Some (py "mat")) (Some 1%N), (two_line_links, 2)))
      by (vm_compute; reflexivity).
    exists (mkCtx (Some (py "mat")) (Some 1%N)). split; [exact E1|].
    match type of H with
    | match ?a with _ => _ end =>
        replace a with (Some (mkCtx (Some (py "mat")) (Some 1%N), (two_line_links, 2))) in H
    end.
    match type of H with
    | match ?b with _ => _ end => destruct b as [[c2 [o2 t2]]|]; [|contradiction]
    end.
    destruct H as (<- & links & _ & _ & Hl & -> & _ & ->).
    cbn [app] in Hl. subst links. reflexivity.
Defined.

(** ** Further properties of the tokenizer and the resolver *)

Section FurtherClaims.
Context {U : UnicodeData}.

(** X1: for every token the tokenizer finds on a line, the gate reads
    inside the line: it returns a verdict and raises no [IndexError]. *)
Theorem X1_gate_reads_inside_line : forall (line_text : pystr) (s e : nat),
  In (s, e) (finditer line_text token_re) ->
  s <= length line_text /\ exists b, inherits_context_at line_text s = Some b.
Proof.
  intros line_text s e Hin. apply finditer_bounds in Hin.
  split; [exact Hin | apply inherits_context_at_total; exact Hin].
Qed.

(** X2: the three shapes do not overlap on a bare number: a token that
    matches [verseonly_re] matches neither [full_re] nor [chapverse_re],
    so the order in which the resolver tries them does not matter for
    it. *)
Theorem X2_bare_number_has_one_shape : forall (t : pystr),
  re_match t verseonly_re <> None ->
  re_match t full_re = None /\ re_match t chapverse_re = None.
Proof.
  intros t H. destruct (re_match t verseonly_re) as [vo|] eqn:Hvo; [|congruence].
  exact (verseonly_excludes t vo Hvo).
Qed.

(** X3: the gate function lets a token through exactly when only
    whitespace precedes it on its line or the nearest character before it
    that is not whitespace is a comma or a semicolon. *)
Theorem X3_gate_meaning : forall (line_text : pystr) (start_idx : nat),
  inherits_context_at line_text start_idx = Some true <-> gate_open line_text start_idx.
Proof. intros. apply inherits_context_at_gate. Qed.

End FurtherClaims.

Lemma X1_witness :
  In (8, 10) (finditer (U := ascii_only) (py "Mt 1:8, 11") (token_re (U := ascii_only))) /\
  8 <= length (py "Mt 1:8, 11") /\
  exists b, inherits_context_at (U := ascii_only) (py "Mt 1:8, 11") 8 = Some b.
Proof.
  assert (H : In (8, 10) (finditer (U := ascii_only) (py "Mt 1:8, 11")
                            (token_re (U := ascii_only)))).
  { vm_compute. right; left; reflexivity. }
  split; [exact H|].
  exact (X1_gate_reads_inside_line (U := ascii_only) (py "Mt 1:8, 11") 8 10 H).
Defined.

Lemma X2_witness :
  re_match (U := ascii_only) (py "11-12") (verseonly_re (U := ascii_only)) <> None /\
  re_match (U := ascii_only) (py "11-12") (full_re (U := ascii_only)) = None /\
  re_match (U := ascii_only) (py "11-12") (chapverse_re (U := ascii_only)) = None.
Proof.
  assert (H : re_match (U := ascii_only) (py "11-12") (verseonly_re (U := ascii_only))
              <> None) by (vm_compute; discriminate).
  split; [exact H|].
  exact (X2_bare_number_has_one_shape (U := ascii_only) (py "11-12") H).
Defined.

(** ** The tokenizer *)

Section TokenizerFacts.
Context {U : UnicodeData}.

(** A match ends at or after its start, and inside the string when it
    starts inside. *)
Lemma lang_bounds : forall (s : pystr) r i c j c',
  lang s r i c j c' -> i <= j /\ (i <= length s -> j <= length s).
Proof.
  intros s r i c0 j c' H.
  induction H;
    try (assert (i < length s) by (apply nth_error_Some; congruence));
    try (split; [lia | intros; lia]); try assumption;
    destruct IHlang1 as [A1 A2], IHlang2 as [B1 B2]; (split; [lia | auto]).
Qed.

Lemma lang_must_hit : forall (s : pystr) (P : codepoint -> bool) r i c j c',
  lang s r i c j c' -> must_hit P r ->
  exists n x, i <= n < j /\ nth_error s n = Some x /\ P x = true.
Proof.
  intros s P r i c0 j c' H.
  induction H; simpl; intros Hm; try contradiction.
  - exists i, x. split; [lia|]. split; [assumption | apply Hm; assumption].
  - pose proof (lang_bounds _ _ _ _ _ _ H) as [A _].
    pose proof (lang_bounds _ _ _ _ _ _ H0) as [B _].
    destruct Hm as [Hm|Hm].
    + destruct (IHlang1 Hm) as (n & x & Hn & Hx). exists n, x. split; [lia | exact Hx].
    + destruct (IHlang2 Hm) as (n & x & Hn & Hx). exists n, x. split; [lia | exact Hx].
  - apply IHlang. tauto.
  - apply IHlang. tauto.
  - apply IHlang. assumption.
Qed.

Lemma must_hit_digits : must_hit isdecimal digits.
Proof. unfold digits, Plus. simpl. left. auto. Qed.

(** Every alternative of the token pattern holds a decimal digit. *)
Lemma must_hit_token_re : must_hit isdecimal token_re.
Proof.
  unfold token_re. cbn [must_hit]. pose proof must_hit_digits as D.
  split; [|split].
  - right; right; right; right; left. exact D.
  - right; left. exact D.
  - right; left. exact D.
Qed.

(** A token starts before it ends, ends inside the line and holds a
    decimal digit. *)
Lemma token_match : forall (line_text : pystr) pos e,
  pos <= length line_text ->
  run line_text token_re pos [] (fun j _ => Some j) = Some e ->
  pos < e /\ e <= length line_text /\
  exists n d, pos <= n < e /\ nth_error line_text n = Some d /\ isdecimal d = true.
Proof.
  intros line_text pos e Hpos H. apply run_sound in H.
  destruct H as (j & c' & Hl & Hk). injection Hk as ->.
  pose proof (lang_bounds _ _ _ _ _ _ Hl) as [_ Hb].
  destruct (lang_must_hit _ _ _ _ _ _ _ Hl must_hit_token_re) as (n & d & Hn & Hd).
  split; [lia|]. split; [auto|]. exists n, d. split; [exact Hn | exact Hd].
Qed.

Lemma spans_ok_weaken : forall len lo lo' l,
  lo' <= lo -> spans_ok len lo l -> spans_ok len lo' l.
Proof.
  intros len lo lo' [|[s e] l] Hle H; simpl in *; [exact I|].
  destruct H as (A & B & C & D). repeat split; try assumption. lia.
Qed.

Lemma scan_spans_ok : forall (s : pystr) r,
  (forall pos e, pos <= length s -> run s r pos [] (fun j _ => Some j) = Some e ->
                 pos < e /\ e <= length s) ->
  forall fuel pos, spans_ok (length s) pos (scan s r fuel pos).
Proof.
  intros s r Hrun fuel; induction fuel as [|fuel IH]; intros pos; simpl; [exact I|].
  destruct (length s <? pos) eqn:Hp; [exact I|]. apply Nat.ltb_ge in Hp.
  destruct (run s r pos [] (fun j _ => Some j)) as [e|] eqn:Hr.
  - destruct (Hrun pos e Hp Hr) as [A B]. simpl.
    replace (e <=? pos) with false by (symmetry; apply Nat.leb_gt; lia).
    repeat split; try lia. apply IH.
  - apply spans_ok_weaken with (lo := S pos); [lia | apply IH].
Qed.

Lemma scan_in_run : forall (s : pystr) r fuel pos a b,
  In (a, b) (scan s r fuel pos) ->
  a <= length s /\ run s r a [] (fun j _ => Some j) = Some b.
Proof.
  intros s r fuel; induction fuel as [|fuel IH]; intros pos a b H; simpl in H.
  - contradiction.
  - destruct (length s <? pos) eqn:Hp; [contradiction|]. apply Nat.ltb_ge in Hp.
    destruct (run s r pos [] (fun j _ => Some j)) as [e|] eqn:Hr.
    + destruct H as [H|H]; [injection H as <- <-; auto | eapply IH; eassumption].
    + eapply IH; eassumption.
Qed.

Lemma scan_nil : forall (s : pystr) r,
  (forall pos, run s r pos [] (fun j _ => Some j) = None) ->
  forall fuel pos, scan s r fuel pos = [].
Proof.
  intros s r Hnone fuel; induction fuel as [|fuel IH]; intros pos; simpl; [reflexivity|].
  destruct (length s <? pos); [reflexivity|]. rewrite Hnone. apply IH.
Qed.

(** X5: the tokens of a line are non-empty spans inside the line, found
    from left to right without overlap, and each of them holds a decimal
    digit. *)
Theorem X5_tokens_disjoint : forall (line_text : pystr),
  spans_ok (length line_text) 0 (finditer line_text token_re) /\
  (forall s e, In (s, e) (finditer line_text token_re) ->
     exists n d, s <= n < e /\ nth_error line_text n = Some d /\ isdecimal d = true).
Proof.
  intros line_text. split.
  - apply scan_spans_ok. intros pos e Hpos H.
    destruct (token_match line_text pos e Hpos H) as (A & B & _). split; assumption.
  - intros s e Hin. apply scan_in_run in Hin. destruct Hin as [Hs Hr].
    exact (proj2 (proj2 (token_match line_text s e Hs Hr))).
Qed.

(** X6: a line whose normalised text holds no decimal digit has no
    token: it inserts no link and leaves the context as it was. *)
Theorem X6_line_without_digits : forall (pno : nat) (ctx : Ctx) (out : Emitted)
    (chars : list CharRec),
  (forall ch, In ch (fst (fst (build_line_text_and_map chars (85 # 100)))) ->
              isdecimal ch = false) ->
  finditer (fst (fst (build_line_text_and_map chars (85 # 100)))) token_re = [] /\
  line_step pno (ctx, out) chars = Some (ctx, out).
Proof.
  intros pno ctx out chars Hno.
  assert (Hnil : finditer (fst (fst (build_line_text_and_map chars (85 # 100)))) token_re = []).
  { apply scan_nil. intros pos.
    destruct (run _ token_re pos [] (fun j _ => Some j)) as [e|] eqn:Hr; [|reflexivity].
    exfalso. apply run_sound in Hr. destruct Hr as (j & c' & Hl & _).
    destruct (lang_must_hit _ _ _ _ _ _ _ Hl must_hit_token_re) as (n & d & _ & Hd & Hdec).
    apply nth_error_In in Hd. rewrite (Hno d Hd) in Hdec. discriminate. }
  split; [exact Hnil|].
  unfold line_step. destruct chars as [|x chars]; [reflexivity|].
  destruct (build_line_text_and_map (x :: chars) (85 # 100)) as [[line_text char_rects] meta].
  cbn [fst] in Hnil. unfold line_tokens. rewrite Hnil. cbn [foldM bind].
  destruct ctx as [[b|] [n|]]; reflexivity.
Qed.

End TokenizerFacts.

Lemma X6_witness :
  (forall ch, In ch (fst (fst (build_line_text_and_map (U := ascii_only)
                                  (line_of 10 "see [a]") (85 # 100)))) ->
              isdecimal (U := ascii_only) ch = false) /\
  line_step (U := ascii_only) 0 (mkCtx (Some (py "mat")) None, ([], 0)) (line_of 10 "see [a]")
    = Some (mkCtx (Some (py "mat")) None, ([], 0)).
Proof.
  assert (H : forall ch, In ch (fst (fst (build_line_text_and_map (U := ascii_only)
                                            (line_of 10 "see [a]") (85 # 100)))) ->
                         isdecimal (U := ascii_only) ch = false).
  { vm_compute. intros ch Hin.
    repeat (destruct Hin as [<-|Hin]; [reflexivity|]). contradiction. }
  split; [exact H|].
  exact (proj2 (X6_line_without_digits (U := ascii_only) 0 (mkCtx (Some (py "mat")) None)
                  ([], 0) (line_of 10 "see [a]") H)).
Defined.

(** ** The normalised line and its rectangles *)

Section AlignmentFacts.
Context {U : UnicodeData}.

(** On a line of single glyphs every record the normaliser keeps holds
    exactly one character. *)
Lemma kept_single : forall sup_ratio base (chars : list CharRec),
  Forall (fun x => length (c x) <= 1) chars ->
  forall x, In x (filter (keeps sup_ratio base) chars) -> length (c x) = 1.
Proof.
  intros sup_ratio base chars Hwf x Hin. apply filter_In in Hin. destruct Hin as [Hin Hk].
  rewrite Forall_forall in Hwf. specialize (Hwf x Hin).
  destruct (c x) as [|a [|b w]] eqn:Hc; simpl in *; try lia.
  rewrite (proj2 (keeps_false_iff sup_ratio base x)) in Hk; [discriminate | left; exact Hc].
Qed.

Lemma concat_single_nth : forall (l : list CharRec),
  (forall x, In x l -> length (c x) = 1) ->
  forall i ch, nth_error (concat (map c l)) i = Some ch ->
  exists x, nth_error l i = Some x /\ c x = [ch].
Proof.
  induction l as [|x l IH]; intros H i ch Hi; simpl in Hi.
  - destruct i; discriminate.
  - pose proof (H x (or_introl eq_refl)) as Hx.
    destruct (c x) as [|a [|b w]] eqn:Hc; simpl in Hx; try lia.
    destruct i as [|i]; simpl in Hi.
    + injection Hi as <-. exists x. split; [reflexivity | exact Hc].
    + destruct (IH (fun y Hy => H y (or_intror Hy)) i ch Hi) as (y & Hy & Hcy).
      exists y. split; [exact Hy | exact Hcy].
Qed.

(** X7: on a line of single glyphs the character at index [i] of the
    normalised text and the rectangle at index [i] come from the same
    record of the line. *)
Theorem X7_text_rect_alignment : forall (chars : list CharRec) (sup_ratio : Q)
    (i : nat) (ch : codepoint),
  Forall (fun x => length (c x) <= 1) chars ->
  nth_error (fst (fst (build_line_text_and_map chars sup_ratio))) i = Some ch ->
  exists x, In x chars /\ c x = [ch] /\
    nth_error (snd (fst (build_line_text_and_map chars sup_ratio))) i = Some (rect x).
Proof.
  intros chars sup_ratio i ch Hwf. rewrite build_line_text_and_map_filter. cbn [fst snd].
  intros Hi.
  destruct (concat_single_nth _ (kept_single sup_ratio (line_base chars) chars Hwf) i ch Hi)
    as (x & Hx & Hc).
  exists x. split; [|split; [exact Hc|]].
  - apply nth_error_In in Hx. apply filter_In in Hx. tauto.
  - rewrite nth_error_map, Hx. reflexivity.
Qed.

(** X8: every record of the line is accounted for: it is kept with its
    rectangle, counted in [removed_sup_chars], or has an empty glyph. *)
Theorem X8_records_accounted : forall (chars : list CharRec) (sup_ratio : Q),
  length (snd (fst (build_line_text_and_map chars sup_ratio)))
  + removed_sup_chars (snd (build_line_text_and_map chars sup_ratio))
  + length (filter (fun x => pystr_eqb (c x) []) chars)
  = length chars.
Proof.
  intros chars sup_ratio. rewrite build_line_text_and_map_filter. cbn [fst snd removed_sup_chars].
  rewrite length_map. generalize (line_base chars) as base. intros base.
  induction chars as [|x chars IH]; [reflexivity|].
  cbn [filter]. destruct (keeps sup_ratio base x) eqn:Hk.
  - assert (Hc : pystr_eqb (c x) [] = false).
    { destruct (pystr_eqb (c x) []) eqn:E; [|reflexivity].
      unfold keeps in Hk. rewrite E in Hk. discriminate. }
    rewrite Hc. cbn [negb andb length]. lia.
  - destruct (pystr_eqb (c x) []); cbn [negb andb length]; lia.
Qed.

(** X9: on a line of single glyphs every token has a rectangle, so a
    token that resolves to a URI always inserts its link. *)
Theorem X9_resolved_token_links : forall (chars : list CharRec) (sup_ratio : Q) (s e : nat),
  Forall (fun x => length (c x) <= 1) chars ->
  In (s, e) (finditer (fst (fst (build_line_text_and_map chars sup_ratio))) token_re) ->
  exists rr,
    rect_for_span_chars (snd (fst (build_line_text_and_map chars sup_ratio))) s e = Some rr /\
    forall pno cur links total cur' u,
      resolve_token (fst (fst (build_line_text_and_map chars sup_ratio))) s
        (strip_supdig (slice (fst (fst (build_line_text_and_map chars sup_ratio))) s e)) cur
        = Some (cur', Some u) ->
      token_step pno (fst (fst (build_line_text_and_map chars sup_ratio)))
        (snd (fst (build_line_text_and_map chars sup_ratio))) (cur, (links, total)) (s, e)
        = Some (cur', (links ++ [(pno, mkLink rr u)], S total)).
Proof.
  intros chars sup_ratio s e Hwf Hin.
  assert (Hlen : length (fst (fst (build_line_text_and_map chars sup_ratio)))
                 = length (snd (fst (build_line_text_and_map chars sup_ratio)))).
  { rewrite build_line_text_and_map_filter. cbn [fst snd]. rewrite length_map.
    apply kept_glyph_text. apply kept_single. exact Hwf. }
  destruct (build_line_text_and_map chars sup_ratio) as [[line_text char_rects] meta].
  cbn [fst snd] in *.
  apply scan_in_run in Hin. destruct Hin as [Hs Hr].
  destruct (token_match line_text s e Hs Hr) as (Hse & He & _).
  destruct (rect_for_span_chars char_rects s e) as [rr|] eqn:Hrect.
  - exists rr. split; [reflexivity|].
    intros pno cur links total cur' u Hres. unfold token_step. rewrite Hres. cbn [bind].
    destruct (resolve_token_url _ _ _ _ _ _ Hres) as (b & n & v1 & v2 & _ & _ & Hu).
    destruct (make_url_nonempty b n v1 v2) as [rl Hrl]. rewrite Hu, Hrl, Hrect. reflexivity.
  - exfalso. apply rect_for_span_chars_none in Hrect.
    assert (Hq : s < length char_rects) by lia.
    apply nth_error_Some in Hq. destruct (nth_error char_rects s) as [q|] eqn:Hn; [|congruence].
    assert (Hi : In q (slice char_rects s e)) by (apply in_slice; exists s; split; [lia | exact Hn]).
    rewrite Hrect in Hi. contradiction.
Qed.

End AlignmentFacts.

Lemma X7_witness :
  Forall (fun x => length (c x) <= 1) (line_of 10 "a[05]b") /\
  nth_error (fst (fst (build_line_text_and_map (U := ascii_only)
                         (line_of 10 "a[05]b") (85 # 100)))) 3 = Some (chr "b") /\
  exists x, In x (line_of 10 "a[05]b") /\ c x = [chr "b"] /\
    nth_error (snd (fst (build_line_text_and_map (U := ascii_only)
                           (line_of 10 "a[05]b") (85 # 100)))) 3 = Some (rect x).
Proof.
  assert (H1 : Forall (fun x => length (c x) <= 1) (line_of 10 "a[05]b"))
    by (repeat constructor).
  assert (H2 : nth_error (fst (fst (build_line_text_and_map (U := ascii_only)
                                      (line_of 10 "a[05]b") (85 # 100)))) 3 = Some (chr "b"))
    by (vm_compute; reflexivity).
  split; [exact H1|]. split; [exact H2|].
  exact (X7_text_rect_alignment (U := ascii_only) (line_of 10 "a[05]b") (85 # 100) 3 (chr "b") H1 H2).
Defined.

Lemma X9_witness :
  Forall (fun x => length (c x) <= 1) (line_of 10 "Mt 1:8, 11") /\
  In (8, 10) (finditer (U := ascii_only)
                (fst (fst (build_line_text_and_map (U := ascii_only)
                             (line_of 10 "Mt 1:8, 11") (85 # 100))))
                (token_re (U := ascii_only))) /\
  exists rr,
    rect_for_span_chars (snd (fst (build_line_text_and_map (U := ascii_only)
                                     (line_of 10 "Mt 1:8, 11") (85 # 100)))) 8 10 = Some rr.
Proof.
  assert (H1 : Forall (fun x => length (c x) <= 1) (line_of 10 "Mt 1:8, 11"))
    by (repeat constructor).
  assert (H2 : In (8, 10) (finditer (U := ascii_only)
                (fst (fst (build_line_text_and_map (U := ascii_only)
                             (line_of 10 "Mt 1:8, 11") (85 # 100))))
                (token_re (U := ascii_only)))).
  { vm_compute. right; left; reflexivity. }
  split; [exact H1|]. split; [exact H2|].
  destruct (X9_resolved_token_links (U := ascii_only) (line_of 10 "Mt 1:8, 11") (85 # 100)
              8 10 H1 H2) as [rr [Hrr _]].
  exists rr. exact Hrr.
Defined.

(** ** The baseline *)

Section BaselineFacts.
Context {U : UnicodeData}.

Lemma insert_sorted_in : forall x l y, In y (insert_sorted x l) <-> y = x \/ In y l.
Proof.
  intros x l y; induction l as [|a l IH]; simpl.
  - intuition.
  - destruct (Qle_bool x a); simpl; [intuition|]. rewrite IH. intuition.
Qed.

Lemma insert_sorted_length : forall x l, length (insert_sorted x l) = S (length l).
Proof.
  intros x l; induction l as [|a l IH]; simpl; [reflexivity|].
  destruct (Qle_bool x a); simpl; [reflexivity | rewrite IH; reflexivity].
Qed.

Lemma sorted_in : forall l y, In y (fold_right insert_sorted [] l) <-> In y l.
Proof.
  induction l as [|a l IH]; intros y; simpl; [tauto|].
  rewrite insert_sorted_in, IH. intuition.
Qed.

Lemma sorted_length : forall l, length (fold_right insert_sorted [] l) = length l.
Proof.
  induction l as [|a l IH]; simpl; [reflexivity|].
  rewrite insert_sorted_length, IH. reflexivity.
Qed.

(** The median is an element of the data or the mean of two. *)
Lemma median_cases : forall (data : list Q),
  data <> [] ->
  (exists a, In a data /\ median data = a) \/
  (exists a b, In a data /\ In b data /\ median data = ((a + b) / 2)%Q).
Proof.
  intros data Hne. unfold median.
  set (d := fold_right insert_sorted [] data).
  assert (Hlen : length d = length data) by apply sorted_length.
  assert (Hpos : 0 < length d) by (rewrite Hlen; destruct data; [congruence | simpl; lia]).
  assert (Hin : forall k, k < length d -> In (nth k d 0%Q) data).
  { intros k Hk. apply sorted_in. apply nth_In. exact Hk. }
  assert (Hhalf : length d / 2 < length d) by (apply Nat.div_lt; lia).
  destruct (Nat.odd (length d)).
  - left. exists (nth (length d / 2) d 0%Q). split; [apply Hin; exact Hhalf | reflexivity].
  - right. exists (nth (length d / 2 - 1) d 0%Q), (nth (length d / 2) d 0%Q).
    split; [apply Hin; lia|]. split; [apply Hin; exact Hhalf | reflexivity].
Qed.

Lemma median_le : forall (data : list Q) (hi : Q),
  data <> [] -> (forall x, In x data -> (x <= hi)%Q) -> (median data <= hi)%Q.
Proof.
  intros data hi Hne Hb.
  destruct (median_cases data Hne) as [(a & Ha & ->) | (a & b & Ha & Hb' & ->)].
  - apply Hb, Ha.
  - pose proof (Hb a Ha). pose proof (Hb b Hb').
    unfold Qdiv. change (/ 2)%Q with (1 # 2)%Q. lra.
Qed.

Lemma median_ge : forall (data : list Q) (lo : Q),
  data <> [] -> (forall x, In x data -> (lo <= x)%Q) -> (lo <= median data)%Q.
Proof.
  intros data lo Hne Hb.
  destruct (median_cases data Hne) as [(a & Ha & ->) | (a & b & Ha & Hb' & ->)].
  - apply Hb, Ha.
  - pose proof (Hb a Ha). pose proof (Hb b Hb').
    unfold Qdiv. change (/ 2)%Q with (1 # 2)%Q. lra.
Qed.

Lemma line_sizes_in : forall chars q,
  In q (line_sizes chars) ->
  exists y, In y chars /\ strip_nonempty (c y) = true /\ Qeq_bool (size y) 0 = false /\
            q = size y.
Proof.
  intros chars q H. unfold line_sizes in H. apply in_map_iff in H.
  destruct H as (y & Hq & Hy). apply filter_In in Hy. destruct Hy as [Hy Hc].
  apply andb_true_iff in Hc. destruct Hc as [Hc1 Hc2]. apply negb_true_iff in Hc2.
  exists y. auto.
Qed.

(** X10: when the line has a sized character, its baseline lies between
    the smallest and the largest font size of its characters that are not
    whitespace and have a size. *)
Theorem X10_baseline_between : forall (chars : list CharRec) (lo hi : Q),
  line_sizes chars <> [] ->
  (forall y, In y chars -> strip_nonempty (c y) = true -> Qeq_bool (size y) 0 = false ->
             (lo <= size y)%Q /\ (size y <= hi)%Q) ->
  (lo <= line_base chars)%Q /\ (line_base chars <= hi)%Q.
Proof.
  intros chars lo hi Hne Hb. unfold line_base.
  destruct (line_sizes chars) as [|q l] eqn:Hs; [congruence|]. rewrite <- Hs.
  assert (Hne' : line_sizes chars <> []) by (rewrite Hs; discriminate).
  split.
  - apply median_ge; [exact Hne'|].
    intros x Hx. apply line_sizes_in in Hx. destruct Hx as (y & Hy & H1 & H2 & ->).
    apply Hb; assumption.
  - apply median_le; [exact Hne'|].
    intros x Hx. apply line_sizes_in in Hx. destruct Hx as (y & Hy & H1 & H2 & ->).
    apply Hb; assumption.
Qed.

(** X11: with a ratio of at most 1, a character set in the largest font
    of its line is never dropped as a superscript: unless its glyph is
    empty or a bracket, its rectangle is in the output. *)
Theorem X11_largest_font_kept : forall (chars : list CharRec) (sup_ratio : Q) (x : CharRec),
  (sup_ratio <= 1)%Q ->
  In x chars ->
  (forall y, In y chars -> (size y <= size x)%Q) ->
  c x <> [] -> str_in (c x) (py "[]") = false ->
  keeps sup_ratio (line_base chars) x = true /\
  In (rect x) (snd (fst (build_line_text_and_map chars sup_ratio))).
Proof.
  intros chars sup_ratio x Hr Hin Hmax Hc Hb.
  assert (Hk : keeps sup_ratio (line_base chars) x = true).
  { destruct (keeps sup_ratio (line_base chars) x) eqn:Hk; [reflexivity|]. exfalso.
    apply keeps_false_iff in Hk.
    destruct Hk as [Hk|[Hk|[Hk|[Hk|(_ & Hpos & Hlt)]]]];
      try (rewrite Hk in Hb; discriminate); try contradiction.
    assert (Hle : (line_base chars <= size x)%Q).
    { unfold line_base in *. destruct (line_sizes chars) as [|q l] eqn:Hs.
      - exfalso. exact (Qlt_irrefl _ Hpos).
      - rewrite <- Hs. apply median_le; [rewrite Hs; discriminate|].
        intros z Hz. apply line_sizes_in in Hz. destruct Hz as (y & Hy & _ & _ & ->).
        apply Hmax, Hy. }
    assert (Hm : (sup_ratio * line_base chars <= 1 * line_base chars)%Q)
      by (apply Qmult_le_compat_r; [exact Hr | apply Qlt_le_weak; exact Hpos]).
    lra. }
  split; [exact Hk|].
  rewrite build_line_text_and_map_filter. cbn [fst snd].
  apply in_map. apply filter_In. split; assumption.
Qed.

End BaselineFacts.

Lemma X10_witness :
  line_sizes (U := ascii_only) unsized_glyph_line <> [] /\
  (8 <= line_base (U := ascii_only) unsized_glyph_line)%Q /\
  (line_base (U := ascii_only) unsized_glyph_line <= 10)%Q.
Proof.
  assert (H1 : line_sizes (U := ascii_only) unsized_glyph_line <> [])
    by (vm_compute; discriminate).
  split; [exact H1|].
  apply (X10_baseline_between (U := ascii_only) unsized_glyph_line 8 10 H1).
  intros y Hy _ Hz.
  destruct Hy as [<-|[<-|[<-|[<-|[]]]]]; try (vm_compute in Hz; discriminate);
    split; vm_compute; discriminate.
Defined.

Lemma X11_witness :
  (85 # 100 <= 1)%Q /\
  In (glyph 10 5 "1") (line_of 10 "Mt 7:13") /\
  keeps (U := ascii_only) (85 # 100) (line_base (U := ascii_only) (line_of 10 "Mt 7:13"))
    (glyph 10 5 "1") = true /\
  In (rect (glyph 10 5 "1"))
     (snd (fst (build_line_text_and_map (U := ascii_only) (line_of 10 "Mt 7:13") (85 # 100)))).
Proof.
  assert (H1 : (85 # 100 <= 1)%Q) by (vm_compute; discriminate).
  assert (H2 : In (glyph 10 5 "1") (line_of 10 "Mt 7:13")).
  { vm_compute. do 5 right. left. reflexivity. }
  split; [exact H1|]. split; [exact H2|].
  apply (X11_largest_font_kept (U := ascii_only) (line_of 10 "Mt 7:13") (85 # 100)
           (glyph 10 5 "1") H1 H2).
  - intros y Hy. vm_compute in Hy.
    repeat (destruct Hy as [<-|Hy]; [vm_compute; discriminate|]). contradiction.
  - discriminate.
  - reflexivity.
Defined.

Section EdgeFacts.
Context {U : UnicodeData}.

(** X12: a digit from a span without a font size leaves no trace on a
    line whose baseline is positive: the text, the rectangles and the
    baseline are those of the line without it, and it is counted once in
    [removed_sup_chars]. *)
Theorem X12_unsized_digit_invisible : forall (pre post : list CharRec) (x : CharRec)
    (sup_ratio : Q),
  (0 < sup_ratio)%Q ->
  isdigit (c x) = true ->
  Qeq_bool (size x) 0 = true ->
  (0 < line_base (pre ++ post))%Q ->
  fst (build_line_text_and_map (pre ++ x :: post) sup_ratio)
    = fst (build_line_text_and_map (pre ++ post) sup_ratio) /\
  base_size (snd (build_line_text_and_map (pre ++ x :: post) sup_ratio))
    = base_size (snd (build_line_text_and_map (pre ++ post) sup_ratio)) /\
  removed_sup_chars (snd (build_line_text_and_map (pre ++ x :: post) sup_ratio))
    = S (removed_sup_chars (snd (build_line_text_and_map (pre ++ post) sup_ratio))).
Proof.
  intros pre post x sup_ratio Hr Hd Hz Hpos.
  assert (Hbase : line_base (pre ++ x :: post) = line_base (pre ++ post)).
  { unfold line_base, line_sizes. rewrite !filter_app. cbn [filter].
    rewrite Hz. cbn [negb]. rewrite andb_false_r. reflexivity. }
  assert (Hk : keeps sup_ratio (line_base (pre ++ post)) x = false).
  { apply keeps_false_iff. do 4 right. split; [exact Hd|]. split; [exact Hpos|].
    apply Qeq_bool_iff in Hz.
    pose proof (Qmult_lt_0_compat _ _ Hr Hpos) as Hm. lra. }
  assert (Hc : pystr_eqb (c x) [] = false) by (destruct (c x); [discriminate | reflexivity]).
  rewrite !build_line_text_and_map_filter, Hbase. cbn [fst snd base_size removed_sup_chars].
  rewrite !filter_app. cbn [filter]. rewrite Hk, Hc. cbn [negb andb].
  split; [reflexivity|]. split; [reflexivity|].
  rewrite !length_app. cbn [length]. lia.
Qed.

(** X13: a span has no rectangle exactly when it is empty or starts at or
    past the end of the rectangle array; a span that reaches past the end
    is cut there. *)
Theorem X13_span_edges : forall (char_rects : list Rect) (s e : nat),
  (rect_for_span_chars char_rects s e = None <-> e <= s \/ length char_rects <= s) /\
  rect_for_span_chars char_rects s e
    = rect_for_span_chars char_rects s (Nat.min e (length char_rects)).
Proof.
  intros char_rects s e. split.
  - rewrite rect_for_span_chars_none. unfold slice. split.
    + intros H. destruct (e - s) as [|n] eqn:En; [left; lia|].
      destruct (skipn s char_rects) as [|r l] eqn:Hs; [|discriminate].
      right. apply skipn_all_iff. exact Hs.
    + intros [H|H].
      * replace (e - s) with 0 by lia. reflexivity.
      * rewrite (proj1 (skipn_all_iff s char_rects) H). apply firstn_nil.
  - unfold rect_for_span_chars, slice.
    assert (Hcut : firstn (Nat.min e (length char_rects) - s) (skipn s char_rects)
                   = firstn (e - s) (skipn s char_rects)).
    { destruct (Nat.le_ge_cases e (length char_rects)) as [Hle|Hge].
      - rewrite Nat.min_l by exact Hle. reflexivity.
      - rewrite Nat.min_r by exact Hge.
        rewrite !firstn_all2; [reflexivity | rewrite length_skipn; lia | rewrite length_skipn; lia]. }
    rewrite Hcut. reflexivity.
Qed.

Lemma combine_seq_snoc : forall (A : Type) (l : list A) (x : A) k,
  combine (seq k (length (l ++ [x]))) (l ++ [x])
  = combine (seq k (length l)) l ++ [(k + length l, x)].
Proof.
  intros A l x; induction l as [|a l IH]; intros k; simpl.
  - rewrite Nat.add_0_r. reflexivity.
  - rewrite IH. rewrite Nat.add_succ_r. reflexivity.
Qed.

Lemma enumerate_snoc : forall (A : Type) (l : list A) (x : A),
  enumerate (l ++ [x]) = enumerate l ++ [(length l, x)].
Proof. intros A l x. unfold enumerate. apply combine_seq_snoc. Qed.

Lemma nth_error_combine_seq : forall (A : Type) (l : list A) k i x,
  nth_error l i = Some x -> nth_error (combine (seq k (length l)) l) i = Some (k + i, x).
Proof.
  intros A l; induction l as [|a l IH]; intros k i x H; destruct i; simpl in *;
    try discriminate.
  - injection H as <-. rewrite Nat.add_0_r. reflexivity.
  - rewrite (IH (S k) i x H). rewrite Nat.add_succ_r. reflexivity.
Qed.

Lemma length_enumerate : forall (A : Type) (l : list A), length (enumerate l) = length l.
Proof. intros A l. unfold enumerate. rewrite length_combine, length_seq. lia. Qed.

(** The fields of the records of one line, span after span. *)
Lemma records_of_fields : forall b_idx l_idx raw,
  map c (records_of b_idx l_idx raw)
    = flat_map (fun span => map rc_c (sp_chars span)) (ln_spans raw) /\
  map rect (records_of b_idx l_idx raw)
    = flat_map (fun span => map rc_bbox (sp_chars span)) (ln_spans raw) /\
  map size (records_of b_idx l_idx raw)
    = flat_map (fun span => map (fun _ => sp_size span) (sp_chars span)) (ln_spans raw) /\
  Forall (fun x => block_no x = b_idx /\ line_no x = l_idx) (records_of b_idx l_idx raw).
Proof.
  intros b_idx l_idx raw. unfold records_of.
  induction (ln_spans raw) as [|span spans IH]; cbn [flat_map map].
  - repeat split; constructor.
  - destruct IH as (Hc & Hr & Hs & Hf). rewrite !map_app, !map_map, Hc, Hr, Hs.
    cbn [c rect size]. repeat split.
    apply Forall_app. split; [|exact Hf].
    apply Forall_forall. intros x Hx. apply in_map_iff in Hx.
    destruct Hx as (ch & <- & _). split; reflexivity.
Qed.

(** X14: the extraction yields the lines of the text blocks (type 0) of
    the page, in the order of the page and once each: a page with one more
    block yields the lines of the page before it followed by the lines of
    that block, none if it is not a text block; the records of a yielded
    line carry, in the order of its spans and their characters, the glyph
    and bounding box of each character and the size of its span, with the
    index of the block among all blocks of the page and the index of the
    line in the block. *)
Theorem X14_lines_of_text_blocks : forall (page : Page) (block : RawBlock),
  line_chars_from_rawdict [] = [] /\
  exists lines,
    line_chars_from_rawdict (page ++ [block]) = line_chars_from_rawdict page ++ lines /\
    (bl_type block <> 0 -> lines = []) /\
    (bl_type block = 0 ->
     length lines = length (bl_lines block) /\
     forall l_idx raw,
       nth_error (bl_lines block) l_idx = Some raw ->
       exists line,
         nth_error lines l_idx = Some line /\
         map c line = flat_map (fun span => map rc_c (sp_chars span)) (ln_spans raw) /\
         map rect line = flat_map (fun span => map rc_bbox (sp_chars span)) (ln_spans raw) /\
         map size line
           = flat_map (fun span => map (fun _ => sp_size span) (sp_chars span))
                      (ln_spans raw) /\
         Forall (fun x => block_no x = length page /\ line_no x = l_idx) line).
Proof.
  intros page block. split; [reflexivity|].
  exists (if negb (bl_type block =? 0) then []
          else map (fun '(l_idx, raw) => records_of (length page) l_idx raw)
                   (enumerate (bl_lines block))).
  split; [|split].
  - unfold line_chars_from_rawdict. rewrite enumerate_snoc, flat_map_app.
    cbn [flat_map]. rewrite app_nil_r. reflexivity.
  - intros Hne. apply Nat.eqb_neq in Hne. rewrite Hne. reflexivity.
  - intros Ht. rewrite Ht. cbn [Nat.eqb negb]. split.
    + rewrite length_map. apply length_enumerate.
    + intros l_idx raw Hraw. exists (records_of (length page) l_idx raw). split.
      * rewrite nth_error_map. unfold enumerate.
        rewrite (nth_error_combine_seq _ _ 0 l_idx raw Hraw). reflexivity.
      * apply records_of_fields.
Qed.

End EdgeFacts.

Lemma X12_witness :
  (0 < 85 # 100)%Q /\
  (0 < line_base (U := ascii_only) (line_of 10 "Mt 7" ++ []))%Q /\
  fst (build_line_text_and_map (U := ascii_only)
         (line_of 10 "Mt 7" ++ glyph 0 4 "3" :: []) (85 # 100))
    = fst (build_line_text_and_map (U := ascii_only) (line_of 10 "Mt 7" ++ []) (85 # 100)).
Proof.
  assert (H1 : (0 < 85 # 100)%Q) by reflexivity.
  assert (H2 : (0 < line_base (U := ascii_only) (line_of 10 "Mt 7" ++ []))%Q)
    by (vm_compute; reflexivity).
  split; [exact H1|]. split; [exact H2|].
  exact (proj1 (X12_unsized_digit_invisible (U := ascii_only) (line_of 10 "Mt 7") []
                  (glyph 0 4 "3") (85 # 100) H1 eq_refl eq_refl H2)).
Defined.

(** ** The FULL and CHAPTER:VERSE cases *)

Section ShapeCases.
Context {U : UnicodeData}.

Lemma chapverse_chars : forall t cv,
  re_match t chapverse_re = Some cv ->
  forall n x, nth_error t n = Some x -> chapversechar x = true.
Proof.
  intros t cv H. apply re_match_lang in H. destruct H as [j H].
  assert (Hcls : classes_within chapversechar chapverse_re).
  { unfold chapversechar; simpl. repeat split; intros x Hx; rewrite Hx;
      rewrite ?orb_true_r; reflexivity. }
  pose proof (lang_consumes t chapversechar _ _ _ _ _ H Hcls) as Hall.
  intros n x Hn. destruct (Nat.lt_ge_cases n j) as [Hlt|Hge].
  - destruct (Hall n (conj (Nat.le_0_l n) Hlt)) as (y & Hy & HP). congruence.
  - assert (Hend : at_end t j = true).
    { clear Hall Hcls. unfold chapverse_re, Opt, Chr in H. inv_lang; assumption. }
    rewrite (at_end_cases t j n x Hend Hn Hge). unfold chapversechar.
    rewrite N.eqb_refl. apply orb_true_r.
Qed.

Lemma alt_not_chapverse :
  forallb (fun w => existsb (fun x => negb (chapversechar x)) w) alt = true.
Proof. vm_compute. reflexivity. Qed.

(** A token of the chapter:verse shape has neither of the other shapes. *)
Lemma chapverse_excludes : forall t cv,
  re_match t chapverse_re = Some cv ->
  re_match t full_re = None /\ re_match t verseonly_re = None.
Proof.
  intros t cv H. split.
  - destruct (re_match t full_re) as [fm|] eqn:Hf; [|reflexivity]. exfalso.
    apply full_shape in Hf. destruct Hf as (_ & w & Hin & Hpre).
    pose proof alt_not_chapverse as Hnv. rewrite forallb_forall in Hnv.
    specialize (Hnv w Hin). apply existsb_exists in Hnv.
    destruct Hnv as (x & Hx & Hneg). apply In_nth_error in Hx. destruct Hx as [n Hn].
    rewrite (chapverse_chars t cv H n x (Hpre n x Hn)) in Hneg. discriminate.
  - destruct (re_match t verseonly_re) as [vo|] eqn:Hv; [|reflexivity]. exfalso.
    apply verseonly_excludes in Hv. destruct Hv as [_ Hv]. congruence.
Qed.

(** X4: a token of the chapter:verse shape has neither of the other
    shapes and captures a chapter and a verse; with a book in the state it
    keeps the book, sets the chapter and emits the verse or range URI of
    that book, unless [int] raises, which it does not for a token within
    its limit; without a book it emits nothing and leaves the state as it
    was, the chapter included. *)
Theorem X4_chapter_verse_token : forall (line_text : pystr) (s : nat) (t : pystr) (cur : Ctx),
  re_match t chapverse_re <> None ->
  re_match t full_re = None /\ re_match t verseonly_re = None /\
  exists cv cs vs,
    re_match t chapverse_re = Some cv /\
    group_text t cv Gchap = Some cs /\ group_text t cv Gv1 = Some vs /\
    resolve_token line_text s t cur =
      match ctx_book cur with
      | Some (b :: ook) =>
          chap <- int_of_str cs ;;
          v1 <- int_of_str vs ;;
          v2 <- int_if_group (group_text t cv Gv2) ;;
          Some (mkCtx (Some (b :: ook)) (Some chap),
                Some (make_url (b :: ook) chap (Some v1) v2))
      | _ => Some (cur, None)
      end /\
    (within_digit_limit t = true ->
     int_of_str cs = Some (py_int cs) /\ int_of_str vs = Some (py_int vs) /\
     exists v2, int_if_group (group_text t cv Gv2) = Some v2).
Proof.
  intros line_text s t cur H.
  destruct (re_match t chapverse_re) as [cv|] eqn:Hc; [clear H | congruence].
  destruct (chapverse_excludes t cv Hc) as [Hf Hv].
  split; [exact Hf|]. split; [exact Hv|].
  destruct (chapverse_shape t cv Hc) as ([sp1 H1] & [sp2 H2] & _).
  destruct (group_text_captured t cv Gchap sp1 H1) as [cs Hcs].
  destruct (group_text_captured t cv Gv1 sp2 H2) as [vs Hvs].
  exists cv, cs, vs. split; [reflexivity|]. split; [exact Hcs|]. split; [exact Hvs|].
  split.
  - unfold resolve_token. rewrite Hf, Hc.
    destruct (ctx_book cur) as [[|b ook]|] eqn:Hb.
    + unfold verse_only. rewrite Hv. reflexivity.
    + rewrite Hcs, Hvs. reflexivity.
    + unfold verse_only. rewrite Hv. reflexivity.
  - intros Hl.
    split; [apply int_of_str_within; exact (group_text_within t cv Gchap cs Hl Hcs)|].
    split; [apply int_of_str_within; exact (group_text_within t cv Gv1 vs Hl Hvs)|].
    apply int_if_group_within. exact Hl.
Qed.

Lemma skipn_nth_error : forall (A : Type) (l : list A) i a,
  nth_error l i = Some a -> skipn i l = a :: skipn (S i) l.
Proof.
  intros A l; induction l as [|x l IH]; intros i a H; destruct i; simpl in *; try discriminate.
  - injection H as <-. reflexivity.
  - apply IH. exact H.
Qed.

(** A literal matches exactly a copy of itself. *)
Lemma lang_Lit_slice : forall (s : pystr) w i c j c',
  lang s (Lit w) i c j c' -> j = i + length w /\ slice s i j = w.
Proof.
  intros s w; induction w as [|a w IH]; intros i c0 j c' H.
  - simpl in H. inv_lang. split; [simpl; lia|]. unfold slice. rewrite Nat.sub_diag. reflexivity.
  - simpl in H. unfold Chr in H. inv_lang.
    match goal with E : cp_eqb _ _ = true |- _ => apply N.eqb_eq in E; subst end.
    match goal with E : lang _ (Lit w) _ _ _ _ |- _ => apply IH in E; destruct E as [Ej Es] end.
    split; [simpl; lia|]. unfold slice in *.
    match goal with E : nth_error _ _ = Some _ |- _ => rewrite (skipn_nth_error _ _ _ _ E) end.
    replace (j - i) with (S (j - S i)) by lia. cbn [firstn]. rewrite Es. reflexivity.
Qed.

(** The groups of [full_re], for any pattern [B] of book names. *)
Lemma full_groups_of : forall (B : regex) t j fm,
  lang t
    (Seq Bol (Seq (Grp Gbook B) (Seq spaces (Seq (Grp Gchap digits)
      (Seq (Opt (Seq (Chr (chr ":")) (Seq (Grp Gv1 digits)
                  (Opt (Seq (Chr (chr "-")) (Grp Gv2 digits))))))
           Eol))))) 0 [] j fm ->
  no_group B ->
  exists j1 sp,
    lang t B 0 [] j1 [] /\ span_of Gbook fm = Some (0, j1) /\ span_of Gchap fm = Some sp.
Proof.
  intros B t j fm H HB. unfold Opt, Chr in H.
  inv_lang;
    repeat match goal with
           | E : lang _ digits _ _ _ _ |- _ =>
               apply lang_no_group in E; [subst | exact no_group_digits]
           | E : lang _ spaces _ _ _ _ |- _ =>
               apply lang_no_group in E; [subst | exact no_group_spaces]
           end;
    match goal with
    | E : lang _ B _ _ ?j1 _ |- _ =>
        pose proof (lang_no_group t _ _ _ _ _ E HB); subst;
        exists j1; eexists; split; [exact E | split; reflexivity]
    end.
Qed.

Lemma alt_has_codes :
  forallb (fun w => match dict_get abbr_to_code (Some w) with
                    | Some (_ :: _) => true
                    | _ => false
                    end) alt = true.
Proof. vm_compute. reflexivity. Qed.

Lemma dict_get_in : forall d k v, dict_get d k = Some v -> In v (map snd d).
Proof.
  intros d [k|] v; induction d as [|[k' v'] d IH]; simpl; try discriminate.
  destruct (pystr_eqb k k'); [intros H; injection H as <-; left; reflexivity|].
  intros H. right. apply IH. exact H.
Qed.

(** X15: the book group of a token of the FULL shape is a key of the
    table, so the branch for an unknown abbreviation is never taken: every
    outcome of the token sets the book to the key's code and the chapter to
    the value of the chapter group, with a URI for them, and a token
    within the limit of [int] has one. *)
Theorem X15_full_token_resolves : forall (line_text : pystr) (s : nat) (t : pystr) (cur : Ctx),
  re_match t full_re <> None ->
  exists fm key code cs,
    re_match t full_re = Some fm /\
    group_text t fm Gbook = Some key /\
    In (key, code) abbr_to_code /\ code <> [] /\
    group_text t fm Gchap = Some cs /\
    (forall r, resolve_token line_text s t cur = Some r ->
       exists v1 v2,
         r = (mkCtx (Some code) (Some (py_int cs)),
              Some (make_url code (py_int cs) v1 v2))) /\
    (within_digit_limit t = true -> exists r, resolve_token line_text s t cur = Some r).
Proof.
  intros line_text s t cur H.
  destruct (re_match t full_re) as [fm|] eqn:Hf; [clear H | congruence].
  pose proof Hf as Hl. apply re_match_lang in Hl. destruct Hl as [j Hl].
  apply full_groups_of in Hl; [|apply no_group_AltLits].
  destruct Hl as (j1 & sp & HB & Hbook & Hchap).
  apply lang_AltLits in HB; [|vm_compute; discriminate].
  destruct HB as (w & Hin & Hw). apply lang_Lit_slice in Hw. destruct Hw as [Hj Hs].
  assert (Hkey : group_text t fm Gbook = Some w).
  { unfold group_text. rewrite Hbook, Hs. reflexivity. }
  pose proof alt_has_codes as Hc. rewrite forallb_forall in Hc. specialize (Hc w Hin).
  destruct (dict_get abbr_to_code (Some w)) as [[|co de]|] eqn:Hd; try discriminate.
  destruct (group_text_captured t fm Gchap sp Hchap) as [cs Hcs].
  assert (Hpair : In (w, co :: de) abbr_to_code).
  { clear - Hd. induction abbr_to_code as [|[k' v'] d IH]; simpl in Hd; [discriminate|].
    destruct (pystr_eqb w k') eqn:E.
    - injection Hd as <-. apply pystr_eqb_eq in E. subst. left; reflexivity.
    - right. apply IH. exact Hd. }
  assert (Hval : forall n, int_of_str cs = Some n -> n = py_int cs).
  { unfold int_of_str. destruct (within_digit_limit cs); intros n E; [|discriminate].
    injection E as <-. reflexivity. }
  exists fm, w, (co :: de), cs.
  split; [reflexivity|]. split; [exact Hkey|]. split; [exact Hpair|].
  split; [discriminate|]. split; [exact Hcs|].
  unfold resolve_token. rewrite Hf, Hkey, Hd, Hcs. cbn [int_of_group]. split.
  - intros r. destruct (int_of_str cs) as [chap|]; cbn [bind]; [|discriminate].
    pose proof (Hval chap eq_refl). subst chap.
    destruct (group_text t fm Gv1) as [v1s|].
    + destruct (int_of_str v1s) as [v1|]; cbn [bind]; [|discriminate].
      destruct (int_if_group (group_text t fm Gv2)) as [v2|]; cbn [bind]; [|discriminate].
      intros E; injection E as <-. exists (Some v1), v2. reflexivity.
    + intros E; injection E as <-. exists None, None. reflexivity.
  - intros Hlim.
    rewrite (int_of_str_within cs (group_text_within t fm Gchap cs Hlim Hcs)). cbn [bind].
    destruct (group_text t fm Gv1) as [v1s|] eqn:Hv1; [|eexists; reflexivity].
    rewrite (int_of_str_within v1s (group_text_within t fm Gv1 v1s Hlim Hv1)). cbn [bind].
    destruct (int_if_group_within t fm Gv2 Hlim) as [v Hv]. rewrite Hv. cbn [bind].
    eexists; reflexivity.
Qed.

End ShapeCases.

Lemma X4_witness :
  re_match (U := ascii_only) (py "21:6-8") (chapverse_re (U := ascii_only)) <> None /\
  (re_match (U := ascii_only) (py "21:6-8") (full_re (U := ascii_only)) = None /\
   re_match (U := ascii_only) (py "21:6-8") (verseonly_re (U := ascii_only)) = None /\
   exists cv cs vs,
     re_match (U := ascii_only) (py "21:6-8") (chapverse_re (U := ascii_only)) = Some cv /\
     group_text (py "21:6-8") cv Gchap = Some cs /\
     group_text (py "21:6-8") cv Gv1 = Some vs /\
     resolve_token (U := ascii_only) (py "Mt 1:8, 21:6-8") 8 (py "21:6-8")
       (mkCtx (Some (py "mat")) (Some 1%N))
     = (chap <- int_of_str (U := ascii_only) cs ;;
        v1 <- int_of_str (U := ascii_only) vs ;;
        v2 <- int_if_group (U := ascii_only) (group_text (py "21:6-8") cv Gv2) ;;
        Some (mkCtx (Some (py "mat")) (Some chap),
              Some (make_url (py "mat") chap (Some v1) v2))) /\
     (within_digit_limit (py "21:6-8") = true ->
      int_of_str (U := ascii_only) cs = Some (py_int (U := ascii_only) cs) /\
      int_of_str (U := ascii_only) vs = Some (py_int (U := ascii_only) vs) /\
      exists v2, int_if_group (U := ascii_only) (group_text (py "21:6-8") cv Gv2) = Some v2)) /\
  resolve_token (U := ascii_only) (py "Mt 1:8, 21:6-8") 8 (py "21:6-8")
    (mkCtx (Some (py "mat")) (Some 1%N))
  = Some (mkCtx (Some (py "mat")) (Some 21%N),
          Some (py "https://ebible.gr/collate/mat.21.6-8")).
Proof.
  assert (H : re_match (U := ascii_only) (py "21:6-8") (chapverse_re (U := ascii_only))
              <> None) by (vm_compute; discriminate).
  split; [exact H|]. split.
  - exact (X4_chapter_verse_token (U := ascii_only) (py "Mt 1:8, 21:6-8") 8 (py "21:6-8")
             (mkCtx (Some (py "mat")) (Some 1%N)) H).
  - vm_compute. reflexivity.
Defined.

Lemma X15_witness :
  re_match (U := ascii_only) (py "1Co 13") (full_re (U := ascii_only)) <> None /\
  (exists fm key code cs,
    re_match (U := ascii_only) (py "1Co 13") (full_re (U := ascii_only)) = Some fm /\
    group_text (py "1Co 13") fm Gbook = Some key /\
    In (key, code) abbr_to_code /\ code <> [] /\
    group_text (py "1Co 13") fm Gchap = Some cs /\
    (forall r, resolve_token (U := ascii_only) [] 0 (py "1Co 13") (mkCtx None None) = Some r ->
       exists v1 v2,
         r = (mkCtx (Some code) (Some (py_int (U := ascii_only) cs)),
              Some (make_url code (py_int (U := ascii_only) cs) v1 v2))) /\
    (within_digit_limit (py "1Co 13") = true ->
     exists r, resolve_token (U := ascii_only) [] 0 (py "1Co 13") (mkCtx None None) = Some r)) /\
  resolve_token (U := ascii_only) [] 0 (py "1Co 13") (mkCtx None None)
  = Some (mkCtx (Some (py "1co")) (Some 13%N), Some (py "https://ebible.gr/collate/1co.13")).
Proof.
  assert (H : re_match (U := ascii_only) (py "1Co 13") (full_re (U := ascii_only)) <> None)
    by (vm_compute; discriminate).
  split; [exact H|]. split.
  - exact (X15_full_token_resolves (U := ascii_only) [] 0 (py "1Co 13") (mkCtx None None) H).
  - vm_compute. reflexivity.
Defined.

(** ** Every link goes to a book of the table *)

Section KnownBooks.
Context {U : UnicodeData}.

Lemma resolve_token_known : forall line_text s t cur cur' url,
  (forall b, ctx_book cur = Some b -> known_code b) ->
  resolve_token line_text s t cur = Some (cur', url) ->
  (forall b, ctx_book cur' = Some b -> known_code b) /\
  (forall u, url = Some u -> known_uri u).
Proof.
  intros line_text s t cur cur' url Hk. unfold resolve_token.
  assert (Hv : verse_only line_text s t cur = Some (cur', url) ->
               (forall b, ctx_book cur' = Some b -> known_code b) /\
               (forall u, url = Some u -> known_uri u)).
  { unfold verse_only.
    destruct (re_match t verseonly_re) as [vo|];
      [|intros E; injection E as <- <-; split; [exact Hk | discriminate]].
    destruct (ctx_book cur) as [[|b ook]|] eqn:Hb;
      try (intros E; injection E as <- <-; split; [rewrite Hb; exact Hk | discriminate]).
    destruct (ctx_chap cur) as [[|chap]|];
      try (intros E; injection E as <- <-; split; [rewrite Hb; exact Hk | discriminate]).
    destruct (inherits_context_at line_text s) as [[|]|]; cbn [bind]; try discriminate.
    - destruct (int_of_group (group_text t vo Gv1)) as [v1|]; cbn [bind]; [|discriminate].
      destruct (int_if_group (group_text t vo Gv2)) as [v2|]; cbn [bind]; [|discriminate].
      intros E; injection E as <- <-. split; [rewrite Hb; exact Hk|].
      intros u Hu; injection Hu as <-.
      exists (b :: ook), (N.pos chap), (Some v1), v2.
      split; [apply Hk; reflexivity | reflexivity].
    - intros E; injection E as <- <-; split; [rewrite Hb; exact Hk | discriminate]. }
  destruct (re_match t full_re) as [fm|].
  - destruct (dict_get abbr_to_code (group_text t fm Gbook)) as [[|co de]|] eqn:Hd;
      try (intros E; injection E as <- <-; split; [exact Hk | discriminate]).
    apply dict_get_in in Hd.
    destruct (int_of_group (group_text t fm Gchap)) as [chap|]; cbn [bind]; [|discriminate].
    destruct (group_text t fm Gv1) as [v1s|].
    + destruct (int_of_str v1s) as [v1|]; cbn [bind]; [|discriminate].
      destruct (int_if_group (group_text t fm Gv2)) as [v2|]; cbn [bind]; [|discriminate].
      intros E; injection E as <- <-.
      cbn [ctx_book]. split; [intros b Hb; injection Hb as <-; exact Hd|].
      intros u Hu; injection Hu as <-.
      exists (co :: de), chap, (Some v1), v2. split; [exact Hd | reflexivity].
    + intros E; injection E as <- <-.
      cbn [ctx_book]. split; [intros b Hb; injection Hb as <-; exact Hd|].
      intros u Hu; injection Hu as <-.
      exists (co :: de), chap, None, None. split; [exact Hd | reflexivity].
  - destruct (re_match t chapverse_re) as [cv|]; [|exact Hv].
    destruct (ctx_book cur) as [[|b ook]|] eqn:Hb; try exact Hv.
    destruct (int_of_group (group_text t cv Gchap)) as [chap|]; cbn [bind]; [|discriminate].
    destruct (int_of_group (group_text t cv Gv1)) as [v1|]; cbn [bind]; [|discriminate].
    destruct (int_if_group (group_text t cv Gv2)) as [v2|]; cbn [bind]; [|discriminate].
    intros E; injection E as <- <-. cbn [ctx_book]. split; [exact Hk|].
    intros u Hu; injection Hu as <-.
    exists (b :: ook), chap, (Some v1), v2.
    split; [apply Hk; reflexivity | reflexivity].
Qed.

Lemma token_step_known : forall pno line_text char_rects acc m acc',
  token_step pno line_text char_rects acc m = Some acc' ->
  known_books acc -> known_books acc'.
Proof.
  intros pno line_text char_rects [cur [links total]] [s e] acc'.
  unfold token_step, known_books. cbn [fst snd].
  destruct (resolve_token line_text s (strip_supdig (slice line_text s e)) cur)
    as [[cur' url]|] eqn:Hr; cbn [bind]; [|discriminate].
  intros E [Hb Hl]. destruct (resolve_token_known _ _ _ _ _ _ Hb Hr) as [Hb' Hu].
  destruct url as [[|u rl]|]; try (injection E as <-; cbn [fst snd]; split; assumption).
  destruct (rect_for_span_chars char_rects s e);
    injection E as <-; cbn [fst snd]; (split; [assumption|]); [|assumption].
  apply Forall_app. split; [assumption|]. constructor; [|constructor].
  cbn [snd link_uri]. apply Hu. reflexivity.
Qed.

Lemma line_step_known : forall pno acc chars acc',
  line_step pno acc chars = Some acc' -> known_books acc -> known_books acc'.
Proof.
  intros pno [ctx out] chars acc'. unfold line_step.
  destruct chars as [|x chars]; [intros E; injection E as <-; auto|].
  destruct (build_line_text_and_map (x :: chars) (85 # 100)) as [[line_text char_rects] meta].
  destruct (line_tokens pno line_text char_rects (ctx, out)) as [[current out']|] eqn:Ht;
    cbn [bind]; [|discriminate].
  intros E; injection E as <-. intros Hk.
  assert (Hk' : known_books (current, out')).
  { revert Ht Hk. unfold line_tokens.
    apply (foldM_rel _ _ _ (fun a b => known_books a -> known_books b)); auto.
    intros a m a'. apply token_step_known. }
  destruct Hk as [Hb _], Hk' as [Hb' Hl']. unfold known_books. cbn [fst snd ctx_book] in *.
  split; [|exact Hl'].
  intros b. destruct (ctx_book current) as [b'|]; [exact (Hb' b) | exact (Hb b)].
Qed.

Lemma traverse_known : forall doc acc acc',
  traverse doc acc = Some acc' -> known_books acc -> known_books acc'.
Proof.
  intros doc. unfold traverse.
  apply (foldM_rel _ _ _ (fun a b => known_books a -> known_books b)); auto.
  intros a [pno page] a'. unfold page_step.
  apply (foldM_rel _ _ _ (fun a b => known_books a -> known_books b)); auto.
  intros a0 chars a0'. apply line_step_known.
Qed.

(** X16: every link [add_links] has inserted when it returns goes to a
    book of the table: its URI is one of the three forms of [make_url] for
    one of the codes of [abbr_to_code], whatever the text of the
    document. *)
Theorem X16_links_to_known_books : forall (doc : list Page) (links : list (nat * Link)),
  inserted_links doc = Some links ->
  Forall (fun l => exists b chap v1 v2,
                     In b (map snd abbr_to_code) /\
                     link_uri (snd l) = make_url b chap v1 v2) links.
Proof.
  intros doc links. unfold inserted_links, run_links.
  destruct (traverse doc (mkCtx None None, ([], 0))) as [[ctx [links' total]]|] eqn:H;
    cbn [bind]; [|discriminate].
  intros E; injection E as <-.
  assert (H0 : known_books (mkCtx None None, ([], 0))).
  { split; [intros b Hb; discriminate | constructor]. }
  exact (proj2 (traverse_known _ _ _ H H0)).
Qed.

End KnownBooks.

(** ** What reaches the tokenizer, and the shape of the context *)

Section ReachFacts.
Context {U : UnicodeData}.

(** X17: on a line of single glyphs with a positive baseline, the digit
    at index [i] of the normalised text comes from a record of the line
    whose rectangle is the one at index [i] and whose font size is at least
    [sup_ratio] times the baseline: no superscript digit reaches the
    tokenizer. *)
Theorem X17_digits_are_full_size : forall (chars : list CharRec) (sup_ratio : Q)
    (i : nat) (ch : codepoint),
  Forall (fun x => length (c x) <= 1) chars ->
  nth_error (fst (fst (build_line_text_and_map chars sup_ratio))) i = Some ch ->
  isdigit_cp ch = true ->
  (0 < line_base chars)%Q ->
  exists x, In x chars /\ c x = [ch] /\
    nth_error (snd (fst (build_line_text_and_map chars sup_ratio))) i = Some (rect x) /\
    (sup_ratio * line_base chars <= size x)%Q.
Proof.
  intros chars sup_ratio i ch Hwf. rewrite build_line_text_and_map_filter. cbn [fst snd].
  intros Hi Hd Hpos.
  destruct (concat_single_nth _ (kept_single sup_ratio (line_base chars) chars Hwf) i ch Hi)
    as (x & Hx & Hc).
  assert (Hr : nth_error (map rect (filter (keeps sup_ratio (line_base chars)) chars)) i
               = Some (rect x)) by (rewrite nth_error_map, Hx; reflexivity).
  apply nth_error_In in Hx. apply filter_In in Hx. destruct Hx as [Hin Hk].
  exists x. split; [exact Hin|]. split; [exact Hc|]. split; [exact Hr|].
  apply Qnot_lt_le. intros Hlt.
  rewrite (proj2 (keeps_false_iff sup_ratio (line_base chars) x)) in Hk; [discriminate|].
  do 4 right. split; [|split; assumption].
  rewrite Hc. simpl. rewrite Hd. reflexivity.
Qed.

Lemma resolve_token_chapter_has_book : forall line_text s t cur cur' url,
  resolve_token line_text s t cur = Some (cur', url) ->
  chapter_has_book cur -> chapter_has_book cur'.
Proof.
  intros line_text s t cur cur' url. unfold resolve_token, chapter_has_book.
  destruct (re_match t full_re) as [fm|].
  - destruct (dict_get abbr_to_code (group_text t fm Gbook)) as [[|co de]|];
      try (intros E; injection E as <- <-; auto).
    destruct (int_of_group (group_text t fm Gchap)) as [chap|]; cbn [bind]; [|discriminate].
    destruct (group_text t fm Gv1) as [v1s|].
    + destruct (int_of_str v1s) as [v1|]; cbn [bind]; [|discriminate].
      destruct (int_if_group (group_text t fm Gv2)) as [v2|]; cbn [bind]; [|discriminate].
      intros E; injection E as <- <-; reflexivity.
    + intros E; injection E as <- <-; reflexivity.
  - destruct (re_match t chapverse_re) as [cv|].
    + destruct (ctx_book cur) as [[|b ook]|] eqn:Hb;
        try (intros E; apply verse_only_state in E; subst; rewrite Hb; auto).
      destruct (int_of_group (group_text t cv Gchap)) as [chap|]; cbn [bind]; [|discriminate].
      destruct (int_of_group (group_text t cv Gv1)) as [v1|]; cbn [bind]; [|discriminate].
      destruct (int_if_group (group_text t cv Gv2)) as [v2|]; cbn [bind]; [|discriminate].
      intros E; injection E as <- <-. reflexivity.
    + intros E; apply verse_only_state in E; subst; auto.
Qed.

Lemma token_step_chapter_has_book : forall pno line_text char_rects acc m acc',
  token_step pno line_text char_rects acc m = Some acc' ->
  chapter_has_book (fst acc) -> chapter_has_book (fst acc').
Proof.
  intros pno line_text char_rects [cur [links total]] [s e] acc'. unfold token_step.
  destruct (resolve_token line_text s (strip_supdig (slice line_text s e)) cur)
    as [[cur' url]|] eqn:Hr; cbn [bind]; [|discriminate].
  pose proof (resolve_token_chapter_has_book _ _ _ _ _ _ Hr) as Hk.
  destruct url as [[|u rl]|]; try (intros E; injection E as <-; exact Hk).
  destruct (rect_for_span_chars char_rects s e); intros E; injection E as <-; exact Hk.
Qed.

Lemma line_step_chapter_has_book : forall pno acc chars acc',
  line_step pno acc chars = Some acc' ->
  chapter_has_book (fst acc) -> chapter_has_book (fst acc').
Proof.
  intros pno [ctx out] chars acc' H. destruct chars as [|x chars].
  - injection H as <-. auto.
  - rewrite line_step_written_back in H. revert H. unfold line_tokens.
    apply (foldM_rel _ _ _ (fun a b => chapter_has_book (fst a) -> chapter_has_book (fst b)));
      auto.
    intros a m a'. apply token_step_chapter_has_book.
Qed.

(** X18: the context never holds a chapter without a book: when
    [add_links] returns, from its empty context, a chapter that is set
    comes with a book that is set too, to a code of the table. *)
Theorem X18_chapter_never_without_book : forall (doc : list Page) (ctx : Ctx) (out : Emitted),
  run_links doc = Some (ctx, out) ->
  ctx_chap ctx <> None ->
  exists b, ctx_book ctx = Some b /\ b <> [] /\ In b (map snd abbr_to_code).
Proof.
  intros doc ctx out H. unfold run_links in H.
  assert (Hc : chapter_has_book ctx).
  { assert (H0 : chapter_has_book (fst (mkCtx None None, (@nil (nat * Link), 0))))
      by (intros E; exfalso; apply E; reflexivity).
    revert H H0. unfold traverse.
    apply (foldM_rel _ _ _ (fun a b => chapter_has_book (fst a) -> chapter_has_book (fst b)));
      auto.
    intros a [pno page] a'. unfold page_step.
    apply (foldM_rel _ _ _ (fun a b => chapter_has_book (fst a) -> chapter_has_book (fst b)));
      auto.
    intros a0 chars a0'. apply line_step_chapter_has_book. }
  assert (Hk : known_books (ctx, out)).
  { apply (traverse_known _ _ _ H). split; [intros b Hb; discriminate | constructor]. }
  intros Hchap. specialize (Hc Hchap).
  destruct (ctx_book ctx) as [[|b ook]|] eqn:Hb; try discriminate.
  exists (b :: ook). split; [reflexivity|]. split; [discriminate|].
  apply (proj1 Hk). exact Hb.
Qed.

End ReachFacts.

Lemma X17_witness :
  Forall (fun x => length (c x) <= 1) (line_of 10 "Mt 7") /\
  nth_error (fst (fst (build_line_text_and_map (U := ascii_only)
                         (line_of 10 "Mt 7") (85 # 100)))) 3 = Some (chr "7") /\
  isdigit_cp (U := ascii_only) (chr "7") = true /\
  (0 < line_base (U := ascii_only) (line_of 10 "Mt 7"))%Q /\
  exists x, In x (line_of 10 "Mt 7") /\ c x = [chr "7"] /\
    nth_error (snd (fst (build_line_text_and_map (U := ascii_only)
                           (line_of 10 "Mt 7") (85 # 100)))) 3 = Some (rect x) /\
    ((85 # 100) * line_base (U := ascii_only) (line_of 10 "Mt 7") <= size x)%Q.
Proof.
  assert (H1 : Forall (fun x => length (c x) <= 1) (line_of 10 "Mt 7"))
    by (repeat constructor).
  assert (H2 : nth_error (fst (fst (build_line_text_and_map (U := ascii_only)
                                      (line_of 10 "Mt 7") (85 # 100)))) 3 = Some (chr "7"))
    by (vm_compute; reflexivity).
  assert (H3 : isdigit_cp (U := ascii_only) (chr "7") = true) by reflexivity.
  assert (H4 : (0 < line_base (U := ascii_only) (line_of 10 "Mt 7"))%Q)
    by (vm_compute; reflexivity).
  split; [exact H1|]. split; [exact H2|]. split; [exact H3|]. split; [exact H4|].
  exact (X17_digits_are_full_size (U := ascii_only) (line_of 10 "Mt 7") (85 # 100) 3 (chr "7")
           H1 H2 H3 H4).
Defined.

Lemma X16_witness :
  inserted_links (U := ascii_only) [page_of ["Mt 1:8,"%string; "11,"%string]] =
    Some [ (0, mkLink (mkRect (-3 # 10) (997 # 10) (353 # 10) (1103 # 10))
                      (py "https://ebible.gr/collate/mat.1.8"));
           (0, mkLink (mkRect (-3 # 10) (997 # 10) (113 # 10) (1103 # 10))
                      (py "https://ebible.gr/collate/mat.1.11")) ] /\
  Forall (fun l => exists b chap v1 v2,
                     In b (map snd abbr_to_code) /\
                     link_uri (snd l) = make_url b chap v1 v2)
    [ (0, mkLink (mkRect (-3 # 10) (997 # 10) (353 # 10) (1103 # 10))
                 (py "https://ebible.gr/collate/mat.1.8"));
      (0, mkLink (mkRect (-3 # 10) (997 # 10) (113 # 10) (1103 # 10))
                 (py "https://ebible.gr/collate/mat.1.11")) ].
Proof.
  assert (H : inserted_links (U := ascii_only) [page_of ["Mt 1:8,"%string; "11,"%string]] =
    Some [ (0, mkLink (mkRect (-3 # 10) (997 # 10) (353 # 10) (1103 # 10))
                      (py "https://ebible.gr/collate/mat.1.8"));
           (0, mkLink (mkRect (-3 # 10) (997 # 10) (113 # 10) (1103 # 10))
                      (py "https://ebible.gr/collate/mat.1.11")) ])
    by (vm_compute; reflexivity).
  split; [exact H|].
  exact (X16_links_to_known_books (U := ascii_only) _ _ H).
Defined.

Lemma X18_witness :
  run_links (U := ascii_only) [page_of ["Mt 7:3"%string]] =
    Some (mkCtx (Some (py "mat")) (Some 7%N),
          ([ (0, mkLink (mkRect (-3 # 10) (997 # 10) (353 # 10) (1103 # 10))
                        (py "https://ebible.gr/collate/mat.7.3")) ], 1)) /\
  Some 7%N <> None /\
  exists b, Some (py "mat") = Some b /\ b <> [] /\ In b (map snd abbr_to_code).
Proof.
  assert (H : run_links (U := ascii_only) [page_of ["Mt 7:3"%string]] =
    Some (mkCtx (Some (py "mat")) (Some 7%N),
          ([ (0, mkLink (mkRect (-3 # 10) (997 # 10) (353 # 10) (1103 # 10))
                        (py "https://ebible.gr/collate/mat.7.3")) ], 1)))
    by (vm_compute; reflexivity).
  assert (H' : Some 7%N <> @None N) by discriminate.
  split; [exact H|]. split; [exact H'|].
  exact (X18_chapter_never_without_book (U := ascii_only) _ _ _ H H').
Defined.
